(** * etcdap: the LDAP message codec and the bind/search handlers

  A shallow embedding of the Go sources of the gateway:
  - [Asn1]: the part of Go's [encoding/asn1] that the [ldap] package calls
    ([Unmarshal] into [RawValue], [int], [[]byte] and [bool]; [Marshal] of
    [int], [[]byte] and [RawValue]);
  - [Ldap]: [ldap/common.go], [ldap/bind_request.go],
    [ldap/bind_response.go], [ldap/search_request.go],
    [ldap/extended_request.go], [ldap/extended_response.go];
  - [Gateway]: [handleBind] and [handleSearch] of [main.go] over the
    [Backend] interface of [backend.go];
  - [LdapServer]: [readRequest] and [parseBindRequest] of
    [ldap/request.go], and [defaultHandler.ServeLDAP] of [ldap/server.go];
  - [EtcdBackend]: [dnToPathAndID] and [pathToDNAndID] of [backend.go],
    with the functions of Go's [strings] that they call.

  Bytes are integers in [0, 255] kept as [Z]; a Go [int] is a [Z]; a
  run-time panic (index out of range, nil dereference) is an explicit
  outcome of the [result] type. *)

From Stdlib Require Import ZArith List String Ascii Lia Bool.
From stdpp Require Import base option list strings gmap.

Local Open Scope string_scope.
Local Open Scope list_scope.
Local Open Scope Z_scope.

Definition bytes := list Z.

(** ** Go's encoding/asn1, as used by the ldap package *)
Module Asn1.

Inductive error : Type :=
| SyntaxError (msg : string)
| StructuralError (msg : string).

(** [(value, err)] results of the library: [inl] is a non-nil [err]. *)
Definition res (A : Type) : Type := (error + A)%type.

#[global] Instance res_ret : MRet res := fun A a => inr a.
#[global] Instance res_bind : MBind res := fun A B f m =>
  match m with
  | inl e => inl e
  | inr a => f a
  end.

Record tagAndLength : Type := mkTagAndLength {
  tl_class : Z;
  tl_tag : Z;
  tl_length : Z;
  tl_isCompound : bool
}.

Record RawValue : Type := mkRawValue {
  Class : Z;
  Tag : Z;
  IsCompound : bool;
  Bytes : bytes;
  FullBytes : bytes
}.

Definition ClassUniversal : Z := 0.
Definition TagBoolean : Z := 1.
Definition TagInteger : Z := 2.
Definition TagOctetString : Z := 4.
Definition TagSequence : Z := 16.
Definition MaxInt32 : Z := 2147483647.

(** [parseBase128Int]: the loop over the tag's continuation octets;
    [shifted] counts the octets already read, [ret64] accumulates. *)
Fixpoint parseBase128Int (shifted : nat) (ret64 : Z) (bs : bytes)
  : res (Z * bytes) :=
  match bs with
  | [] => inl (SyntaxError "truncated base 128 integer")
  | b :: rest =>
      if Nat.eqb shifted 5 then
        inl (StructuralError "base 128 integer too large")
      else if Nat.eqb shifted 0 && (b =? 0x80) then
        inl (SyntaxError "integer is not minimally encoded")
      else
        let ret64 := Z.lor (Z.shiftl ret64 7) (Z.land b 0x7f) in
        if Z.land b 0x80 =? 0 then
          if ret64 >? MaxInt32 then
            inl (StructuralError "base 128 integer too large")
          else inr (ret64, rest)
        else parseBase128Int (S shifted) ret64 rest
  end.

(** The long-form length loop of [parseTagAndLength]. *)
Fixpoint parseLongLength (numBytes : nat) (len : Z) (bs : bytes)
  : res (Z * bytes) :=
  match numBytes with
  | O => inr (len, bs)
  | S n =>
      match bs with
      | [] => inl (SyntaxError "truncated tag or length")
      | b :: rest =>
          if len >=? 2 ^ 23 then inl (StructuralError "length too large")
          else
            let len := Z.lor (Z.shiftl len 8) b in
            if len =? 0 then
              inl (StructuralError "superfluous leading zeros in length")
            else parseLongLength n len rest
      end
  end.

(** [parseTagAndLength]: returns the header and the bytes after it. *)
Definition parseTagAndLength (bs : bytes) : res (tagAndLength * bytes) :=
  match bs with
  | [] => inl (SyntaxError "asn1: internal error in parseTagAndLength")
  | b :: rest =>
      let class := Z.shiftr b 6 in
      let isCompound := Z.land b 0x20 =? 0x20 in
      let tag := Z.land b 0x1f in
      '(tag, rest) ←
        (if tag =? 0x1f then
           '(tag, rest) ← parseBase128Int 0 0 rest;
           if tag <? 0x1f then inl (SyntaxError "non-minimal tag")
           else inr (tag, rest)
         else inr (tag, rest));
      match rest with
      | [] => inl (SyntaxError "truncated tag or length")
      | b :: rest =>
          if Z.land b 0x80 =? 0 then
            inr (mkTagAndLength class tag (Z.land b 0x7f) isCompound, rest)
          else
            let numBytes := Z.land b 0x7f in
            if numBytes =? 0 then
              inl (SyntaxError "indefinite length found (not DER)")
            else
              '(len, rest) ← parseLongLength (Z.to_nat numBytes) 0 rest;
              if len <? 0x80 then inl (StructuralError "non-minimal length")
              else inr (mkTagAndLength class tag len isCompound, rest)
      end
  end.

(** [parseField], first step: an exhausted input, else the header. *)
Definition parseHeader (bs : bytes) : res (tagAndLength * bytes) :=
  match bs with
  | [] => inl (SyntaxError "sequence truncated")
  | _ => parseTagAndLength bs
  end.

(** [parseField], after the tag test: the declared length is checked
    against what is left ([invalidLength]); returns the content octets and
    the bytes after the element. *)
Definition parseContent (t : tagAndLength) (rest : bytes) : res (bytes * bytes) :=
  if Z.of_nat (length rest) <? tl_length t then
    inl (SyntaxError "data truncated")
  else
    let n := Z.to_nat (tl_length t) in
    inr (take n rest, drop n rest).

(** [asn1.Unmarshal(b, &raw)] with [raw] an [asn1.RawValue]: any class
    and tag match. *)
Definition Unmarshal_RawValue (b : bytes) : res (RawValue * bytes) :=
  '(t, rest) ← parseHeader b;
  '(inner, rest) ← parseContent t rest;
  inr (mkRawValue (tl_class t) (tl_tag t) (tl_isCompound t) inner
         (take (length b - length rest)%nat b), rest).

(** The class, tag and primitive/constructed test of [parseField] for a
    target of a universal type. *)
Definition expect (universalTag : Z) (t : tagAndLength) : res unit :=
  if negb (tl_class t =? ClassUniversal) || negb (tl_tag t =? universalTag)
     || tl_isCompound t
  then inl (StructuralError "tags don't match")
  else inr tt.

Definition checkInteger (bs : bytes) : res unit :=
  match bs with
  | [] => inl (StructuralError "empty integer")
  | [_] => inr tt
  | b0 :: b1 :: _ =>
      if ((b0 =? 0) && (Z.land b1 0x80 =? 0))
         || ((b0 =? 0xff) && (Z.land b1 0x80 =? 0x80))
      then inl (StructuralError "integer not minimally-encoded")
      else inr tt
  end.

(** [parseInt64]: big-endian accumulation, then sign extension from the
    width read. *)
Definition parseInt64 (bs : bytes) : res Z :=
  _ ← checkInteger bs;
  if (8 <? length bs)%nat then inl (StructuralError "integer too large")
  else
    let ret := fold_left (fun acc b => Z.lor (Z.shiftl acc 8) b) bs 0 in
    let width := 8 * Z.of_nat (length bs) in
    inr (if ret >=? 2 ^ (width - 1) then ret - 2 ^ width else ret).

Definition parseBool (bs : bytes) : res bool :=
  match bs with
  | [b] =>
      if b =? 0 then inr false
      else if b =? 0xff then inr true
      else inl (SyntaxError "invalid boolean")
  | _ => inl (SyntaxError "invalid boolean")
  end.

(** [asn1.Unmarshal(b, &i)] with [i] of kind [int] (64 bits wide). *)
Definition Unmarshal_int (b : bytes) : res (Z * bytes) :=
  '(t, rest) ← parseHeader b;
  _ ← expect TagInteger t;
  '(inner, rest) ← parseContent t rest;
  i ← parseInt64 inner;
  inr (i, rest).

(** [asn1.Unmarshal(b, &s)] with [s] of kind [[]byte] (OCTET STRING). *)
Definition Unmarshal_bytes (b : bytes) : res (bytes * bytes) :=
  '(t, rest) ← parseHeader b;
  _ ← expect TagOctetString t;
  '(inner, rest) ← parseContent t rest;
  inr (inner, rest).

(** [asn1.Unmarshal(b, &v)] with [v] a [bool]. *)
Definition Unmarshal_bool (b : bytes) : res (bool * bytes) :=
  '(t, rest) ← parseHeader b;
  _ ← expect TagBoolean t;
  '(inner, rest) ← parseContent t rest;
  v ← parseBool inner;
  inr (v, rest).

(** *** Marshal *)

(** [byte(x)]: the low eight bits. *)
Definition to_byte (x : Z) : Z := Z.land x 0xff.

Fixpoint base128IntLength_loop (fuel : nat) (i : Z) : nat :=
  match fuel with
  | O => O
  | S fuel => if 0 <? i then S (base128IntLength_loop fuel (Z.shiftr i 7)) else O
  end.

Definition base128IntLength (n : Z) : nat :=
  if n =? 0 then 1%nat else base128IntLength_loop 10 n.

Fixpoint appendBase128Int_loop (i : nat) (n : Z) : bytes :=
  match i with
  | O => [Z.land (to_byte (Z.shiftr n 0)) 0x7f]
  | S j =>
      Z.lor (Z.land (to_byte (Z.shiftr n (Z.of_nat i * 7))) 0x7f) 0x80
        :: appendBase128Int_loop j n
  end.

Definition appendBase128Int (n : Z) : bytes :=
  appendBase128Int_loop (base128IntLength n - 1) n.

Fixpoint lengthLength_loop (fuel : nat) (i : Z) : nat :=
  match fuel with
  | O => 1%nat
  | S fuel => if 255 <? i then S (lengthLength_loop fuel (Z.shiftr i 8)) else 1%nat
  end.

Definition lengthLength (i : Z) : nat := lengthLength_loop 8 i.

Fixpoint appendLength_loop (n : nat) (i : Z) : bytes :=
  match n with
  | O => []
  | S m => to_byte (Z.shiftr i (Z.of_nat m * 8)) :: appendLength_loop m i
  end.

Definition appendLength (i : Z) : bytes := appendLength_loop (lengthLength i) i.

Definition appendTagAndLength (t : tagAndLength) : bytes :=
  let b := to_byte (Z.shiftl (to_byte (tl_class t)) 6) in
  let b := if tl_isCompound t then Z.lor b 0x20 else b in
  let ident :=
    if tl_tag t >=? 31 then Z.lor b 0x1f :: appendBase128Int (tl_tag t)
    else [Z.lor b (to_byte (tl_tag t))] in
  let len :=
    if tl_length t >=? 128 then
      Z.lor 0x80 (Z.of_nat (lengthLength (tl_length t))) :: appendLength (tl_length t)
    else [to_byte (tl_length t)] in
  ident ++ len.

(** [int64Encoder]: the minimal two's complement octets of [i]. *)
Fixpoint int64_len_pos (fuel : nat) (i : Z) : nat :=
  match fuel with
  | O => O
  | S fuel => if 127 <? i then S (int64_len_pos fuel (Z.shiftr i 8)) else O
  end.

Fixpoint int64_len_neg (fuel : nat) (i : Z) : nat :=
  match fuel with
  | O => O
  | S fuel => if i <? -128 then S (int64_len_neg fuel (Z.shiftr i 8)) else O
  end.

Definition int64_Len (i : Z) : nat :=
  (1 + int64_len_pos 8 i + int64_len_neg 8 i)%nat.

Definition int64_Encode (i : Z) : bytes :=
  appendLength_loop (int64_Len i) i.

Definition encode (class tag : Z) (isCompound : bool) (body : bytes) : bytes :=
  appendTagAndLength (mkTagAndLength class tag (Z.of_nat (length body)) isCompound)
    ++ body.

(** [asn1.Marshal(i)] for a value of kind [int]. *)
Definition Marshal_int (i : Z) : bytes :=
  encode ClassUniversal TagInteger false (int64_Encode i).

(** [asn1.Marshal(s)] for a value of kind [[]byte]. *)
Definition Marshal_bytes (s : bytes) : bytes :=
  encode ClassUniversal TagOctetString false s.

(** [asn1.Marshal(raw)] for an [asn1.RawValue]: a non-empty [FullBytes]
    is emitted as it is. *)
Definition Marshal_RawValue (rv : RawValue) : bytes :=
  match FullBytes rv with
  | [] => encode (Class rv) (Tag rv) (IsCompound rv) (Bytes rv)
  | fb => fb
  end.

(** The call came back with a non-nil [err]. *)
Definition is_error {A : Type} (r : res A) : Prop := ∃ e, r = inl e.

End Asn1.

(** ** The ldap package *)
Module Ldap.

(** *** ldap/common.go *)

Record LDAPError : Type := mkLDAPError {
  ResultCode : Z;
  Message : string
}.

Definition NewLDAPError (rc : Z) (msg : string) : LDAPError :=
  mkLDAPError rc msg.

Definition ResultCodeSuccess : Z := 0.
Definition ResultCodeOperationsError : Z := 1.
Definition ResultCodeProtocolError : Z := 2.
Definition ResultCodeAuthMethodNotSupported : Z := 7.
Definition ResultCodeNoSuchObject : Z := 32.
Definition ResultCodeInvalidCredentials : Z := 49.

(** What a call of the package does: it returns a value, returns a
    non-nil [*LDAPError], or panics. Where the Go function returns a
    partly filled value together with the error, the value is dropped:
    every caller tests [err] first. *)
Inductive result (A : Type) : Type :=
| Ok (a : A)
| Err (e : LDAPError)
| Panic (msg : string).
Arguments Ok {A} a.
Arguments Err {A} e.
Arguments Panic {A} msg.

#[global] Instance result_ret : MRet result := fun A a => Ok a.
#[global] Instance result_bind : MBind result := fun A B f m =>
  match m with
  | Ok a => f a
  | Err e => Err e
  | Panic msg => Panic msg
  end.
#[global] Instance result_fmap : FMap result := fun A B f m =>
  match m with
  | Ok a => Ok (f a)
  | Err e => Err e
  | Panic msg => Panic msg
  end.

(** The call comes back: with a value or with an error, not a panic. *)
Definition returns {A : Type} (r : result A) : Prop :=
  match r with
  | Panic _ => False
  | _ => True
  end.

(** [if err != nil { err = NewLDAPError(rc, msg); return }] *)
Definition orFail {A : Type} (r : Asn1.res A) (rc : Z) (msg : string)
  : result A :=
  match r with
  | inl _ => Err (NewLDAPError rc msg)
  | inr a => Ok a
  end.

(** [s[0]] on a slice. *)
Definition index0 (s : bytes) : result Z :=
  match s with
  | x :: _ => Ok x
  | [] => Panic "runtime error: index out of range"
  end.

Record Control : Type := mkControl {
  ControlType : bytes;
  Criticality : bool;
  ControlValue : bytes
}.

Definition Controls : Type := list Control.

(** [Referral] is a list of URIs, each an octet string. *)
Definition Referral : Type := list bytes.

Record LDAPResult : Type := mkLDAPResult {
  lr_ResultCode : Z;
  MatchedDN : bytes;
  DiagnosticMessage : bytes;
  lr_Referral : option Referral
}.

Definition Referral_Bytes (ref : Referral) : bytes :=
  concat (map Asn1.Marshal_bytes ref).

Definition LDAPResult_bytes (lr : LDAPResult) : bytes :=
  Asn1.Marshal_int (lr_ResultCode lr)
    ++ Asn1.Marshal_bytes (MatchedDN lr)
    ++ Asn1.Marshal_bytes (DiagnosticMessage lr)
    ++ match lr_Referral lr with
       | Some ref => Referral_Bytes ref
       | None => []
       end.

(** *** ldap/bind_request.go *)

Record SaslCredentials : Type := mkSaslCredentials {
  Mechanism : bytes;
  Credentials : bytes
}.

(** The implementations of the [AuthenticationChoice] interface. *)
Inductive AuthenticationChoice : Type :=
| Simple (s : bytes)
| Sasl (s : SaslCredentials).

(** [Authentication] is an interface value: [None] is nil. *)
Record BindRequest : Type := mkBindRequest {
  Version : Z;
  Name : bytes;
  Authentication : option AuthenticationChoice
}.

Definition BindRequest_Class (br : BindRequest) : Z := 1.
Definition BindRequest_Tag (br : BindRequest) : Z := 0.

Definition Simple_Class (s : bytes) : Z := 2.
Definition Simple_Tag (s : bytes) : Z := 0.

Definition Simple_Bytes (s : bytes) : bytes :=
  Asn1.Marshal_RawValue
    (Asn1.mkRawValue (Simple_Class s) (Simple_Tag s) false s []).

Definition NewSimple (b : bytes) : bytes := b.

Definition ParseSimple (b : bytes) : result bytes := Ok b.

Definition SaslCredentials_Class (s : SaslCredentials) : Z := 2.
Definition SaslCredentials_Tag (s : SaslCredentials) : Z := 3.

Definition SaslCredentials_Bytes (s : SaslCredentials) : bytes :=
  Asn1.Marshal_RawValue
    (Asn1.mkRawValue 0 16 true
       (Asn1.Marshal_bytes (Mechanism s) ++ Asn1.Marshal_bytes (Credentials s))
       []).

Definition NewSaslCredentials (m c : bytes) : SaslCredentials :=
  mkSaslCredentials m c.

Definition ParseSaslCredentials (b : bytes) : result SaslCredentials :=
  let sasl := mkSaslCredentials [] [] in
  '(rawSequence, _) ←
    orFail (Asn1.Unmarshal_RawValue b) ResultCodeProtocolError "Invalid sequence";
  if negb (Asn1.Class rawSequence =? SaslCredentials_Class sasl) then
    Err (NewLDAPError ResultCodeProtocolError "Invalid class")
  else if negb (Asn1.Tag rawSequence =? SaslCredentials_Tag sasl) then
    Err (NewLDAPError ResultCodeProtocolError "Invalid tag")
  else
    '(mechanism, rest) ←
      orFail (Asn1.Unmarshal_bytes (Asn1.Bytes rawSequence))
        ResultCodeProtocolError "Invalid mechanism field";
    match rest with
    | [] => Ok (mkSaslCredentials mechanism [])
    | _ =>
        '(credentials, _) ←
          orFail (Asn1.Unmarshal_bytes rest)
            ResultCodeProtocolError "Invalid credentials field";
        Ok (mkSaslCredentials mechanism credentials)
    end.

Definition AuthenticationChoice_Bytes (a : AuthenticationChoice) : bytes :=
  match a with
  | Simple s => Simple_Bytes s
  | Sasl s => SaslCredentials_Bytes s
  end.

(** [br.Authentication.Bytes()] on a nil interface value panics. *)
Definition BindRequest_Bytes (br : BindRequest) : result bytes :=
  let version := Asn1.Marshal_int (Version br) in
  let name := Asn1.Marshal_bytes (Name br) in
  auth ← match Authentication br with
         | Some a => Ok (AuthenticationChoice_Bytes a)
         | None => Panic "runtime error: invalid memory address or nil pointer dereference"
         end;
  Ok (Asn1.Marshal_RawValue
        (Asn1.mkRawValue (BindRequest_Class br) (BindRequest_Tag br) true
           (version ++ name ++ auth) [])).

Definition NewBindRequest (version : Z) (name : bytes) : BindRequest :=
  mkBindRequest version name None.

Definition ParseBindRequest (b : bytes) : result BindRequest :=
  let req := mkBindRequest 0 [] None in
  '(rawSequence, _) ←
    orFail (Asn1.Unmarshal_RawValue b) ResultCodeProtocolError "Invalid sequence";
  if negb (Asn1.Class rawSequence =? BindRequest_Class req) then
    Err (NewLDAPError ResultCodeProtocolError "Invalid class")
  else if negb (Asn1.Tag rawSequence =? BindRequest_Tag req) then
    Err (NewLDAPError ResultCodeProtocolError "Invalid tag")
  else
    '(version, rest) ←
      orFail (Asn1.Unmarshal_int (Asn1.Bytes rawSequence))
        ResultCodeProtocolError "Invalid version field";
    '(name, rest) ←
      orFail (Asn1.Unmarshal_bytes rest)
        ResultCodeProtocolError "Invalid name field";
    '(auth, rest) ←
      orFail (Asn1.Unmarshal_RawValue rest)
        ResultCodeProtocolError "Invalid authentication field";
    authentication ←
      match Asn1.Tag auth with
      | 0 =>
          match ParseSimple (Asn1.FullBytes auth) with
          | Ok simple => Ok (Some (Simple simple))
          | Err _ => Err (NewLDAPError ResultCodeProtocolError "Invalid simple field")
          | Panic msg => Panic msg
          end
      | 3 =>
          match ParseSaslCredentials (Asn1.FullBytes auth) with
          | Ok sasl => Ok (Some (Sasl sasl))
          | Err _ => Err (NewLDAPError ResultCodeProtocolError "Invalid sasl field")
          | Panic msg => Panic msg
          end
      | _ => Ok None
      end;
    if negb (version =? 3) then
      Err (NewLDAPError ResultCodeProtocolError "Unsupported version")
    else Ok (mkBindRequest version name authentication).

(** *** ldap/bind_response.go *)

Record BindResponse : Type := mkBindResponse {
  br_LDAPResult : LDAPResult;
  ServerSaslCreds : bytes
}.

Definition BindResponse_Class (br : BindResponse) : Z := 1.
Definition BindResponse_Tag (br : BindResponse) : Z := 1.

Definition BindResponse_Bytes (br : BindResponse) : bytes :=
  Asn1.Marshal_RawValue
    (Asn1.mkRawValue 0 16 true
       (LDAPResult_bytes (br_LDAPResult br)
          ++ Asn1.Marshal_bytes (ServerSaslCreds br))
       []).

(** [ParseBindResponse] returns a nil [*BindResponse]. *)
Definition ParseBindResponse (b : bytes) : result (option BindResponse) :=
  Ok None.

(** *** ldap/extended_request.go, ldap/extended_response.go *)

Record ExtendedRequest : Type := mkExtendedRequest {
  RequestName : bytes;
  RequestValue : bytes
}.

Definition ExtendedRequest_Class (er : ExtendedRequest) : Z := 23.
Definition ExtendedRequest_Tag (er : ExtendedRequest) : Z := 0.
Definition ExtendedRequest_Bytes (er : ExtendedRequest) : bytes := [].

Record ExtendedResponse : Type := mkExtendedResponse {
  ResponseName : bytes;
  ResponseValue : bytes
}.

Definition ExtendedResponse_Class (er : ExtendedResponse) : Z := 24.
Definition ExtendedResponse_Tag (er : ExtendedResponse) : Z := 0.
Definition ExtendedResponse_Bytes (er : ExtendedResponse) : bytes := [].

(** *** ldap/search_request.go *)

(** The constant block has no [iota]: the two names after
    [ScopeBaseObject = 0] repeat its expression. *)
Definition ScopeBaseObject : Z := 0.
Definition ScopeSingleLevel : Z := 0.
Definition ScopeWholeSubtree : Z := 0.

Record AttributeValueAssertion : Type := mkAttributeValueAssertion {
  AttributeDesc : bytes;
  AssertionValue : bytes
}.

(** The implementations of the [Filter] interface that [ParseFilter]
    builds; [Filter_nil] is the nil interface value. *)
#[warnings="-register-all"]
Inductive Filter : Type :=
| Filter_nil
| And (a : list Filter)
| Or (o : list Filter)
| EqualityMatch (em : AttributeValueAssertion)
| Present (p : bytes).

Definition AttributeSelection : Type := list bytes.

Record SearchRequest : Type := mkSearchRequest {
  BaseObject : bytes;
  Scope : Z;
  DerefAliases : Z;
  SizeLimit : Z;
  TimeLimit : Z;
  TypesOnly : bool;
  sr_Filter : Filter;
  Attributes : AttributeSelection
}.

Definition SearchRequest_Class (sr : SearchRequest) : Z := 1.
Definition SearchRequest_Tag (sr : SearchRequest) : Z := 3.
Definition SearchRequest_Bytes (sr : SearchRequest) : bytes := [].

Definition And_Class (a : list Filter) : Z := 2.
Definition And_Tag (a : list Filter) : Z := 0.
Definition Or_Class (o : list Filter) : Z := 2.
Definition Or_Tag (o : list Filter) : Z := 3.
Definition EqualityMatch_Class (em : AttributeValueAssertion) : Z := 2.
Definition EqualityMatch_Tag (em : AttributeValueAssertion) : Z := 3.
Definition Present_Class (p : bytes) : Z := 2.
Definition Present_Tag (p : bytes) : Z := 7.

(** The loop of [ParseAttributeSelection]; [fuel] bounds the number of
    iterations, each of which consumes at least two bytes of [rest]. *)
Fixpoint ParseAttributeSelection_loop (fuel : nat) (rest : bytes)
    (attr : AttributeSelection) : option (result AttributeSelection) :=
  match rest with
  | [] => Some (Ok attr)
  | _ =>
      match fuel with
      | O => None
      | S fuel =>
          match Asn1.Unmarshal_RawValue rest with
          | inl _ =>
              Some (Err (NewLDAPError ResultCodeProtocolError "Invalid attributes"))
          | inr (rawAttr, rest) =>
              ParseAttributeSelection_loop fuel rest (attr ++ [Asn1.Bytes rawAttr])
          end
      end
  end.

Definition unreachable {A : Type} (r : option (result A)) : result A :=
  match r with
  | Some x => x
  | None => Panic "iteration bound exceeded"
  end.

Definition ParseAttributeSelection (b : bytes) : result AttributeSelection :=
  '(rawSequence, _) ←
    orFail (Asn1.Unmarshal_RawValue b) ResultCodeProtocolError "Invalid sequence";
  let rest := Asn1.Bytes rawSequence in
  unreachable (ParseAttributeSelection_loop (length rest) rest []).

Definition ParseEqualityMatch (b : bytes) : result AttributeValueAssertion :=
  '(rawSequence, _) ←
    orFail (Asn1.Unmarshal_RawValue b) ResultCodeProtocolError "Invalid sequence";
  '(attributeDesc, rest) ←
    orFail (Asn1.Unmarshal_bytes (Asn1.Bytes rawSequence))
      ResultCodeProtocolError "Invalid attributeDesc field";
  '(assertionValue, _) ←
    orFail (Asn1.Unmarshal_bytes rest)
      ResultCodeProtocolError "Invalid assertionValue field";
  Ok (mkAttributeValueAssertion attributeDesc assertionValue).

Definition ParsePresent (b : bytes) : result bytes :=
  '(rawPresent, _) ←
    orFail (Asn1.Unmarshal_RawValue b) ResultCodeProtocolError "Invalid present";
  Ok (Asn1.Bytes rawPresent).

Section FilterList.
(** [ParseFilter], as seen from inside [ParseAnd] and [ParseOr]. *)
Variable ParseFilter : bytes → option (result Filter).

(** The loop shared, line for line, by [ParseAnd] and [ParseOr]. *)
Fixpoint parseFilters_loop (fuel : nat) (rest : bytes) (acc : list Filter)
  : option (result (list Filter)) :=
  match rest with
  | [] => Some (Ok acc)
  | _ =>
      match fuel with
      | O => None
      | S fuel =>
          match Asn1.Unmarshal_RawValue rest with
          | inl _ =>
              Some (Err (NewLDAPError ResultCodeProtocolError "Invalid filter"))
          | inr (rawFilter, rest) =>
              match ParseFilter (Asn1.FullBytes rawFilter) with
              | None => None
              | Some (Ok f) => parseFilters_loop fuel rest (acc ++ [f])
              | Some (Err e) => Some (Err e)
              | Some (Panic msg) => Some (Panic msg)
              end
          end
      end
  end.

Definition ParseAnd (b : bytes) : option (result (list Filter)) :=
  match Asn1.Unmarshal_RawValue b with
  | inl _ => Some (Err (NewLDAPError ResultCodeProtocolError "Invalid and"))
  | inr (rawAnd, _) =>
      parseFilters_loop (length (Asn1.Bytes rawAnd)) (Asn1.Bytes rawAnd) []
  end.

Definition ParseOr (b : bytes) : option (result (list Filter)) :=
  match Asn1.Unmarshal_RawValue b with
  | inl _ => Some (Err (NewLDAPError ResultCodeProtocolError "Invalid or"))
  | inr (rawOr, _) =>
      parseFilters_loop (length (Asn1.Bytes rawOr)) (Asn1.Bytes rawOr) []
  end.
End FilterList.

(** [ParseFilter] recurses through [ParseAnd] and [ParseOr] into the
    content of the element it was given; [depth] bounds the nesting. *)
Fixpoint ParseFilter_depth (depth : nat) (b : bytes) : option (result Filter) :=
  match depth with
  | O => None
  | S depth =>
      match Asn1.Unmarshal_RawValue b with
      | inl _ => Some (Err (NewLDAPError ResultCodeProtocolError "Invalid sequence"))
      | inr (rawSequence, _) =>
          match Asn1.Tag rawSequence with
          | 0 =>
              a ← ParseAnd (ParseFilter_depth depth) (Asn1.FullBytes rawSequence);
              Some (fmap (M:=result) And a)
          | 1 =>
              o ← ParseOr (ParseFilter_depth depth) (Asn1.FullBytes rawSequence);
              Some (fmap (M:=result) Or o)
          | 3 =>
              Some (EqualityMatch <$> ParseEqualityMatch (Asn1.FullBytes rawSequence))
          | 7 =>
              Some (Present <$> ParsePresent (Asn1.FullBytes rawSequence))
          | 2 | 4 | 5 | 6 | 8 | 9 => Some (Ok Filter_nil)
          | _ => Some (Err (NewLDAPError ResultCodeProtocolError "Invalid tag"))
          end
      end
  end.

Definition ParseFilter (b : bytes) : result Filter :=
  unreachable (ParseFilter_depth (S (length b)) b).

(** The error of [ParseFilter] is overwritten by the next [Unmarshal];
    the filter it returns with an error is nil. *)
Definition ParseSearchRequest (b : bytes) : result SearchRequest :=
  let req := mkSearchRequest [] 0 0 0 0 false Filter_nil [] in
  '(rawSequence, _) ←
    orFail (Asn1.Unmarshal_RawValue b) ResultCodeProtocolError "Invalid sequence";
  if negb (Asn1.Class rawSequence =? SearchRequest_Class req) then
    Err (NewLDAPError ResultCodeProtocolError "Invalid class")
  else if negb (Asn1.Tag rawSequence =? SearchRequest_Tag req) then
    Err (NewLDAPError ResultCodeProtocolError "Invalid tag")
  else
    '(baseObject, rest) ←
      orFail (Asn1.Unmarshal_bytes (Asn1.Bytes rawSequence))
        ResultCodeProtocolError "Invalid baseObject field";
    '(scope, rest) ←
      orFail (Asn1.Unmarshal_RawValue rest)
        ResultCodeProtocolError "Invalid scope field";
    scope0 ← index0 (Asn1.Bytes scope);
    '(derefAliases, rest) ←
      orFail (Asn1.Unmarshal_RawValue rest)
        ResultCodeProtocolError "Invalid derefAliases field";
    derefAliases0 ← index0 (Asn1.Bytes derefAliases);
    '(sizeLimit, rest) ←
      orFail (Asn1.Unmarshal_int rest)
        ResultCodeProtocolError "Invalid sizeLimit field";
    '(timeLimit, rest) ←
      orFail (Asn1.Unmarshal_int rest)
        ResultCodeProtocolError "Invalid timeLimit field";
    '(typesOnly, rest) ←
      orFail (Asn1.Unmarshal_bool rest)
        ResultCodeProtocolError "Invalid typesOnly field";
    '(filter, rest) ←
      orFail (Asn1.Unmarshal_RawValue rest)
        ResultCodeProtocolError "Invalid filter field";
    f ← match ParseFilter (Asn1.FullBytes filter) with
        | Ok f => Ok f
        | Err _ => Ok Filter_nil
        | Panic msg => Panic msg
        end;
    '(attributes, rest) ←
      orFail (Asn1.Unmarshal_RawValue rest)
        ResultCodeProtocolError "Invalid attributes field";
    attrs ← ParseAttributeSelection (Asn1.FullBytes attributes);
    Ok (mkSearchRequest baseObject scope0 derefAliases0 sizeLimit timeLimit
          typesOnly f attrs).

(** *** ldap/common.go: the message envelope *)

(** The implementations of the [ProtocolOp] interface that
    [ParseLDAPMessage] stores; a [*BindResponse] may be nil. *)
Inductive ProtocolOp : Type :=
| OpBindRequest (req : BindRequest)
| OpBindResponse (res : option BindResponse)
| OpSearchRequest (req : SearchRequest).

(** [msg_ProtocolOp] is an interface value and [msg_Controls] a pointer:
    [None] is nil. *)
Record LDAPMessage : Type := mkLDAPMessage {
  MessageID : Z;
  msg_ProtocolOp : option ProtocolOp;
  msg_Controls : option Controls
}.

Definition nil_dereference {A : Type} : result A :=
  Panic "runtime error: invalid memory address or nil pointer dereference".

Definition ProtocolOp_Bytes (op : option ProtocolOp) : result bytes :=
  match op with
  | Some (OpBindRequest req) => BindRequest_Bytes req
  | Some (OpBindResponse (Some res)) => Ok (BindResponse_Bytes res)
  | Some (OpSearchRequest req) => Ok (SearchRequest_Bytes req)
  | Some (OpBindResponse None) | None => nil_dereference
  end.

Definition LDAPMessage_Bytes (msg : LDAPMessage) : result bytes :=
  let msgID := Asn1.Marshal_int (MessageID msg) in
  protocolOp ← ProtocolOp_Bytes (msg_ProtocolOp msg);
  Ok (Asn1.Marshal_RawValue
        (Asn1.mkRawValue 0 16 true (msgID ++ protocolOp) [])).

Definition NewLDAPMessage (id : Z) (op : option ProtocolOp)
    (ctrl : option Controls) : LDAPMessage :=
  mkLDAPMessage id op ctrl.

Definition ParseLDAPMessage (b : bytes) : result (LDAPMessage * bytes) :=
  '(rawEnvelope, rest) ←
    orFail (Asn1.Unmarshal_RawValue b) ResultCodeProtocolError "Invalid LDAPMessage";
  '(messageID, r) ←
    orFail (Asn1.Unmarshal_int (Asn1.Bytes rawEnvelope))
      ResultCodeProtocolError "Invalid MessageID";
  '(rawProtocolOp, r) ←
    orFail (Asn1.Unmarshal_RawValue r) ResultCodeProtocolError "Invalid ProtocolOp";
  _ ← match r with
      | [] => Ok []
      | _ =>
          '(rawControls, r) ←
            orFail (Asn1.Unmarshal_RawValue r)
              ResultCodeProtocolError "Invalid Controls";
          Ok r
      end;
  op ← match Asn1.Tag rawProtocolOp with
       | 0 => OpBindRequest <$> ParseBindRequest (Asn1.FullBytes rawProtocolOp)
       | 1 => OpBindResponse <$> ParseBindResponse (Asn1.FullBytes rawProtocolOp)
       | 3 => OpSearchRequest <$> ParseSearchRequest (Asn1.FullBytes rawProtocolOp)
       | _ => Err (NewLDAPError ResultCodeOperationsError "Unsupported ProtocolOp")
       end;
  Ok (mkLDAPMessage messageID (Some op) None, rest).

End Ldap.

(** ** The gateway: main.go over the Backend interface of backend.go *)
Module Gateway.

(** user.go *)
Record User : Type := mkUser {
  Dn : string;
  Cn : string;
  Name : string;
  Password : string;
  Email : string
}.

(** A non-nil Go [error], kept as its message. *)
Definition error : Type := string.

(** backend.go: [type Backend interface]. [inl] is a non-nil [err]. *)
Class Backend (B : Type) : Type := {
  Get : B → string → error + User;
  Search : B → string → gmap string string → error + list User
}.

(** goldap/message: the filter CHOICE as the handler's type switch sees it. *)
Inductive Substring : Type :=
| SubstringInitial (v : string)
| SubstringAny (v : string)
| SubstringFinal (v : string).

#[warnings="-register-all"]
Inductive Filter : Type :=
| FilterAnd (fs : list Filter)
| FilterOr (fs : list Filter)
| FilterNot (f : Filter)
| FilterEqualityMatch (attributeDesc assertionValue : string)
| FilterSubstrings (type_ : string) (substrings : list Substring)
| FilterGreaterOrEqual (attributeDesc assertionValue : string)
| FilterLessOrEqual (attributeDesc assertionValue : string)
| FilterPresent (attributeDesc : string)
| FilterApproxMatch (attributeDesc assertionValue : string)
| FilterExtensibleMatch (matchingRule type_ : option string)
    (matchValue : string) (dnAttributes : bool).

(** What the handlers read from [m.GetBindRequest()] and
    [m.GetSearchRequest()]. *)
Record BindRequest : Type := mkBindRequest {
  req_Name : string;
  AuthenticationSimple : string
}.

Record SearchRequest : Type := mkSearchRequest {
  BaseObject : string;
  req_Filter : Filter;
  Attributes : list string
}.

(** ldapserver: result codes and the responses a handler writes. *)
Definition LDAPResultSuccess : Z := 0.
Definition LDAPResultOperationsError : Z := 1.
Definition LDAPResultNoSuchObject : Z := 32.
Definition LDAPResultInvalidCredentials : Z := 49.

Record LDAPResult : Type := mkLDAPResult {
  resultCode : Z;
  diagnosticMessage : string
}.

Definition SetResultCode (code : Z) (r : LDAPResult) : LDAPResult :=
  mkLDAPResult code (diagnosticMessage r).

Definition SetDiagnosticMessage (msg : string) (r : LDAPResult) : LDAPResult :=
  mkLDAPResult (resultCode r) msg.

Record SearchResultEntry : Type := mkSearchResultEntry {
  objectName : string;
  attributes : list (string * list string)
}.

Definition NewSearchResultEntry (dn : string) : SearchResultEntry :=
  mkSearchResultEntry dn [].

Definition AddAttribute (name : string) (values : list string)
    (e : SearchResultEntry) : SearchResultEntry :=
  mkSearchResultEntry (objectName e) (attributes e ++ [(name, values)]).

Inductive Response : Type :=
| BindResponse (r : LDAPResult)
| SearchResultDone (r : LDAPResult)
| SearchResultEntryResponse (e : SearchResultEntry).

Definition NewBindResponse (code : Z) : LDAPResult := mkLDAPResult code "".
Definition NewSearchResultDoneResponse (code : Z) : LDAPResult :=
  mkLDAPResult code "".

(** The [ResponseWriter]: the responses written so far, oldest first. *)
Definition ResponseWriter : Type := list Response.

Definition Write (r : Response) (w : ResponseWriter) : ResponseWriter :=
  w ++ [r].

Section Handlers.
Context {B : Type} `{Backend B}.

(** [hex.EncodeToString(sha256.Sum256([]byte(pw)))] *)
Variable sha256_hex : string → string.

Definition handleBind (be : B) (w : ResponseWriter) (req : BindRequest)
  : ResponseWriter :=
  let res := NewBindResponse LDAPResultSuccess in
  let dn := req_Name req in
  let pw := AuthenticationSimple req in
  if decide (dn = "" ∧ pw = "") then Write (BindResponse res) w
  else
    match Get be dn with
    | inl err =>
        let res := SetResultCode LDAPResultNoSuchObject res in
        let res := SetDiagnosticMessage "No such object" res in
        Write (BindResponse res) w
    | inr user =>
        if decide (Password user ≠ sha256_hex pw) then
          let msg := "Invalid credentials" in
          let res := SetResultCode LDAPResultInvalidCredentials res in
          let res := SetDiagnosticMessage msg res in
          Write (BindResponse res) w
        else Write (BindResponse res) w
    end.

(** The inner loop of [handleSearch] over the requested attributes. *)
Definition projectAttributes (user : User) (attrs : list string)
    (entry : SearchResultEntry) : SearchResultEntry :=
  fold_left
    (fun entry attr =>
       if decide (attr = "cn") then AddAttribute "cn" [Cn user] entry
       else if decide (attr = "name") then AddAttribute "name" [Name user] entry
       else if decide (attr = "email") then AddAttribute "email" [Email user] entry
       else entry)
    attrs entry.

Definition handleSearch (be : B) (w : ResponseWriter) (req : SearchRequest)
  : ResponseWriter :=
  let res := NewSearchResultDoneResponse LDAPResultSuccess in
  let filter : gmap string string := ∅ in
  let '(filter, invalidFilter) :=
    match req_Filter req with
    | FilterEqualityMatch attributeDesc assertionValue =>
        if decide (attributeDesc = "cn") then
          (<["cn" := assertionValue]> filter, false)
        else (filter, true)
    | _ => (filter, true)
    end in
  if invalidFilter then
    Write (SearchResultDone (SetResultCode LDAPResultOperationsError res)) w
  else
    match Search be (BaseObject req) filter with
    | inl err =>
        Write (SearchResultDone (SetResultCode LDAPResultOperationsError res)) w
    | inr users =>
        let w :=
          fold_left
            (fun w user =>
               let entry := NewSearchResultEntry (Dn user) in
               let entry := projectAttributes user (Attributes req) entry in
               Write (SearchResultEntryResponse entry) w)
            users w in
        Write (SearchResultDone res) w
    end.

End Handlers.

End Gateway.

(** ** Encoded messages used as concrete inputs *)
Module Samples.

(** BindRequest, version 2, empty name, simple authentication. *)
Definition bind_version2 : bytes :=
  [0x60; 0x07; 0x02; 0x01; 0x02; 0x04; 0x00; 0x80; 0x00].

(** BindRequest, version 3, whose authentication element has tag [1]. *)
Definition bind_auth_tag1 : bytes :=
  [0x60; 0x07; 0x02; 0x01; 0x03; 0x04; 0x00; 0x81; 0x00].

(** LDAPMessage 1 carrying an anonymous simple BindRequest, version 3. *)
Definition bind_message : bytes :=
  [0x30; 0x0c; 0x02; 0x01; 0x01;
   0x60; 0x07; 0x02; 0x01; 0x03; 0x04; 0x00; 0x80; 0x00].

(** The same message followed by a controls element [[0] {}]. *)
Definition bind_message_controls : bytes :=
  [0x30; 0x0e; 0x02; 0x01; 0x01;
   0x60; 0x07; 0x02; 0x01; 0x03; 0x04; 0x00; 0x80; 0x00;
   0xa0; 0x00].

(** SearchRequest with an empty base, the given scope octet, derefAliases
    0, no limits, typesOnly false, a presence filter on objectclass and no
    attributes. *)
Definition search_with_scope (scope : Z) : bytes :=
  [0x63; 0x20; 0x04; 0x00; 0x0a; 0x01; scope; 0x0a; 0x01; 0x00;
   0x02; 0x01; 0x00; 0x02; 0x01; 0x00; 0x01; 0x01; 0x00;
   0x87; 0x0b; 0x6f; 0x62; 0x6a; 0x65; 0x63; 0x74; 0x63; 0x6c; 0x61; 0x73; 0x73;
   0x30; 0x00].

(** A well-framed SearchRequest whose scope element has no content. *)
Definition search_empty_scope : bytes :=
  [0x63; 0x04; 0x04; 0x00; 0x0a; 0x00].

(** Backends for concrete runs of the handlers: a backend given by its two
    methods. *)
Record StubBackend : Type := mkStubBackend {
  stub_Get : string → Gateway.error + Gateway.User;
  stub_Search : string → gmap string string → Gateway.error + list Gateway.User
}.

#[global] Instance StubBackend_Backend : Gateway.Backend StubBackend := {
  Get be dn := stub_Get be dn;
  Search be baseDn filter := stub_Search be baseDn filter
}.

(** Stands in for the SHA-256 hex digest where a concrete run needs one. *)
Definition toy_digest (pw : string) : string := String.append "digest:" pw.

Definition mark : Gateway.User :=
  Gateway.mkUser "cn=mark,ou=People,dc=example,dc=com" "mark" "Mark"
    (toy_digest "secret") "mark@example.com".

(** A directory with the single entry [mark]. *)
Definition directory : StubBackend :=
  mkStubBackend
    (fun dn =>
       if decide (dn = Gateway.Dn mark) then inr mark
       else inl "100: Key not found")
    (fun baseDn filter =>
       match filter !! "cn" with
       | Some cn => if decide (cn = Gateway.Cn mark) then inr [mark] else inr []
       | None => inr [mark]
       end).

(** A backend whose store cannot be reached. *)
Definition unreachable_store : StubBackend :=
  mkStubBackend
    (fun dn => inl "client: etcd cluster is unavailable or misconfigured")
    (fun baseDn filter =>
       inl "client: etcd cluster is unavailable or misconfigured").

End Samples.

(** ** ldap/request.go and ldap/server.go *)
Module LdapServer.
Import Ldap.

(** The call returns a value or fails with a ProtocolError; it does not
    panic. *)
Definition protocol_error_only {A : Type} (r : result A) : Prop :=
  match r with
  | Ok _ => True
  | Err e => ResultCode e = ResultCodeProtocolError
  | Panic _ => False
  end.

(** [parseBindRequest] of request.go reads the content octets of a
    BindRequest; it stores [auth.Bytes] for simple authentication, and has
    no version test. *)
Definition parseBindRequest (buf : bytes) : result BindRequest :=
  '(version, rest) ←
    orFail (Asn1.Unmarshal_int buf) ResultCodeProtocolError "Invalid Version";
  '(name, rest) ←
    orFail (Asn1.Unmarshal_bytes rest) ResultCodeProtocolError "Invalid Name";
  '(auth, rest) ←
    orFail (Asn1.Unmarshal_RawValue rest)
      ResultCodeProtocolError "Invalid Authentication";
  match Asn1.Tag auth with
  | 0 => Ok (mkBindRequest version name (Some (Simple (Asn1.Bytes auth))))
  | 3 =>
      '(mechanism, rest) ←
        orFail (Asn1.Unmarshal_bytes (Asn1.Bytes auth))
          ResultCodeProtocolError "Invalid Mechanism";
      '(credentials, rest) ←
        orFail (Asn1.Unmarshal_bytes rest)
          ResultCodeProtocolError "Invalid Credentials";
      Ok (mkBindRequest version name
            (Some (Sasl (mkSaslCredentials mechanism credentials))))
  | _ => Ok (mkBindRequest version name None)
  end.

(** [TLS] is a pointer that [readRequest] leaves nil. *)
Record Request : Type := mkRequest {
  Message : LDAPMessage;
  RemoteAddr : string;
  TLS : option unit
}.

(** [readRequest] of request.go, from [data], the bytes [buf[:n]] that the
    one call of [b.Read] has delivered (at most 2048); a failed read is
    left out. The operation is chosen by the class of the element, and the
    controls are looked at after it has been parsed. *)
Definition readRequest (data : bytes) : result Request :=
  '(envelope, rest) ←
    orFail (Asn1.Unmarshal_RawValue data)
      ResultCodeProtocolError "Invalid LDAPMessage";
  '(messageID, rest) ←
    orFail (Asn1.Unmarshal_int (Asn1.Bytes envelope))
      ResultCodeProtocolError "Invalid MessageID";
  '(protocolOp, rest) ←
    orFail (Asn1.Unmarshal_RawValue rest)
      ResultCodeProtocolError "Invalid ProtocolOp";
  bindReq ←
    match Asn1.Class protocolOp with
    | 1 => parseBindRequest (Asn1.Bytes protocolOp)
    | _ => Err (NewLDAPError ResultCodeOperationsError "Unsupported ProtocolOp")
    end;
  _ ← match rest with
      | [] => Ok []
      | _ =>
          '(controls, rest) ←
            orFail (Asn1.Unmarshal_RawValue rest)
              ResultCodeProtocolError "Invalid Controls";
          Ok rest
      end;
  Ok (mkRequest (mkLDAPMessage messageID (Some (OpBindRequest bindReq)) None)
        "" None).

(** server.go: the [ResponseWriter] of a connection, as the chunks handed
    to [Write], oldest first. *)
Definition ResponseWriter : Type := list bytes.

(** [defaultHandler.ServeLDAP]: the type assertion on the operation
    panics for anything but a BindRequest; a failure of [msg.Bytes] is
    printed and the nil buffer written all the same. *)
Definition ServeLDAP (rw : ResponseWriter) (req : Request) : result ResponseWriter :=
  match msg_ProtocolOp (Message req) with
  | Some (OpBindRequest bindReq) =>
      let lr := mkLDAPResult ResultCodeSuccess (Name bindReq) [] None in
      let br := mkBindResponse lr [] in
      let msg :=
        mkLDAPMessage (MessageID (Message req)) (Some (OpBindResponse (Some br)))
          None in
      match LDAPMessage_Bytes msg with
      | Ok buf => Ok (rw ++ [buf])
      | Err _ => Ok (rw ++ [[]])
      | Panic m => Panic m
      end
  | _ => Panic "interface conversion: interface is not *ldap.BindRequest"
  end.

End LdapServer.

(** ** backend.go: distinguished names and etcd paths *)
Module EtcdBackend.

(** What a method does: it returns a value, returns a non-nil [error]
    (kept as its message), or panics. *)
Inductive outcome (A : Type) : Type :=
| Value (a : A)
| Error (err : string)
| Panic (msg : string).
Arguments Value {A} a.
Arguments Error {A} err.
Arguments Panic {A} msg.

#[global] Instance outcome_ret : MRet outcome := fun A a => Value a.
#[global] Instance outcome_bind : MBind outcome := fun A B f m =>
  match m with
  | Value a => f a
  | Error err => Error err
  | Panic msg => Panic msg
  end.

(** [strings.Split(s, sep)] for a separator of one byte, which is what
    every call in backend.go passes. *)
Fixpoint Split (s : string) (sep : ascii) : list string :=
  match s with
  | EmptyString => [EmptyString]
  | String c s' =>
      if Ascii.eqb c sep then EmptyString :: Split s' sep
      else
        match Split s' sep with
        | x :: xs => String c x :: xs
        | [] => [String c EmptyString]
        end
  end.

(** [strings.HasPrefix(s, prefix)] *)
Definition HasPrefix (s prefix : string) : bool := String.prefix prefix s.

(** [strings.Join(elems, sep)] *)
Definition Join (elems : list string) (sep : string) : string :=
  String.concat sep elems.

(** [strings.Contains(s, substr)] for a substring of one byte. *)
Fixpoint Contains (s : string) (c : ascii) : bool :=
  match s with
  | EmptyString => false
  | String c' s' => Ascii.eqb c' c || Contains s' c
  end.

(** [l[i]] on a slice of strings. *)
Definition index (l : list string) (i : nat) : outcome string :=
  match l !! i with
  | Some x => Value x
  | None => Panic "runtime error: index out of range"
  end.

(** The variables of the loop of [dnToPathAndID]. *)
Record dnState : Type := mkDnState {
  st_path : list string;
  st_domain : list string;
  st_invalid : bool
}.

(** One iteration of the loop over the parts of a DN; the [break] of the
    default case leaves the [switch], not the loop. *)
Definition dnPart (st : dnState) (part : string) : outcome dnState :=
  if HasPrefix part "dc=" then
    v ← index (Split part "=") 1;
    Value (mkDnState (st_path st) (st_domain st ++ [v]) (st_invalid st))
  else if HasPrefix part "ou=" || HasPrefix part "cn=" then
    v ← index (Split part "=") 1;
    Value (mkDnState (v :: st_path st) (st_domain st) (st_invalid st))
  else Value (mkDnState (st_path st) (st_domain st) true).

Fixpoint dnParts (st : dnState) (parts : list string) : outcome dnState :=
  match parts with
  | [] => Value st
  | part :: parts => st ← dnPart st part; dnParts st parts
  end.

(** [be.dnToPathAndID(dn)], with [prefix] the field [be.prefix]. *)
Definition dnToPathAndID (prefix dn : string) : outcome (string * string) :=
  let parts := Split dn "," in
  st ←
    (if (1 <? length parts)%nat then
       st ← dnParts (mkDnState [] [] false) parts;
       Value (mkDnState (Join (st_domain st) "." :: st_path st) (st_domain st)
                (st_invalid st))
     else
       part ← index parts 0;
       if HasPrefix part "cn=" then
         v ← index (Split part "=") 1;
         Value (mkDnState [v] [] false)
       else Value (mkDnState [] [] true));
  if st_invalid st then Error "Invalid DN"
  else
    id ← index (st_path st) (length (st_path st) - 1);
    Value ("/" +:+ prefix +:+ "/" +:+ Join (st_path st) "/", id).

(** The variables of the loop of [pathToDNAndID]. *)
Record pathState : Type := mkPathState {
  st_dn : list string;
  st_id : string
}.

(** One iteration of the loop over the segments of a path, [i] being the
    index of [p] and [last] the index of the last segment. *)
Definition pathSegment (last : Z) (st : pathState) (i : Z) (p : string)
  : pathState :=
  if i =? 0 then
    if Contains p "." then
      mkPathState (st_dn st ++ map (fun domain => "dc=" +:+ domain) (Split p "."))
        (st_id st)
    else mkPathState (("o=" +:+ p) :: st_dn st) (st_id st)
  else if i =? last then mkPathState (("cn=" +:+ p) :: st_dn st) p
  else mkPathState (("ou=" +:+ p) :: st_dn st) (st_id st).

Fixpoint pathSegments (last : Z) (st : pathState) (i : Z) (ps : list string)
  : pathState :=
  match ps with
  | [] => st
  | p :: ps => pathSegments last (pathSegment last st i p) (i + 1) ps
  end.

(** [be.pathToDNAndID(path)]: [path[1:]] panics on the empty string. *)
Definition pathToDNAndID (path : string) : outcome (string * string) :=
  match path with
  | EmptyString => Panic "runtime error: slice bounds out of range"
  | String _ path =>
      let splitedPath := drop 1 (Split path "/") in
      let last := Z.of_nat (length splitedPath) - 1 in
      let st := pathSegments last (mkPathState [] "") 0 splitedPath in
      Value (Join (st_dn st) ",", st_id st)
  end.

End EtcdBackend.

(** * Properties *)

(** ** The BER framing of encoding/asn1 *)
Module Asn1Facts.
Import Asn1.

Example marshal_int_3 : Asn1.Marshal_int 3 = [2; 1; 3].
Proof. reflexivity. Qed.

Example marshal_int_neg : Asn1.Marshal_int (-129) = [2; 2; 0xff; 0x7f].
Proof. reflexivity. Qed.

Example marshal_int_256 : Asn1.Marshal_int 256 = [2; 2; 1; 0].
Proof. reflexivity. Qed.

Example unmarshal_int_neg : Asn1.Unmarshal_int [2; 2; 0xff; 0x7f; 9] = inr (-129, [9]).
Proof. reflexivity. Qed.

Example unmarshal_raw_long :
Asn1.Unmarshal_RawValue (Asn1.Marshal_bytes (repeat 7 200) ++ [1; 2])
= inr (Asn1.mkRawValue 0 4 false (repeat 7 200)
         ([4; 0x81; 200] ++ repeat 7 200), [1; 2]).
Proof. vm_compute. reflexivity. Qed.


Lemma is_error_inl {A : Type} (e : error) : is_error (A := A) (inl e).
Proof. by exists e. Qed.

#[local] Hint Resolve is_error_inl : core.

(** Reading a header from a prefix of the input either runs out of bytes
    or reads the same header. *)
Lemma parseBase128Int_app (p s : bytes) :
  ∀ shifted ret64 v r,
    parseBase128Int shifted ret64 (p ++ s) = inr (v, r) →
    is_error (parseBase128Int shifted ret64 p)
    ∨ ∃ r', parseBase128Int shifted ret64 p = inr (v, r') ∧ r = r' ++ s.
Proof.
  induction p as [|b p IH]; intros shifted ret64 v r; simpl.
  - left; auto.
  - destruct (Nat.eqb shifted 5); [discriminate|].
    destruct (Nat.eqb shifted 0 && (b =? 128)); [discriminate|].
    destruct (Z.land b 128 =? 0).
    + destruct (_ >? MaxInt32); [discriminate|].
      intros [= <- <-]. right. by eexists.
    + apply IH.
Qed.

Lemma parseLongLength_app (p s : bytes) :
  ∀ numBytes len v r,
    parseLongLength numBytes len (p ++ s) = inr (v, r) →
    is_error (parseLongLength numBytes len p)
    ∨ ∃ r', parseLongLength numBytes len p = inr (v, r') ∧ r = r' ++ s.
Proof.
  induction p as [|b p IH]; intros [|n] len v r; simpl.
  - intros [= <- <-]. right. by exists [].
  - left; auto.
  - intros [= <- <-]. right. by eexists.
  - destruct (len >=? 2 ^ 23); [discriminate|].
    destruct (_ =? 0); [discriminate|]. apply IH.
Qed.

Lemma parseTagAndLength_app (p s : bytes) (t : tagAndLength) (r : bytes) :
  parseTagAndLength (p ++ s) = inr (t, r) →
  is_error (parseTagAndLength p)
  ∨ ∃ r', parseTagAndLength p = inr (t, r') ∧ r = r' ++ s.
Proof.
  destruct p as [|b p]; [left; simpl; auto|].
  cbn [app parseTagAndLength].
  set (class := Z.shiftr b 6). set (isCompound := Z.land b 32 =? 32).
  destruct (Z.land b 31 =? 31).
  - destruct (parseBase128Int 0 0 (p ++ s)) as [e|[tag r1]] eqn:Hp; [discriminate|].
    apply parseBase128Int_app in Hp as [[e ->]|(r1' & -> & ->)]; [left; simpl; auto|].
    cbn [mbind res_bind].
    destruct (tag <? 31); [discriminate|]. cbn [mbind res_bind].
    destruct r1' as [|l r1']; [left; auto|]. cbn [app].
    destruct (Z.land l 128 =? 0).
    { intros [= <- <-]. right. by eexists. }
    destruct (Z.land l 127 =? 0); [discriminate|].
    destruct (parseLongLength _ 0 (r1' ++ s)) as [e|[len r2]] eqn:Hl; [discriminate|].
    apply parseLongLength_app in Hl as [[e ->]|(r2' & -> & ->)]; [left; simpl; auto|].
    cbn [mbind res_bind]. destruct (len <? 128); [discriminate|].
    intros [= <- <-]. right. by eexists.
  - cbn [mbind res_bind].
    destruct p as [|l p]; [left; auto|]. cbn [app].
    destruct (Z.land l 128 =? 0).
    { intros [= <- <-]. right. by eexists. }
    destruct (Z.land l 127 =? 0); [discriminate|].
    destruct (parseLongLength _ 0 (p ++ s)) as [e|[len r2]] eqn:Hl; [discriminate|].
    apply parseLongLength_app in Hl as [[e ->]|(r2' & -> & ->)]; [left; simpl; auto|].
    cbn [mbind res_bind]. destruct (len <? 128); [discriminate|].
    intros [= <- <-]. right. by eexists.
Qed.

(** A header takes at least two bytes. *)
Lemma parseBase128Int_length (bs : bytes) :
  ∀ shifted ret64 v r,
    parseBase128Int shifted ret64 bs = inr (v, r) → (length r < length bs)%nat.
Proof.
  induction bs as [|b bs IH]; intros shifted ret64 v r; simpl; [discriminate|].
  destruct (Nat.eqb shifted 5); [discriminate|].
  destruct (Nat.eqb shifted 0 && (b =? 128)); [discriminate|].
  destruct (Z.land b 128 =? 0).
  - destruct (_ >? MaxInt32); [discriminate|]. intros [= <- <-]. lia.
  - intros Hp. apply IH in Hp. lia.
Qed.

Lemma parseLongLength_length (numBytes : nat) :
  ∀ len bs v r,
    parseLongLength numBytes len bs = inr (v, r) → (length r ≤ length bs)%nat.
Proof.
  induction numBytes as [|n IH]; intros len bs v r; simpl.
  - intros [= <- <-]. lia.
  - destruct bs as [|b bs]; [discriminate|].
    destruct (len >=? 2 ^ 23); [discriminate|].
    destruct (_ =? 0); [discriminate|].
    intros Hp. apply IH in Hp. simpl. lia.
Qed.

Lemma parseTagAndLength_length (bs : bytes) (t : tagAndLength) (r : bytes) :
  parseTagAndLength bs = inr (t, r) → (length r + 2 ≤ length bs)%nat.
Proof.
  destruct bs as [|b bs]; [discriminate|].
  cbn [parseTagAndLength].
  destruct (Z.land b 31 =? 31).
  - destruct (parseBase128Int 0 0 bs) as [e|[tag r1]] eqn:Hp; [discriminate|].
    cbn [mbind res_bind]. destruct (tag <? 31); [discriminate|].
    cbn [mbind res_bind]. apply parseBase128Int_length in Hp.
    destruct r1 as [|l r1]; [discriminate|].
    destruct (Z.land l 128 =? 0); [intros [= <- <-]; simpl in *; lia|].
    destruct (Z.land l 127 =? 0); [discriminate|].
    destruct (parseLongLength _ 0 r1) as [e|[len r2]] eqn:Hl; [discriminate|].
    cbn [mbind res_bind]. destruct (len <? 128); [discriminate|].
    intros [= <- <-]. apply parseLongLength_length in Hl. simpl in *. lia.
  - cbn [mbind res_bind].
    destruct bs as [|l r1]; [discriminate|].
    destruct (Z.land l 128 =? 0); [intros [= <- <-]; simpl in *; lia|].
    destruct (Z.land l 127 =? 0); [discriminate|].
    destruct (parseLongLength _ 0 r1) as [e|[len r2]] eqn:Hl; [discriminate|].
    cbn [mbind res_bind]. destruct (len <? 128); [discriminate|].
    intros [= <- <-]. apply parseLongLength_length in Hl. simpl in *. lia.
Qed.

Lemma parseHeader_length (bs : bytes) (t : tagAndLength) (r : bytes) :
  parseHeader bs = inr (t, r) → (length r + 2 ≤ length bs)%nat.
Proof.
  destruct bs as [|b bs]; [discriminate|]. apply parseTagAndLength_length.
Qed.

Lemma parseContent_length (t : tagAndLength) (rest inner rest' : bytes) :
  parseContent t rest = inr (inner, rest') →
  (length inner + length rest' = length rest)%nat.
Proof.
  unfold parseContent. destruct (_ <? _); [discriminate|].
  intros [= <- <-]. rewrite length_take, length_drop. lia.
Qed.

(** [Unmarshal] splits its input into one element and the rest; the
    element has a header of at least two bytes. *)
Lemma Unmarshal_RawValue_length (b : bytes) (raw : RawValue) (rest : bytes) :
  Unmarshal_RawValue b = inr (raw, rest) →
  (length (FullBytes raw) + length rest = length b
   ∧ length (Bytes raw) + 2 ≤ length (FullBytes raw))%nat.
Proof.
  unfold Unmarshal_RawValue.
  destruct (parseHeader b) as [e|[t r]] eqn:Hh; [discriminate|].
  cbn [mbind res_bind].
  destruct (parseContent t r) as [e|[inner rest']] eqn:Hc; [discriminate|].
  cbn [mbind res_bind]. intros [= <- <-]. cbn [FullBytes Bytes].
  apply parseHeader_length in Hh. apply parseContent_length in Hc.
  rewrite length_take. lia.
Qed.

(** An element that fills its input exactly cannot be read from a
    shorter prefix: the declared length overruns what is left. *)
Lemma Unmarshal_RawValue_app (p s : bytes) (raw : RawValue) :
  s ≠ [] →
  Unmarshal_RawValue (p ++ s) = inr (raw, []) →
  is_error (Unmarshal_RawValue p).
Proof.
  intros Hs. unfold Unmarshal_RawValue, parseHeader.
  destruct p as [|b p]; [intros _; simpl; auto|]. cbn [app].
  change (b :: p ++ s) with ((b :: p) ++ s).
  destruct (parseTagAndLength ((b :: p) ++ s)) as [e|[t r]] eqn:Ht; [discriminate|].
  cbn [mbind res_bind]. unfold parseContent.
  destruct (Z.of_nat (length r) <? tl_length t) eqn:Hlt; [discriminate|].
  cbn [mbind res_bind]. intros [= _ Hdrop].
  apply parseTagAndLength_app in Ht as [[e ->]|(r' & -> & ->)]; [simpl; auto|].
  cbn [mbind res_bind].
  apply (f_equal length) in Hdrop. rewrite length_drop, length_app in *.
  simpl in Hdrop. apply Z.ltb_ge in Hlt.
  assert (0 < length s)%nat by (destruct s; [done|simpl; lia]).
  replace (Z.of_nat (length r') <? tl_length t) with true; [simpl; auto|].
  symmetry. apply Z.ltb_lt. lia.
Qed.

Lemma Unmarshal_RawValue_truncated (b : bytes) (raw : RawValue) (n : nat) :
  Unmarshal_RawValue b = inr (raw, []) →
  (n < length b)%nat →
  is_error (Unmarshal_RawValue (take n b)).
Proof.
  intros Hb Hn. rewrite <- (take_drop n b) in Hb.
  apply Unmarshal_RawValue_app in Hb; [done|].
  intros Hd. apply (f_equal length) in Hd. rewrite length_drop in Hd.
  simpl in Hd. lia.
Qed.

End Asn1Facts.

(** ** The ldap package *)
Module LdapFacts.
Import Ldap.

(** The iteration bounds of the loops are never reached. *)
Lemma ParseAttributeSelection_loop_returns (fuel : nat) :
  ∀ rest attr, (length rest ≤ fuel)%nat →
    ∃ r, ParseAttributeSelection_loop fuel rest attr = Some r ∧ returns r.
Proof.
  induction fuel as [|fuel IH]; intros [|b rest] attr Hlen;
    try (by eexists); simpl in Hlen; [lia|].
  cbn [ParseAttributeSelection_loop].
  destruct (Asn1.Unmarshal_RawValue (b :: rest)) as [e|[raw rest']] eqn:Hu;
    [by eexists|].
  apply Asn1Facts.Unmarshal_RawValue_length in Hu as [Hu1 Hu2].
  apply IH. simpl in Hu1. lia.
Qed.

Lemma ParseAttributeSelection_returns (b : bytes) :
  returns (ParseAttributeSelection b).
Proof.
  unfold ParseAttributeSelection.
  destruct (Asn1.Unmarshal_RawValue b) as [e|[raw rest]]; [done|].
  cbn [orFail mbind result_bind].
  destruct (ParseAttributeSelection_loop_returns
              (length (Asn1.Bytes raw)) (Asn1.Bytes raw) []) as (r & -> & Hr);
    [lia|done].
Qed.

Lemma parseFilters_loop_returns (pf : bytes → option (result Filter)) (fuel : nat) :
  ∀ rest acc, (length rest ≤ fuel)%nat →
    (∀ b, (length b ≤ length rest)%nat → ∃ r, pf b = Some r ∧ returns r) →
    ∃ r, parseFilters_loop pf fuel rest acc = Some r ∧ returns r.
Proof.
  induction fuel as [|fuel IH]; intros [|b rest] acc Hlen Hpf;
    try (by eexists); simpl in Hlen; [lia|].
  cbn [parseFilters_loop].
  destruct (Asn1.Unmarshal_RawValue (b :: rest)) as [e|[raw rest']] eqn:Hu;
    [by eexists|].
  apply Asn1Facts.Unmarshal_RawValue_length in Hu as [Hu1 Hu2].
  simpl in Hu1, Hpf.
  destruct (Hpf (Asn1.FullBytes raw)) as (r & -> & Hr); [lia|].
  destruct r as [f|e|msg]; [|by eexists|done].
  apply IH; [lia|]. intros b' Hb'. apply Hpf. lia.
Qed.

Lemma ParseAnd_returns (pf : bytes → option (result Filter)) (b : bytes) :
  (∀ b', (length b' + 2 ≤ length b)%nat → ∃ r, pf b' = Some r ∧ returns r) →
  ∃ r, ParseAnd pf b = Some r ∧ returns r.
Proof.
  intros Hpf. unfold ParseAnd.
  destruct (Asn1.Unmarshal_RawValue b) as [e|[rawAnd rest]] eqn:Hu; [by eexists|].
  apply Asn1Facts.Unmarshal_RawValue_length in Hu as [Hu1 Hu2].
  apply parseFilters_loop_returns; [lia|].
  intros b' Hb'. apply Hpf. lia.
Qed.

Lemma ParseOr_returns (pf : bytes → option (result Filter)) (b : bytes) :
  (∀ b', (length b' + 2 ≤ length b)%nat → ∃ r, pf b' = Some r ∧ returns r) →
  ∃ r, ParseOr pf b = Some r ∧ returns r.
Proof.
  intros Hpf. unfold ParseOr.
  destruct (Asn1.Unmarshal_RawValue b) as [e|[rawOr rest]] eqn:Hu; [by eexists|].
  apply Asn1Facts.Unmarshal_RawValue_length in Hu as [Hu1 Hu2].
  apply parseFilters_loop_returns; [lia|].
  intros b' Hb'. apply Hpf. lia.
Qed.

Lemma ParseEqualityMatch_returns (b : bytes) : returns (ParseEqualityMatch b).
Proof.
  unfold ParseEqualityMatch.
  destruct (Asn1.Unmarshal_RawValue b) as [e|[r' ?]]; [done|].
  cbn [orFail mbind result_bind].
  destruct (Asn1.Unmarshal_bytes (Asn1.Bytes r')) as [e|[d r1]]; [done|].
  cbn [orFail mbind result_bind].
  by destruct (Asn1.Unmarshal_bytes r1) as [e|[v r2]].
Qed.

Lemma ParsePresent_returns (b : bytes) : returns (ParsePresent b).
Proof.
  unfold ParsePresent.
  by destruct (Asn1.Unmarshal_RawValue b) as [e|[r' ?]].
Qed.

Lemma fmap_returns {A B : Type} (f : A → B) (r : result A) :
  returns r → returns (f <$> r).
Proof. by destruct r. Qed.

Lemma ParseFilter_depth_returns (depth : nat) :
  ∀ b, (length b < depth)%nat →
    ∃ r, ParseFilter_depth depth b = Some r ∧ returns r.
Proof.
  induction depth as [|depth IH]; intros b Hlen; [lia|].
  cbn [ParseFilter_depth].
  destruct (Asn1.Unmarshal_RawValue b) as [e|[raw rest]] eqn:Hu; [by eexists|].
  apply Asn1Facts.Unmarshal_RawValue_length in Hu as [Hu1 Hu2].
  assert (Hrec : ∀ b', (length b' + 2 ≤ length (Asn1.FullBytes raw))%nat →
            ∃ r, ParseFilter_depth depth b' = Some r ∧ returns r).
  { intros b' Hb'. apply IH. lia. }
  clear IH. revert Hrec.
  generalize (ParseFilter_depth depth). intros pf Hrec.
  repeat case_match; try (by eexists).
  - destruct (ParseAnd_returns pf _ Hrec) as (r & -> & Hr).
    eexists; split; [done|]. by apply fmap_returns.
  - eexists; split; [done|]. apply fmap_returns, ParsePresent_returns.
  - eexists; split; [done|]. apply fmap_returns, ParseEqualityMatch_returns.
  - destruct (ParseOr_returns pf _ Hrec) as (r & -> & Hr).
    eexists; split; [done|]. by apply fmap_returns.
Qed.

Lemma ParseFilter_returns (b : bytes) : returns (ParseFilter b).
Proof.
  unfold ParseFilter.
  destruct (ParseFilter_depth_returns (S (length b)) b) as (r & -> & Hr);
    [lia|done].
Qed.

Lemma ParseSaslCredentials_returns (b : bytes) : returns (ParseSaslCredentials b).
Proof.
  unfold ParseSaslCredentials.
  destruct (Asn1.Unmarshal_RawValue b) as [e|[raw r0]]; [done|].
  cbn [orFail mbind result_bind].
  destruct (negb _); [done|]. destruct (negb _); [done|].
  destruct (Asn1.Unmarshal_bytes (Asn1.Bytes raw)) as [e|[mechanism rest]]; [done|].
  cbn [orFail mbind result_bind].
  destruct rest as [|x rest]; [done|].
  by destruct (Asn1.Unmarshal_bytes (x :: rest)) as [e|[credentials r1]].
Qed.

(** Inversion of a successful sequencing step. *)
Lemma bind_Ok {A B : Type} (m : result A) (k : A → result B) (v : B) :
  m ≫= k = Ok v → ∃ a, m = Ok a ∧ k a = Ok v.
Proof. destruct m as [a|e|msg]; [by exists a|done|done]. Qed.

Lemma orFail_Ok {A : Type} (r : Asn1.res A) (rc : Z) (msg : string) (a : A) :
  orFail r rc msg = Ok a → r = inr a.
Proof. destruct r; [done|]. by intros [= ->]. Qed.

(** ** The message envelope under truncation *)

Lemma ParseLDAPMessage_framing (b : bytes) (msg : LDAPMessage) (rest : bytes) :
  ParseLDAPMessage b = Ok (msg, rest) →
  ∃ rawEnvelope, Asn1.Unmarshal_RawValue b = inr (rawEnvelope, rest).
Proof.
  unfold ParseLDAPMessage. intros Hp.
  apply bind_Ok in Hp as ([rawEnvelope rest'] & Hu & Hp).
  apply orFail_Ok in Hu. exists rawEnvelope. rewrite Hu.
  apply bind_Ok in Hp as ([messageID r] & _ & Hp).
  apply bind_Ok in Hp as ([rawProtocolOp r'] & _ & Hp).
  apply bind_Ok in Hp as (r'' & _ & Hp).
  apply bind_Ok in Hp as (op & _ & Hp).
  by injection Hp as _ ->.
Qed.

Lemma ParseLDAPMessage_strict_prefix (b : bytes) (raw : Asn1.RawValue) (n : nat) :
  Asn1.Unmarshal_RawValue b = inr (raw, []) →
  (n < length b)%nat →
  ParseLDAPMessage (take n b)
  = Err (NewLDAPError ResultCodeProtocolError "Invalid LDAPMessage").
Proof.
  intros Hb Hn.
  destruct (Asn1Facts.Unmarshal_RawValue_truncated b raw n Hb Hn) as [e He].
  unfold ParseLDAPMessage. by rewrite He.
Qed.

(** The PDU parsers behave the same way when handed a cut element. *)
Lemma ParseBindRequest_strict_prefix (b : bytes) (raw : Asn1.RawValue) (n : nat) :
  Asn1.Unmarshal_RawValue b = inr (raw, []) →
  (n < length b)%nat →
  ParseBindRequest (take n b)
  = Err (NewLDAPError ResultCodeProtocolError "Invalid sequence").
Proof.
  intros Hb Hn.
  destruct (Asn1Facts.Unmarshal_RawValue_truncated b raw n Hb Hn) as [e He].
  unfold ParseBindRequest. by rewrite He.
Qed.

Lemma ParseSearchRequest_strict_prefix (b : bytes) (raw : Asn1.RawValue) (n : nat) :
  Asn1.Unmarshal_RawValue b = inr (raw, []) →
  (n < length b)%nat →
  ParseSearchRequest (take n b)
  = Err (NewLDAPError ResultCodeProtocolError "Invalid sequence").
Proof.
  intros Hb Hn.
  destruct (Asn1Facts.Unmarshal_RawValue_truncated b raw n Hb Hn) as [e He].
  unfold ParseSearchRequest. by rewrite He.
Qed.

(** C2. Truncating an encoded LDAP message that [ParseLDAPMessage] decodes
    (leaving no bytes over) at any byte boundary [n] makes the parser
    return either that same complete message - when nothing was cut off -
    or the error ProtocolError "Invalid LDAPMessage": on a strict prefix
    the envelope's declared length overruns the input, so no PDU parser is
    reached, nothing panics and no other message is produced. *)
Theorem ParseLDAPMessage_truncation (b : bytes) (msg : LDAPMessage) (n : nat) :
  ParseLDAPMessage b = Ok (msg, []) →
  ParseLDAPMessage (take n b)
  = if decide (n < length b)%nat
    then Err (NewLDAPError ResultCodeProtocolError "Invalid LDAPMessage")
    else Ok (msg, []).
Proof.
  intros Hb. case_decide as Hn.
  - apply ParseLDAPMessage_framing in Hb as [raw Hraw].
    by eapply ParseLDAPMessage_strict_prefix.
  - rewrite take_ge; [done|lia].
Qed.

Lemma ParseLDAPMessage_truncation_witness :
  ParseLDAPMessage Samples.bind_message
  = Ok (mkLDAPMessage 1
          (Some (OpBindRequest (mkBindRequest 3 [] (Some (Simple [0x80; 0])))))
          None, [])
  ∧ ParseLDAPMessage (take 9 Samples.bind_message)
    = Err (NewLDAPError ResultCodeProtocolError "Invalid LDAPMessage").
Proof.
  split; [reflexivity|].
  exact (ParseLDAPMessage_truncation Samples.bind_message
           (mkLDAPMessage 1
              (Some (OpBindRequest (mkBindRequest 3 [] (Some (Simple [0x80; 0])))))
              None) 9 eq_refl).
Defined.

(** Outside truncation the scope access can fail: a well-framed
    SearchRequest whose scope element is empty makes the parser panic. *)
Example ParseSearchRequest_empty_scope_panics :
  ParseSearchRequest Samples.search_empty_scope
  = Panic "runtime error: index out of range".
Proof. reflexivity. Qed.

(** ** BindRequest *)

(** The authentication step of [ParseBindRequest], named for the proofs. *)
Lemma ParseBindRequest_unfold (b : bytes) (rawSequence : Asn1.RawValue)
    (r0 : bytes) (version : Z) (rest : bytes) :
  Asn1.Unmarshal_RawValue b = inr (rawSequence, r0) →
  Asn1.Class rawSequence = 1 → Asn1.Tag rawSequence = 0 →
  Asn1.Unmarshal_int (Asn1.Bytes rawSequence) = inr (version, rest) →
  ParseBindRequest b =
    '(name, rest) ← orFail (Asn1.Unmarshal_bytes rest)
                      ResultCodeProtocolError "Invalid name field";
    '(auth, rest) ← orFail (Asn1.Unmarshal_RawValue rest)
                      ResultCodeProtocolError "Invalid authentication field";
    authentication ←
      match Asn1.Tag auth with
      | 0 =>
          match ParseSimple (Asn1.FullBytes auth) with
          | Ok simple => Ok (Some (Simple simple))
          | Err _ => Err (NewLDAPError ResultCodeProtocolError "Invalid simple field")
          | Panic msg => Panic msg
          end
      | 3 =>
          match ParseSaslCredentials (Asn1.FullBytes auth) with
          | Ok sasl => Ok (Some (Sasl sasl))
          | Err _ => Err (NewLDAPError ResultCodeProtocolError "Invalid sasl field")
          | Panic msg => Panic msg
          end
      | _ => Ok None
      end;
    if negb (version =? 3) then
      Err (NewLDAPError ResultCodeProtocolError "Unsupported version")
    else Ok (mkBindRequest version name authentication).
Proof.
  intros Hseq Hclass Htag Hversion. unfold ParseBindRequest.
  rewrite Hseq. cbn [orFail mbind result_bind].
  rewrite Hclass, Htag. cbn [BindRequest_Class BindRequest_Tag Z.eqb negb].
  rewrite Hversion. reflexivity.
Qed.

(** Every error of [ParseBindRequest] carries ProtocolError, and it does
    not panic. *)
Lemma ParseBindRequest_error_code (b : bytes) :
  match ParseBindRequest b with
  | Ok _ => True
  | Err e => ResultCode e = ResultCodeProtocolError
  | Panic _ => False
  end.
Proof.
  unfold ParseBindRequest.
  destruct (Asn1.Unmarshal_RawValue b) as [e|[raw r0]]; [done|].
  cbn [orFail mbind result_bind].
  destruct (negb _); [done|]. destruct (negb _); [done|].
  destruct (Asn1.Unmarshal_int _) as [e|[version rest]]; [done|].
  cbn [orFail mbind result_bind].
  destruct (Asn1.Unmarshal_bytes _) as [e|[name rest1]]; [done|].
  cbn [orFail mbind result_bind].
  destruct (Asn1.Unmarshal_RawValue rest1) as [e|[auth rest2]]; [done|].
  cbn [orFail mbind result_bind].
  pose proof (ParseSaslCredentials_returns (Asn1.FullBytes auth)) as Hsasl.
  unfold ParseSimple.
  repeat case_match; simplify_eq/=; done.
Qed.

(** C5. When the version field of a BindRequest decodes to an integer
    other than 3, [ParseBindRequest] fails with a ProtocolError (result
    code 2, not authMethodNotSupported); when it decodes to 3 the parser
    does not fail with "Unsupported version". *)
Theorem ParseBindRequest_version (b : bytes) (rawSequence : Asn1.RawValue)
    (r0 : bytes) (version : Z) (rest : bytes) :
  Asn1.Unmarshal_RawValue b = inr (rawSequence, r0) →
  Asn1.Unmarshal_int (Asn1.Bytes rawSequence) = inr (version, rest) →
  (version ≠ 3 →
     ∃ msg, ParseBindRequest b = Err (NewLDAPError ResultCodeProtocolError msg)
            ∧ ResultCodeProtocolError ≠ ResultCodeAuthMethodNotSupported)
  ∧ (version = 3 →
       ∀ rc, ParseBindRequest b ≠ Err (NewLDAPError rc "Unsupported version")).
Proof.
  intros Hseq Hversion. split.
  - intros Hne.
    pose proof (ParseBindRequest_error_code b) as Hcode.
    destruct (ParseBindRequest b) as [req|[rc msg]|msg] eqn:Hp;
      [|simpl in Hcode; subst rc; by exists msg|done].
    exfalso. revert Hp. unfold ParseBindRequest.
    rewrite Hseq. cbn [orFail mbind result_bind].
    destruct (negb _); [done|]. destruct (negb _); [done|].
    rewrite Hversion. cbn [orFail mbind result_bind].
    destruct (orFail (Asn1.Unmarshal_bytes rest) _ _) as [[name r1]| |]; [|done..].
    cbn [mbind result_bind].
    destruct (orFail (Asn1.Unmarshal_RawValue r1) _ _) as [[auth r2]| |]; [|done..].
    cbn [mbind result_bind].
    match goal with |- context [?m ≫= _] => destruct m; [|done..] end.
    cbn [mbind result_bind].
    by replace (version =? 3) with false by (symmetry; by apply Z.eqb_neq).
  - intros -> rc. unfold ParseBindRequest, NewLDAPError.
    rewrite Hseq. cbn [orFail mbind result_bind].
    destruct (negb _); [done|]. destruct (negb _); [done|].
    rewrite Hversion. cbn [orFail mbind result_bind].
    destruct (Asn1.Unmarshal_bytes rest) as [e|[name r1]]; [done|].
    cbn [orFail mbind result_bind].
    destruct (Asn1.Unmarshal_RawValue r1) as [e|[auth r2]]; [done|].
    cbn [orFail mbind result_bind].
    unfold ParseSimple. repeat case_match; simplify_eq/=; done.
Qed.

Lemma ParseBindRequest_version_witness :
  ∃ msg, ParseBindRequest Samples.bind_version2
         = Err (NewLDAPError ResultCodeProtocolError msg)
         ∧ ResultCodeProtocolError ≠ ResultCodeAuthMethodNotSupported.
Proof.
  refine (proj1 (ParseBindRequest_version Samples.bind_version2
                   (Asn1.mkRawValue 1 0 true [2; 1; 2; 4; 0; 0x80; 0]
                      Samples.bind_version2)
                   [] 2 [4; 0; 0x80; 0] eq_refl eq_refl) _).
  discriminate.
Defined.

(** C9. A version-3 BindRequest whose authentication element carries a
    tag that is neither 0 (simple) nor 3 (sasl) is accepted without any
    error, and the returned request has a nil [Authentication]: the switch
    on [auth.Tag] has no default case. *)
Theorem ParseBindRequest_unknown_authentication (b : bytes)
    (rawSequence : Asn1.RawValue) (r0 rest : bytes)
    (name rest1 : bytes) (auth : Asn1.RawValue) (rest2 : bytes) :
  Asn1.Unmarshal_RawValue b = inr (rawSequence, r0) →
  Asn1.Class rawSequence = 1 → Asn1.Tag rawSequence = 0 →
  Asn1.Unmarshal_int (Asn1.Bytes rawSequence) = inr (3, rest) →
  Asn1.Unmarshal_bytes rest = inr (name, rest1) →
  Asn1.Unmarshal_RawValue rest1 = inr (auth, rest2) →
  Asn1.Tag auth ≠ 0 → Asn1.Tag auth ≠ 3 →
  ParseBindRequest b = Ok (mkBindRequest 3 name None).
Proof.
  intros Hseq Hclass Htag Hversion Hname Hauth Hne0 Hne3.
  rewrite (ParseBindRequest_unfold b _ _ _ _ Hseq Hclass Htag Hversion).
  rewrite Hname. cbn [orFail mbind result_bind].
  rewrite Hauth. cbn [orFail mbind result_bind].
  destruct (Asn1.Tag auth) as [|tag|tag]; [done| |done].
  destruct tag as [[tag|tag|]|tag|]; done.
Qed.

Lemma ParseBindRequest_unknown_authentication_witness :
  ParseBindRequest Samples.bind_auth_tag1 = Ok (mkBindRequest 3 [] None).
Proof.
  apply (ParseBindRequest_unknown_authentication Samples.bind_auth_tag1
           (Asn1.mkRawValue 1 0 true [2; 1; 3; 4; 0; 0x81; 0]
              Samples.bind_auth_tag1)
           [] [4; 0; 0x81; 0] [] [0x81; 0]
           (Asn1.mkRawValue 2 1 false [] [0x81; 0]) []);
    (reflexivity || discriminate).
Defined.

(** C1 does not hold of the code: the encoding of a version-3 BindRequest
    with simple authentication parses back with the whole authentication
    element (identifier and length octets included) as the password, since
    [ParseSimple] is handed [auth.FullBytes]; and one with SASL credentials
    parses back with a nil [Authentication], since [SaslCredentials.Bytes]
    emits a universal SEQUENCE (tag 16) and not the context tag 3. *)
Theorem BindRequest_roundtrip_fails :
  let simple := mkBindRequest 3 [] (Some (Simple [])) in
  let sasl := mkBindRequest 3 [0x64] (Some (Sasl (mkSaslCredentials [0x41] [0x42]))) in
  (BindRequest_Bytes simple ≫= ParseBindRequest
   = Ok (mkBindRequest 3 [] (Some (Simple [0x80; 0x00])))
   ∧ BindRequest_Bytes simple ≫= ParseBindRequest ≠ Ok simple)
  ∧ (BindRequest_Bytes sasl ≫= ParseBindRequest
     = Ok (mkBindRequest 3 [0x64] None)
     ∧ BindRequest_Bytes sasl ≫= ParseBindRequest ≠ Ok sasl).
Proof. repeat split; (reflexivity || discriminate). Qed.

(** ** SearchRequest *)

(** C6 does not hold of the code: a SearchRequest whose scope octet is 7,
    outside the set 0, 1, 2, is decoded successfully with [Scope = 7]. *)
Lemma ParseSearchRequest_scope7_accepted :
  ¬ (7 = 0 ∨ 7 = 1 ∨ 7 = 2)
  ∧ ParseSearchRequest (Samples.search_with_scope 7)
    = Ok (mkSearchRequest [] 7 0 0 0 false
            (Present [0x6f; 0x62; 0x6a; 0x65; 0x63; 0x74; 0x63; 0x6c; 0x61; 0x73; 0x73])
            []).
Proof. split; [lia|reflexivity]. Qed.

(** C6, as the code has it. [ParseSearchRequest] does not validate the
    scope: whatever the first content octet [s] of the scope element is,
    it becomes [Scope] as it is (neither rejected nor clamped), and
    whether the request is accepted depends on the other fields only:
    when they decode, the request is returned. *)
Theorem ParseSearchRequest_scope_unchecked (b : bytes)
    (rawSequence : Asn1.RawValue) (r0 : bytes)
    (baseObject r1 : bytes) (scope : Asn1.RawValue) (s : Z) (tl r2 : bytes)
    (derefAliases : Asn1.RawValue) (d : Z) (tl' r3 : bytes)
    (sizeLimit : Z) (r4 : bytes) (timeLimit : Z) (r5 : bytes)
    (typesOnly : bool) (r6 : bytes) (filter : Asn1.RawValue) (r7 : bytes)
    (attributes : Asn1.RawValue) (r8 : bytes) (attrs : AttributeSelection) :
  Asn1.Unmarshal_RawValue b = inr (rawSequence, r0) →
  Asn1.Class rawSequence = 1 → Asn1.Tag rawSequence = 3 →
  Asn1.Unmarshal_bytes (Asn1.Bytes rawSequence) = inr (baseObject, r1) →
  Asn1.Unmarshal_RawValue r1 = inr (scope, r2) →
  Asn1.Bytes scope = s :: tl →
  Asn1.Unmarshal_RawValue r2 = inr (derefAliases, r3) →
  Asn1.Bytes derefAliases = d :: tl' →
  Asn1.Unmarshal_int r3 = inr (sizeLimit, r4) →
  Asn1.Unmarshal_int r4 = inr (timeLimit, r5) →
  Asn1.Unmarshal_bool r5 = inr (typesOnly, r6) →
  Asn1.Unmarshal_RawValue r6 = inr (filter, r7) →
  Asn1.Unmarshal_RawValue r7 = inr (attributes, r8) →
  ParseAttributeSelection (Asn1.FullBytes attributes) = Ok attrs →
  ParseSearchRequest b
  = Ok (mkSearchRequest baseObject s d sizeLimit timeLimit typesOnly
          (match ParseFilter (Asn1.FullBytes filter) with
           | Ok f => f
           | _ => Filter_nil
           end)
          attrs).
Proof.
  intros Hseq Hclass Htag Hbase Hscope Hs Hderef Hd Hsize Htime Htypes
    Hfilter Hattributes Hattrs.
  unfold ParseSearchRequest.
  rewrite Hseq. cbn [orFail mbind result_bind].
  rewrite Hclass, Htag. cbn [SearchRequest_Class SearchRequest_Tag Z.eqb Pos.eqb negb].
  rewrite Hbase. cbn [orFail mbind result_bind].
  rewrite Hscope. cbn [orFail mbind result_bind].
  rewrite Hs. cbn [index0 mbind result_bind].
  rewrite Hderef. cbn [orFail mbind result_bind].
  rewrite Hd. cbn [index0 mbind result_bind].
  rewrite Hsize. cbn [orFail mbind result_bind].
  rewrite Htime. cbn [orFail mbind result_bind].
  rewrite Htypes. cbn [orFail mbind result_bind].
  rewrite Hfilter. cbn [orFail mbind result_bind].
  pose proof (ParseFilter_returns (Asn1.FullBytes filter)) as Hret.
  destruct (ParseFilter (Asn1.FullBytes filter)) as [f|e|msg]; [| |done].
  all: cbn [mbind result_bind]; rewrite Hattributes;
    cbn [orFail mbind result_bind]; by rewrite Hattrs.
Qed.

Lemma ParseSearchRequest_scope_unchecked_witness :
  ParseSearchRequest (Samples.search_with_scope 200)
  = Ok (mkSearchRequest [] 200 0 0 0 false
          (Present [0x6f; 0x62; 0x6a; 0x65; 0x63; 0x74; 0x63; 0x6c; 0x61; 0x73; 0x73])
          []).
Proof.
  set (rest := drop 2 (Samples.search_with_scope 200)).
  exact (ParseSearchRequest_scope_unchecked (Samples.search_with_scope 200)
           (Asn1.mkRawValue 1 3 true rest (Samples.search_with_scope 200)) []
           [] (drop 2 rest)
           (Asn1.mkRawValue 0 10 false [200] [0x0a; 1; 200]) 200 [] (drop 5 rest)
           (Asn1.mkRawValue 0 10 false [0] [0x0a; 1; 0]) 0 [] (drop 8 rest)
           0 (drop 11 rest) 0 (drop 14 rest) false (drop 17 rest)
           (Asn1.mkRawValue 2 7 false (take 11 (drop 19 rest)) (take 13 (drop 17 rest)))
           [0x30; 0]
           (Asn1.mkRawValue 0 16 true [] [0x30; 0]) [] []
           eq_refl eq_refl eq_refl eq_refl eq_refl eq_refl eq_refl eq_refl
           eq_refl eq_refl eq_refl eq_refl eq_refl eq_refl).
Defined.

(** For the sample request, every value of the scope octet is accepted. *)
Lemma ParseSearchRequest_any_scope (s : Z) :
  ParseSearchRequest (Samples.search_with_scope s)
  = Ok (mkSearchRequest [] s 0 0 0 false
          (Present [0x6f; 0x62; 0x6a; 0x65; 0x63; 0x74; 0x63; 0x6c; 0x61; 0x73; 0x73])
          []).
Proof. reflexivity. Qed.

(** ** The BER identity of the PDU and filter types *)

(** C7 does not hold of the code. The [Class] and [Tag] methods return
    Application (1) with tags 0, 1 and 3 for BindRequest, BindResponse and
    SearchRequest, and context-specific (2) with tags 0, 3 and 7 for And,
    EqualityMatch and Present, as RFC4511 has them; but ExtendedRequest
    and ExtendedResponse return class 23 and 24 with tag 0 (class and tag
    are exchanged), and [Or.Tag] returns 3 where the CHOICE, and
    [ParseFilter], have 1. *)
Theorem Class_Tag_values :
  (∀ br, BindRequest_Class br = 1 ∧ BindRequest_Tag br = 0)
  ∧ (∀ br, BindResponse_Class br = 1 ∧ BindResponse_Tag br = 1)
  ∧ (∀ sr, SearchRequest_Class sr = 1 ∧ SearchRequest_Tag sr = 3)
  ∧ (∀ a, And_Class a = 2 ∧ And_Tag a = 0)
  ∧ (∀ em, EqualityMatch_Class em = 2 ∧ EqualityMatch_Tag em = 3)
  ∧ (∀ p, Present_Class p = 2 ∧ Present_Tag p = 7)
  ∧ (∀ er, ExtendedRequest_Class er = 23 ∧ ExtendedRequest_Tag er = 0)
  ∧ (∀ er, ExtendedResponse_Class er = 24 ∧ ExtendedResponse_Tag er = 0)
  ∧ (∀ o, Or_Class o = 2 ∧ Or_Tag o = 3).
Proof. repeat split. Qed.

(** The three places where the methods differ from the RFC4511 identity. *)
Lemma Class_Tag_divergence :
  (ExtendedRequest_Class (mkExtendedRequest [] []) ≠ 1
   ∧ ExtendedRequest_Tag (mkExtendedRequest [] []) ≠ 23)
  ∧ (ExtendedResponse_Class (mkExtendedResponse [] []) ≠ 1
     ∧ ExtendedResponse_Tag (mkExtendedResponse [] []) ≠ 24)
  ∧ Or_Tag [] ≠ 1.
Proof. repeat split; discriminate. Qed.

(** [ParseFilter] itself reads an Or under tag 1, not under [Or.Tag]. *)
Example ParseFilter_or_tag1 : ParseFilter [0xa1; 0x00] = Ok (Or []).
Proof. reflexivity. Qed.

(** ** Controls *)

(** C10. Controls never cross the envelope layer: a message returned by
    [ParseLDAPMessage] has a nil [Controls] field, whatever followed the
    protocol operation in the input, and the output of [LDAPMessage.Bytes]
    is the same for every value of the [Controls] field. *)
Theorem Controls_dropped :
  (∀ b msg rest, ParseLDAPMessage b = Ok (msg, rest) → msg_Controls msg = None)
  ∧ (∀ id op ctrl ctrl',
       LDAPMessage_Bytes (mkLDAPMessage id op ctrl)
       = LDAPMessage_Bytes (mkLDAPMessage id op ctrl')).
Proof.
  split; [|done].
  intros b msg rest Hp. unfold ParseLDAPMessage in Hp.
  apply bind_Ok in Hp as ([rawEnvelope rest'] & _ & Hp).
  apply bind_Ok in Hp as ([messageID r] & _ & Hp).
  apply bind_Ok in Hp as ([rawProtocolOp r'] & _ & Hp).
  apply bind_Ok in Hp as (r'' & _ & Hp).
  apply bind_Ok in Hp as (op & _ & Hp).
  by injection Hp as <- _.
Qed.

Lemma Controls_dropped_witness :
  ParseLDAPMessage Samples.bind_message_controls
  = Ok (mkLDAPMessage 1
          (Some (OpBindRequest (mkBindRequest 3 [] (Some (Simple [0x80; 0])))))
          None, [])
  ∧ msg_Controls
      (mkLDAPMessage 1
         (Some (OpBindRequest (mkBindRequest 3 [] (Some (Simple [0x80; 0])))))
         None) = None.
Proof.
  split; [reflexivity|].
  exact (proj1 Controls_dropped Samples.bind_message_controls _ [] eq_refl).
Defined.

(** A control given to [NewLDAPMessage] leaves the encoding unchanged. *)
Example LDAPMessage_Bytes_with_control :
  LDAPMessage_Bytes
    (NewLDAPMessage 1 (Some (OpBindRequest (mkBindRequest 3 [] (Some (Simple [])))))
       (Some [mkControl [0x31] true []]))
  = Ok [0x30; 0x0c; 0x02; 0x01; 0x01;
        0x60; 0x07; 0x02; 0x01; 0x03; 0x04; 0x00; 0x80; 0x00].
Proof. reflexivity. Qed.

End LdapFacts.

(** ** The handlers *)
Module GatewayFacts.
Import Gateway.

Section Handlers.
Context {B : Type} `{Backend B}.
Variable sha256_hex : string → string.
Variable be : B.


(** The entries written for a list of users, in order. *)
Lemma fold_left_Write (attrs : list string) (users : list User) (w : ResponseWriter) :
  fold_left
    (fun w user =>
       Write (SearchResultEntryResponse
                (projectAttributes user attrs (NewSearchResultEntry (Dn user)))) w)
    users w
  = w ++ map (fun user =>
               SearchResultEntryResponse
                 (projectAttributes user attrs (NewSearchResultEntry (Dn user))))
          users.
Proof.
  revert w. induction users as [|user users IH]; intros w; simpl.
  - by rewrite app_nil_r.
  - rewrite IH. unfold Write. by rewrite <- app_assoc.
Qed.

(** C3, as the code has it. Search dispatch evaluates one filter only, an
    EqualityMatch on the attribute cn: it asks the backend for the entries
    under the base with that cn and writes one SearchResultEntry for each,
    then SearchResultDone(success). For a decoded request with any other
    filter - And, Or and Present included, and an EqualityMatch on another
    attribute - it writes a single SearchResultDone with OperationsError
    and no entry. *)
Theorem handleSearch_filter (w : ResponseWriter) (req : SearchRequest) :
  ((∀ v, req_Filter req ≠ FilterEqualityMatch "cn" v) →
     handleSearch be w req
     = Write (SearchResultDone (mkLDAPResult LDAPResultOperationsError "")) w)
  ∧ (∀ v users,
       req_Filter req = FilterEqualityMatch "cn" v →
       Search be (BaseObject req) {["cn" := v]} = inr users →
       handleSearch be w req
       = w ++ map (fun user =>
                    SearchResultEntryResponse
                      (projectAttributes user (Attributes req)
                         (NewSearchResultEntry (Dn user))))
               users
           ++ [SearchResultDone (mkLDAPResult LDAPResultSuccess "")]).
Proof.
  unfold handleSearch. split.
  - intros Hother.
    destruct (req_Filter req) as [| | |desc v| | | | | |]; try done.
    case_decide as Hcn; [|done]. subst desc. by destruct (Hother v).
  - intros v users -> Hsearch. rewrite decide_True by done.
    rewrite insert_empty, Hsearch, fold_left_Write. unfold Write.
    by rewrite <- app_assoc.
Qed.

(** C8, as the code has it. When the backend call fails, whatever the
    failure, the search handler writes a single SearchResultDone with
    OperationsError, and the bind handler writes a single BindResponse
    with NoSuchObject: the bind handler takes every error of Get for an
    absent entry. Both handlers return normally. *)
Theorem backend_failure (w : ResponseWriter) (err : error) :
  (∀ req v,
     req_Filter req = FilterEqualityMatch "cn" v →
     Search be (BaseObject req) {["cn" := v]} = inl err →
     handleSearch be w req
     = Write (SearchResultDone (mkLDAPResult LDAPResultOperationsError "")) w)
  ∧ (∀ req,
       ¬ (req_Name req = "" ∧ AuthenticationSimple req = "") →
       Get be (req_Name req) = inl err →
       handleBind sha256_hex be w req
       = Write (BindResponse
                  (mkLDAPResult LDAPResultNoSuchObject "No such object")) w).
Proof.
  split.
  - intros req v Hfilter Hsearch. unfold handleSearch.
    rewrite Hfilter, decide_True by done. by rewrite insert_empty, Hsearch.
  - intros req Hanon Hget. unfold handleBind.
    by rewrite decide_False, Hget by done.
Qed.

End Handlers.


(** The other two cases, on the same directory. *)
Example handleBind_missing_entry :
  handleBind Samples.toy_digest Samples.directory []
    (mkBindRequest "cn=nobody,ou=People,dc=example,dc=com" "secret")
  = [BindResponse (mkLDAPResult LDAPResultNoSuchObject "No such object")].
Proof. reflexivity. Qed.

Example handleBind_right_password :
  handleBind Samples.toy_digest Samples.directory []
    (mkBindRequest "cn=mark,ou=People,dc=example,dc=com" "secret")
  = [BindResponse (mkLDAPResult LDAPResultSuccess "")].
Proof. reflexivity. Qed.

(** C3 does not hold of the code: Present, And and Or filters are not
    evaluated. On a directory that would answer the query, each of them is
    answered with a single SearchResultDone(operationsError). *)
Lemma handleSearch_present_and_or_rejected :
  Search Samples.directory "ou=People,dc=example,dc=com" ∅ = inr [Samples.mark]
  ∧ ∀ f, f ∈ [FilterPresent "cn";
              FilterAnd [FilterEqualityMatch "cn" "mark"];
              FilterOr [FilterEqualityMatch "cn" "mark"]] →
      handleSearch Samples.directory []
        (mkSearchRequest "ou=People,dc=example,dc=com" f ["cn"; "email"])
      = [SearchResultDone (mkLDAPResult LDAPResultOperationsError "")].
Proof.
  split; [reflexivity|].
  intros f Hf. repeat (apply elem_of_cons in Hf as [->|Hf]; [reflexivity|]).
  by apply elem_of_nil in Hf.
Qed.

Lemma handleSearch_filter_witness :
  handleSearch Samples.directory []
    (mkSearchRequest "ou=People,dc=example,dc=com"
       (FilterEqualityMatch "cn" "mark") ["cn"; "email"])
  = [SearchResultEntryResponse
       (mkSearchResultEntry "cn=mark,ou=People,dc=example,dc=com"
          [("cn", ["mark"]); ("email", ["mark@example.com"])]);
     SearchResultDone (mkLDAPResult LDAPResultSuccess "")]
  ∧ handleSearch Samples.directory []
      (mkSearchRequest "ou=People,dc=example,dc=com"
         (FilterSubstrings "cn" [SubstringInitial "ma"]) ["cn"; "email"])
    = [SearchResultDone (mkLDAPResult LDAPResultOperationsError "")].
Proof.
  split.
  - exact (proj2 (handleSearch_filter Samples.directory []
                    (mkSearchRequest "ou=People,dc=example,dc=com"
                       (FilterEqualityMatch "cn" "mark") ["cn"; "email"]))
             "mark" [Samples.mark] eq_refl eq_refl).
  - apply (proj1 (handleSearch_filter Samples.directory []
                    (mkSearchRequest "ou=People,dc=example,dc=com"
                       (FilterSubstrings "cn" [SubstringInitial "ma"])
                       ["cn"; "email"]))).
    discriminate.
Defined.

(** C8 does not hold of the code for bind: with a store that cannot be
    reached, a bind is answered with NoSuchObject (32), not with
    operationsError (1). *)
Lemma handleBind_unreachable_store :
  handleBind Samples.toy_digest Samples.unreachable_store []
    (mkBindRequest "cn=mark,ou=People,dc=example,dc=com" "secret")
  = [BindResponse (mkLDAPResult LDAPResultNoSuchObject "No such object")]
  ∧ LDAPResultNoSuchObject ≠ LDAPResultOperationsError.
Proof. split; [reflexivity|discriminate]. Qed.

Lemma backend_failure_witness :
  handleSearch Samples.unreachable_store []
    (mkSearchRequest "ou=People,dc=example,dc=com"
       (FilterEqualityMatch "cn" "mark") ["cn"])
  = [SearchResultDone (mkLDAPResult LDAPResultOperationsError "")]
  ∧ handleBind Samples.toy_digest Samples.unreachable_store []
      (mkBindRequest "cn=mark,ou=People,dc=example,dc=com" "secret")
    = [BindResponse (mkLDAPResult LDAPResultNoSuchObject "No such object")].
Proof.
  pose proof (backend_failure Samples.toy_digest Samples.unreachable_store []
                "client: etcd cluster is unavailable or misconfigured")
    as [Hsearch Hbind].
  split.
  - by apply (Hsearch _ "mark").
  - apply Hbind; [by intros [[=] _]|reflexivity].
Defined.

End GatewayFacts.

(** ** More on the BER framing: trailing bytes and exact elements *)
Module Asn1Framing.
Import Asn1.

(** Bytes after a header do not change how it is read. *)
Lemma parseBase128Int_app_r (p s : bytes) :
  ∀ shifted ret64 v r,
    parseBase128Int shifted ret64 p = inr (v, r) →
    parseBase128Int shifted ret64 (p ++ s) = inr (v, r ++ s).
Proof.
  induction p as [|b p IH]; intros shifted ret64 v r; simpl; [discriminate|].
  destruct (Nat.eqb shifted 5); [discriminate|].
  destruct (Nat.eqb shifted 0 && (b =? 128)); [discriminate|].
  destruct (Z.land b 128 =? 0).
  - destruct (_ >? MaxInt32); [discriminate|]. by intros [= <- <-].
  - apply IH.
Qed.

Lemma parseLongLength_app_r (numBytes : nat) (s : bytes) :
  ∀ p len v r,
    parseLongLength numBytes len p = inr (v, r) →
    parseLongLength numBytes len (p ++ s) = inr (v, r ++ s).
Proof.
  induction numBytes as [|n IH]; intros p len v r; simpl.
  - by intros [= <- <-].
  - destruct p as [|b p]; [discriminate|]. simpl.
    destruct (len >=? 2 ^ 23); [discriminate|].
    destruct (_ =? 0); [discriminate|]. apply IH.
Qed.

Lemma parseTagAndLength_app_r (p s : bytes) (t : tagAndLength) (r : bytes) :
  parseTagAndLength p = inr (t, r) →
  parseTagAndLength (p ++ s) = inr (t, r ++ s).
Proof.
  destruct p as [|b p]; [discriminate|].
  cbn [app parseTagAndLength].
  destruct (Z.land b 31 =? 31).
  - destruct (parseBase128Int 0 0 p) as [e|[tag r1]] eqn:Hp; [discriminate|].
    rewrite (parseBase128Int_app_r _ s _ _ _ _ Hp).
    cbn [mbind res_bind]. destruct (tag <? 31); [discriminate|].
    cbn [mbind res_bind]. destruct r1 as [|l r1]; [discriminate|]. cbn [app].
    destruct (Z.land l 128 =? 0); [by intros [= <- <-]|].
    destruct (Z.land l 127 =? 0); [discriminate|].
    destruct (parseLongLength _ 0 r1) as [e|[len r2]] eqn:Hl; [discriminate|].
    rewrite (parseLongLength_app_r _ s _ _ _ _ Hl).
    cbn [mbind res_bind]. destruct (len <? 128); [discriminate|].
    by intros [= <- <-].
  - cbn [mbind res_bind]. destruct p as [|l r1]; [discriminate|]. cbn [app].
    destruct (Z.land l 128 =? 0); [by intros [= <- <-]|].
    destruct (Z.land l 127 =? 0); [discriminate|].
    destruct (parseLongLength _ 0 r1) as [e|[len r2]] eqn:Hl; [discriminate|].
    rewrite (parseLongLength_app_r _ s _ _ _ _ Hl).
    cbn [mbind res_bind]. destruct (len <? 128); [discriminate|].
    by intros [= <- <-].
Qed.

(** A header is read from its own bytes alone: the input splits into the
    header and the rest returned. *)
Lemma parseBase128Int_exact (bs : bytes) :
  ∀ shifted ret64 v r,
    parseBase128Int shifted ret64 bs = inr (v, r) →
    ∃ h, bs = h ++ r ∧ parseBase128Int shifted ret64 h = inr (v, []).
Proof.
  induction bs as [|b bs IH]; intros shifted ret64 v r; simpl; [discriminate|].
  destruct (Nat.eqb shifted 5) eqn:H5; [discriminate|].
  destruct (Nat.eqb shifted 0 && (b =? 128)) eqn:H0; [discriminate|].
  destruct (Z.land b 128 =? 0) eqn:Hb.
  - destruct (_ >? MaxInt32) eqn:Hmax; [discriminate|]. intros [= <- <-].
    exists [b]. split; [done|]. simpl. by rewrite H5, H0, Hb, Hmax.
  - intros Hp. apply IH in Hp as (h & -> & Hh). exists (b :: h).
    split; [done|]. simpl. by rewrite H5, H0, Hb.
Qed.

Lemma parseLongLength_exact (numBytes : nat) :
  ∀ bs len v r,
    parseLongLength numBytes len bs = inr (v, r) →
    ∃ h, bs = h ++ r ∧ parseLongLength numBytes len h = inr (v, []).
Proof.
  induction numBytes as [|n IH]; intros bs len v r; simpl.
  - intros [= <- <-]. by exists [].
  - destruct bs as [|b bs]; [discriminate|].
    destruct (len >=? 2 ^ 23) eqn:H23; [discriminate|].
    destruct (_ =? 0) eqn:H0; [discriminate|].
    intros Hp. apply IH in Hp as (h & -> & Hh). exists (b :: h).
    split; [done|]. simpl. by rewrite ?H23, ?H0.
Qed.

Lemma parseTagAndLength_exact (bs : bytes) (t : tagAndLength) (r : bytes) :
  parseTagAndLength bs = inr (t, r) →
  ∃ h, bs = h ++ r ∧ parseTagAndLength h = inr (t, []).
Proof.
  destruct bs as [|b bs]; [discriminate|].
  cbn [parseTagAndLength].
  destruct (Z.land b 31 =? 31) eqn:H31.
  - destruct (parseBase128Int 0 0 bs) as [e|[tag r1]] eqn:Hp; [discriminate|].
    apply parseBase128Int_exact in Hp as (h1 & -> & Hh1).
    cbn [mbind res_bind]. destruct (tag <? 31) eqn:Htag; [discriminate|].
    cbn [mbind res_bind]. destruct r1 as [|l r1]; [discriminate|].
    destruct (Z.land l 128 =? 0) eqn:Hl128.
    { intros [= <- <-]. exists (b :: h1 ++ [l]).
      split; [simpl; by rewrite <- ?app_assoc|].
      cbn [parseTagAndLength]. rewrite H31.
      rewrite (parseBase128Int_app_r _ [l] _ _ _ _ Hh1).
      cbn [mbind res_bind app]. rewrite Htag. cbn [mbind res_bind].
      by rewrite Hl128. }
    destruct (Z.land l 127 =? 0) eqn:Hl127; [discriminate|].
    destruct (parseLongLength _ 0 r1) as [e|[len r2]] eqn:Hl; [discriminate|].
    apply parseLongLength_exact in Hl as (h2 & -> & Hh2).
    cbn [mbind res_bind]. destruct (len <? 128) eqn:Hlen; [discriminate|].
    intros [= <- <-]. exists (b :: h1 ++ l :: h2).
    split; [simpl; by rewrite <- ?app_assoc|].
    cbn [parseTagAndLength]. rewrite H31.
    rewrite (parseBase128Int_app_r _ (l :: h2) _ _ _ _ Hh1).
    cbn [mbind res_bind app]. rewrite Htag. cbn [mbind res_bind].
    rewrite Hl128, Hl127, Hh2. cbn [mbind res_bind]. by rewrite Hlen.
  - cbn [mbind res_bind]. destruct bs as [|l r1]; [discriminate|].
    destruct (Z.land l 128 =? 0) eqn:Hl128.
    { intros [= <- <-]. exists [b; l]. split; [done|].
      cbn [parseTagAndLength]. rewrite H31. cbn [mbind res_bind].
      by rewrite Hl128. }
    destruct (Z.land l 127 =? 0) eqn:Hl127; [discriminate|].
    destruct (parseLongLength _ 0 r1) as [e|[len r2]] eqn:Hl; [discriminate|].
    apply parseLongLength_exact in Hl as (h2 & -> & Hh2).
    cbn [mbind res_bind]. destruct (len <? 128) eqn:Hlen; [discriminate|].
    intros [= <- <-]. exists (b :: l :: h2). split; [done|].
    cbn [parseTagAndLength]. rewrite H31. cbn [mbind res_bind].
    rewrite Hl128, Hl127, Hh2. cbn [mbind res_bind]. by rewrite Hlen.
Qed.

(** The pieces of a decoded element: its header [h], its content and the
    rest of the input. *)
Lemma Unmarshal_RawValue_inv (b : bytes) (raw : RawValue) (rest : bytes) :
  Unmarshal_RawValue b = inr (raw, rest) →
  ∃ h t,
    parseTagAndLength h = inr (t, [])
    ∧ b = h ++ Bytes raw ++ rest
    ∧ FullBytes raw = h ++ Bytes raw
    ∧ Z.to_nat (tl_length t) = length (Bytes raw)
    ∧ tl_length t ≤ Z.of_nat (length (Bytes raw))
    ∧ Class raw = tl_class t ∧ Tag raw = tl_tag t
    ∧ IsCompound raw = tl_isCompound t.
Proof.
  unfold Unmarshal_RawValue, parseHeader.
  destruct b as [|x b]; [discriminate|].
  destruct (parseTagAndLength (x :: b)) as [e|[t r]] eqn:Ht; [discriminate|].
  cbn [mbind res_bind]. unfold parseContent.
  destruct (Z.of_nat (length r) <? tl_length t) eqn:Hlt; [discriminate|].
  cbn [mbind res_bind]. intros [= <- <-]. cbn [Bytes FullBytes Class Tag IsCompound].
  apply Z.ltb_ge in Hlt.
  apply parseTagAndLength_exact in Ht as (h & Hb & Hh).
  assert (Hlb : S (length b) = (length h + length r)%nat).
  { apply (f_equal length) in Hb. by rewrite length_app in Hb. }
  exists h, t. rewrite Hb.
  assert (Z.to_nat (tl_length t) ≤ length r)%nat by lia.
  repeat split; try done.
  - by rewrite take_drop.
  - cbn [length]. rewrite Hlb, length_drop.
    replace (length h + length r - (length r - Z.to_nat (tl_length t)))%nat
      with (length h + Z.to_nat (tl_length t))%nat by lia.
    by rewrite take_app_add'.
  - rewrite length_take. lia.
  - rewrite length_take. lia.
Qed.

(** Decoding an element from a buffer: trailing bytes are handed back
    untouched. *)
Lemma Unmarshal_RawValue_app_r (b s : bytes) (raw : RawValue) (rest : bytes) :
  Unmarshal_RawValue b = inr (raw, rest) →
  Unmarshal_RawValue (b ++ s) = inr (raw, rest ++ s).
Proof.
  unfold Unmarshal_RawValue, parseHeader.
  destruct b as [|x b]; [discriminate|]. cbn [app].
  change (x :: b ++ s) with ((x :: b) ++ s).
  destruct (parseTagAndLength (x :: b)) as [e|[t r]] eqn:Ht; [discriminate|].
  rewrite (parseTagAndLength_app_r _ s _ _ Ht).
  cbn [mbind res_bind]. unfold parseContent.
  destruct (Z.of_nat (length r) <? tl_length t) eqn:Hlt; [discriminate|].
  apply Z.ltb_ge in Hlt.
  replace (Z.of_nat (length (r ++ s)) <? tl_length t) with false
    by (symmetry; apply Z.ltb_ge; rewrite length_app; lia).
  cbn [mbind res_bind]. intros [= <- <-].
  pose proof (Asn1Facts.parseTagAndLength_length _ _ _ Ht) as Hlen.
  assert (Z.to_nat (tl_length t) ≤ length r)%nat by lia.
  rewrite take_app_le, drop_app_le by done.
  set (n := Z.to_nat (tl_length t)) in *.
  assert (Hk : (length ((x :: b) ++ s) - length (drop n r ++ s)
                = length (x :: b) - length (drop n r))%nat)
    by (rewrite !length_app, !length_drop; lia).
  rewrite Hk, take_app_le by lia. done.
Qed.

(** The element alone decodes to itself with nothing left. *)
Lemma Unmarshal_RawValue_exact (b : bytes) (raw : RawValue) (rest : bytes) :
  Unmarshal_RawValue b = inr (raw, rest) →
  b = FullBytes raw ++ rest
  ∧ Unmarshal_RawValue (FullBytes raw) = inr (raw, []).
Proof.
  intros Hu.
  destruct (Unmarshal_RawValue_inv _ _ _ Hu)
    as (h & t & Hh & Hb & Hfull & Hlen & Hle & Hclass & Htag & Hcomp).
  split; [by rewrite Hfull, <- app_assoc|].
  rewrite Hfull. unfold Unmarshal_RawValue, parseHeader.
  pose proof (Asn1Facts.parseTagAndLength_length _ _ _ Hh) as Hhlen.
  destruct h as [|x h]; [simpl in Hhlen; lia|]. cbn [app].
  change (x :: h ++ Bytes raw) with ((x :: h) ++ Bytes raw).
  rewrite (parseTagAndLength_app_r _ (Bytes raw) _ _ Hh).
  cbn [mbind res_bind app]. unfold parseContent.
  replace (Z.of_nat (length (Bytes raw)) <? tl_length t) with false
    by (symmetry; apply Z.ltb_ge; lia).
  cbn [mbind res_bind]. rewrite Hlen, firstn_all, drop_all.
  change (length (@nil Z)) with 0%nat. rewrite Nat.sub_0_r, take_ge by done.
  destruct raw as [c tg ic bs fb]; simpl in *. by subst.
Qed.

End Asn1Framing.

(** ** Encoding and decoding BER elements *)
Module Asn1Codec.
Import Asn1.

Lemma to_byte_mod (x : Z) : to_byte x = x mod 256.
Proof. unfold to_byte. change 255 with (Z.ones 8). by rewrite Z.land_ones. Qed.

Lemma land_127 (x : Z) : Z.land x 127 = x mod 128.
Proof. change 127 with (Z.ones 7). by rewrite Z.land_ones. Qed.

Lemma land_31 (x : Z) : Z.land x 31 = x mod 32.
Proof. change 31 with (Z.ones 5). by rewrite Z.land_ones. Qed.

Lemma testbit_small (b n k : Z) : 0 ≤ b < 2 ^ k → k ≤ n → Z.testbit b n = false.
Proof.
  intros Hb Hn. destruct (decide (b = 0)) as [->|]; [apply Z.bits_0|].
  apply Z.bits_above_log2; [lia|].
  apply Z.lt_le_trans with k; [|done]. apply Z.log2_lt_pow2; lia.
Qed.

Lemma land_shiftl_small (a b k : Z) :
  0 ≤ k → 0 ≤ b < 2 ^ k → Z.land (Z.shiftl a k) b = 0.
Proof.
  intros Hk Hb. apply Z.bits_inj'. intros n Hn.
  rewrite Z.land_spec, Z.bits_0.
  destruct (decide (n < k)).
  - by rewrite Z.shiftl_spec_low.
  - rewrite (testbit_small b n k) by lia. apply andb_false_r.
Qed.

Lemma lor_shiftl_8 (a b : Z) :
  0 ≤ b < 256 → Z.lor (Z.shiftl a 8) b = a * 256 + b.
Proof.
  intros Hb.
  rewrite <- Z.lxor_lor, <- Z.add_nocarry_lxor
    by (apply land_shiftl_small; lia).
  by rewrite Z.shiftl_mul_pow2.
Qed.

Lemma lor_shiftl_6 (a b : Z) :
  0 ≤ b < 64 → Z.lor (Z.shiftl a 6) b = a * 64 + b.
Proof.
  intros Hb.
  rewrite <- Z.lxor_lor, <- Z.add_nocarry_lxor
    by (apply land_shiftl_small; lia).
  by rewrite Z.shiftl_mul_pow2.
Qed.

Lemma land_128_small (x : Z) : 0 ≤ x < 128 → Z.land x 128 = 0.
Proof.
  intros Hx. apply Z.bits_inj'. intros n Hn. rewrite Z.land_spec, Z.bits_0.
  destruct (decide (n = 7)) as [->|].
  - by rewrite (testbit_small x 7 7).
  - change 128 with (2 ^ 7). rewrite Z.pow2_bits_false by lia. apply andb_false_r.
Qed.

Lemma land_128_big (x : Z) : 128 ≤ x < 256 → Z.land x 128 = 128.
Proof.
  intros Hx. replace x with (Z.lor (Z.shiftl 1 7) (x - 128)) at 1.
  - rewrite Z.land_lor_distr_l. change (Z.shiftl 1 7) with 128.
    rewrite Z.land_diag, land_128_small by lia. apply Z.lor_0_r.
  - rewrite <- Z.lxor_lor, <- Z.add_nocarry_lxor
      by (apply land_shiftl_small; lia).
    change (Z.shiftl 1 7) with 128. lia.
Qed.


Ltac divlia := Z.div_mod_to_equations; lia.

Lemma shiftr_8 (x : Z) : Z.shiftr x 8 = x / 256.
Proof. by rewrite Z.shiftr_div_pow2. Qed.

Lemma to_byte_small (x : Z) : 0 ≤ x < 256 → to_byte x = x.
Proof. intros Hx. rewrite to_byte_mod. by apply Z.mod_small. Qed.

(** The identifier octet of a low tag number decodes to its parts. *)
Lemma identifier_octet (class tag : Z) (comp : bool) :
  0 ≤ class ≤ 3 → 0 ≤ tag < 31 →
  let b := to_byte (Z.shiftl (to_byte class) 6) in
  let b := if comp then Z.lor b 0x20 else b in
  let b := Z.lor b (to_byte tag) in
  Z.shiftr b 6 = class ∧ (Z.land b 0x20 =? 0x20) = comp ∧ Z.land b 0x1f = tag.
Proof.
  intros Hclass Htag.
  assert (∃ c : nat, class = Z.of_nat c ∧ (c < 4)%nat) as (c & -> & Hc)
    by (exists (Z.to_nat class); lia).
  assert (∃ k : nat, tag = Z.of_nat k ∧ (k < 31)%nat) as (k & -> & Hk)
    by (exists (Z.to_nat tag); lia).
  do 4 (destruct c as [|c];
    [do 31 (destruct k as [|k]; [by destruct comp|]); lia|]).
  lia.
Qed.

Lemma lengthLength_cases (L : Z) :
  128 ≤ L < 2 ^ 31 →
  (L < 256 ∧ lengthLength L = 1%nat)
  ∨ (256 ≤ L < 65536 ∧ lengthLength L = 2%nat)
  ∨ (65536 ≤ L < 16777216 ∧ lengthLength L = 3%nat)
  ∨ (16777216 ≤ L ∧ lengthLength L = 4%nat).
Proof.
  intros HL. unfold lengthLength. cbn [lengthLength_loop].
  rewrite !shiftr_8.
  destruct (255 <? L) eqn:H1; [|left; split; [lia|done]].
  destruct (255 <? L / 256) eqn:H2; [|right; left; split; [divlia|done]].
  destruct (255 <? L / 256 / 256) eqn:H3;
    [|right; right; left; split; [divlia|done]].
  destruct (255 <? L / 256 / 256 / 256) eqn:H4; [exfalso; divlia|].
  right; right; right; split; [divlia|done].
Qed.

Lemma parseLongLength_step (n : nat) (acc byte : Z) (bs : bytes) :
  acc < 2 ^ 23 → 0 ≤ byte < 256 → acc * 256 + byte ≠ 0 →
  parseLongLength (S n) acc (byte :: bs)
  = parseLongLength n (acc * 256 + byte) bs.
Proof.
  intros Hacc Hbyte Hne. cbn [parseLongLength].
  replace (acc >=? 2 ^ 23) with false by lia.
  rewrite lor_shiftl_8 by done.
  by replace (acc * 256 + byte =? 0) with false by lia.
Qed.

Lemma to_byte_shiftr (x k : Z) :
  0 ≤ k → to_byte (Z.shiftr x k) = (x / 2 ^ k) mod 256.
Proof. intros Hk. by rewrite to_byte_mod, Z.shiftr_div_pow2. Qed.

(** The long form of a length decodes to the length. *)
Lemma parseLongLength_appendLength (L : Z) (rest : bytes) :
  128 ≤ L < 2 ^ 31 →
  parseLongLength (lengthLength L) 0 (appendLength L ++ rest) = inr (L, rest).
Proof.
  intros HL. unfold appendLength.
  destruct (lengthLength_cases L HL)
    as [[H ->]|[[H ->]|[[H ->]|[H ->]]]];
    cbn [appendLength_loop app];
    rewrite !to_byte_shiftr by lia;
    repeat (rewrite parseLongLength_step by divlia);
    cbn [parseLongLength]; f_equal; f_equal; divlia.
Qed.

(** A header written by [appendTagAndLength] is read back as it was. *)
Lemma parseTagAndLength_appendTagAndLength (class tag L : Z) (comp : bool)
    (rest : bytes) :
  0 ≤ class ≤ 3 → 0 ≤ tag < 31 → 0 ≤ L < 2 ^ 31 →
  parseTagAndLength (appendTagAndLength (mkTagAndLength class tag L comp) ++ rest)
  = inr (mkTagAndLength class tag L comp, rest).
Proof.
  intros Hclass Htag HL.
  destruct (identifier_octet class tag comp Hclass Htag) as (Hc & Hcomp & Ht).
  unfold appendTagAndLength. cbn [tl_class tl_tag tl_length tl_isCompound].
  replace (tag >=? 31) with false by lia.
  cbn [app parseTagAndLength]. rewrite Hc, Hcomp, Ht.
  replace (tag =? 31) with false by lia. cbn [mbind res_bind].
  destruct (L >=? 128) eqn:HL128.
  - cbn [app].
    assert (1 ≤ Z.of_nat (lengthLength L) ≤ 4) as Hn
      by (destruct (lengthLength_cases L) as [[? ->]|[[? ->]|[[? ->]|[? ->]]]]; lia).
    set (n := lengthLength L) in *.
    replace (Z.lor 128 (Z.of_nat n)) with (128 + Z.of_nat n).
    2:{ change 128 with (Z.shiftl 1 7) at 2.
        rewrite <- Z.lxor_lor, <- Z.add_nocarry_lxor
          by (apply land_shiftl_small; lia). done. }
    rewrite land_128_big by lia. rewrite land_127.
    replace ((128 + Z.of_nat n) mod 128) with (Z.of_nat n) by divlia.
    replace (128 =? 0) with false by done.
    replace (Z.of_nat n =? 0) with false by lia.
    rewrite Nat2Z.id. subst n.
    rewrite parseLongLength_appendLength by lia. cbn [mbind res_bind].
    by replace (L <? 128) with false by lia.
  - cbn [app]. rewrite to_byte_small by lia.
    rewrite land_128_small by lia. rewrite land_127.
    by rewrite Z.mod_small by lia.
Qed.

(** [asn1.Unmarshal] of what [asn1.Marshal] wrote for a raw value. *)
Lemma Unmarshal_RawValue_encode (class tag : Z) (comp : bool) (body rest : bytes) :
  0 ≤ class ≤ 3 → 0 ≤ tag < 31 → Z.of_nat (length body) < 2 ^ 31 →
  Unmarshal_RawValue (encode class tag comp body ++ rest)
  = inr (mkRawValue class tag comp body (encode class tag comp body), rest).
Proof.
  intros Hclass Htag Hlen.
  pose proof (parseTagAndLength_appendTagAndLength class tag
                (Z.of_nat (length body)) comp (body ++ rest) Hclass Htag
                ltac:(lia)) as Hh.
  pose proof (Asn1Facts.parseTagAndLength_length _ _ _ Hh) as Hhl.
  unfold Unmarshal_RawValue, parseHeader, encode in *.
  rewrite <- app_assoc.
  destruct (appendTagAndLength _ ++ body ++ rest) as [|x l] eqn:Hl;
    [simpl in Hhl; lia|].
  rewrite Hh. cbn [mbind res_bind]. unfold parseContent.
  cbn [tl_length tl_class tl_tag tl_isCompound].
  replace (Z.of_nat (length (body ++ rest)) <? Z.of_nat (length body))
    with false by (symmetry; apply Z.ltb_ge; rewrite length_app; lia).
  cbn [mbind res_bind]. rewrite Nat2Z.id, take_app_length, drop_app_length.
  f_equal. f_equal. f_equal.
  rewrite <- Hl, app_assoc.
  rewrite (length_app _ rest), Nat.add_sub. apply take_app_length.
Qed.

Lemma parseHeader_encode (class tag : Z) (comp : bool) (body rest : bytes) :
  0 ≤ class ≤ 3 → 0 ≤ tag < 31 → Z.of_nat (length body) < 2 ^ 31 →
  parseHeader (encode class tag comp body ++ rest)
  = inr (mkTagAndLength class tag (Z.of_nat (length body)) comp, body ++ rest).
Proof.
  intros Hclass Htag Hlen.
  pose proof (parseTagAndLength_appendTagAndLength class tag
                (Z.of_nat (length body)) comp (body ++ rest) Hclass Htag
                ltac:(lia)) as Hh.
  pose proof (Asn1Facts.parseTagAndLength_length _ _ _ Hh) as Hhl.
  unfold parseHeader, encode. rewrite <- app_assoc.
  destruct (appendTagAndLength _ ++ body ++ rest) as [|x l];
    [simpl in Hhl; lia|done].
Qed.

Lemma parseContent_app (class tag : Z) (comp : bool) (body rest : bytes) :
  parseContent (mkTagAndLength class tag (Z.of_nat (length body)) comp)
    (body ++ rest)
  = inr (body, rest).
Proof.
  unfold parseContent. cbn [tl_length].
  replace (Z.of_nat (length (body ++ rest)) <? Z.of_nat (length body))
    with false by (symmetry; apply Z.ltb_ge; rewrite length_app; lia).
  by rewrite Nat2Z.id, take_app_length, drop_app_length.
Qed.

(** An encoded element is never empty and has a header of at most six
    bytes. *)
Lemma length_encode (class tag : Z) (comp : bool) (body : bytes) :
  0 ≤ tag < 31 → Z.of_nat (length body) < 2 ^ 31 →
  (length body + 2 ≤ length (encode class tag comp body) ≤ length body + 6)%nat.
Proof.
  intros Htag Hlen. unfold encode, appendTagAndLength.
  cbn [tl_class tl_tag tl_length tl_isCompound].
  replace (tag >=? 31) with false by lia.
  rewrite !length_app. cbn [length].
  destruct (_ >=? 128) eqn:H128; cbn [length]; [|lia].
  unfold appendLength.
  destruct (lengthLength_cases (Z.of_nat (length body)))
    as [[? ->]|[[? ->]|[[? ->]|[? ->]]]]; cbn [appendLength_loop length]; lia.
Qed.

(** [asn1.Unmarshal] of [asn1.Marshal] for an octet string. *)
Lemma Unmarshal_bytes_Marshal_bytes (s rest : bytes) :
  Z.of_nat (length s) < 2 ^ 31 →
  Unmarshal_bytes (Marshal_bytes s ++ rest) = inr (s, rest).
Proof.
  intros Hlen. unfold Unmarshal_bytes, Marshal_bytes.
  rewrite parseHeader_encode by (unfold ClassUniversal, TagOctetString; lia).
  cbn [mbind res_bind expect tl_class tl_tag tl_isCompound].
  by rewrite parseContent_app.
Qed.

Lemma int64_Len_cases (i : Z) :
  0 ≤ i < 2 ^ 31 →
  (i < 128 ∧ int64_Len i = 1%nat)
  ∨ (128 ≤ i < 32768 ∧ int64_Len i = 2%nat)
  ∨ (32768 ≤ i < 8388608 ∧ int64_Len i = 3%nat)
  ∨ (8388608 ≤ i ∧ int64_Len i = 4%nat).
Proof.
  intros Hi. unfold int64_Len. cbn [int64_len_pos int64_len_neg].
  rewrite !shiftr_8. replace (i <? -128) with false by lia.
  destruct (127 <? i) eqn:H1; [|left; split; [lia|done]].
  destruct (127 <? i / 256) eqn:H2; [|right; left; split; [divlia|done]].
  destruct (127 <? i / 256 / 256) eqn:H3;
    [|right; right; left; split; [divlia|done]].
  destruct (127 <? i / 256 / 256 / 256) eqn:H4; [exfalso; divlia|].
  right; right; right; split; [divlia|done].
Qed.

Lemma checkInteger_nonneg (b0 b1 : Z) (tl : bytes) :
  (0 < b0 < 255 ∨ (b0 = 0 ∧ 128 ≤ b1 < 256)) →
  checkInteger (b0 :: b1 :: tl) = inr tt.
Proof.
  intros [Hb|[-> Hb]]; cbn [checkInteger].
  - replace (b0 =? 0) with false by lia. by replace (b0 =? 255) with false by lia.
  - rewrite land_128_big by done. done.
Qed.

Lemma fold_left_bytes_cons (acc b : Z) (bs : bytes) :
  0 ≤ b < 256 →
  fold_left (fun acc b => Z.lor (Z.shiftl acc 8) b) (b :: bs) acc
  = fold_left (fun acc b => Z.lor (Z.shiftl acc 8) b) bs (acc * 256 + b).
Proof. intros Hb. cbn [fold_left]. by rewrite lor_shiftl_8. Qed.

(** [parseInt64] of the octets [int64Encoder] writes, for the values a
    message ID can take. *)
Lemma parseInt64_int64_Encode (i : Z) :
  0 ≤ i < 2 ^ 31 → parseInt64 (int64_Encode i) = inr i.
Proof.
  intros Hi. unfold int64_Encode, parseInt64.
  destruct (int64_Len_cases i Hi) as [[H ->]|[[H ->]|[[H ->]|[H ->]]]];
    cbn [appendLength_loop]; rewrite !to_byte_shiftr by lia.
  - cbn [checkInteger mbind res_bind length Nat.ltb Nat.leb].
    rewrite fold_left_bytes_cons by divlia. cbn [fold_left].
    change (8 * Z.of_nat 1 - 1) with 7.
    replace (_ >=? 2 ^ 7) with false by divlia. f_equal. divlia.
  - rewrite checkInteger_nonneg by divlia.
    cbn [mbind res_bind length Nat.ltb Nat.leb].
    rewrite !fold_left_bytes_cons by divlia. cbn [fold_left].
    change (8 * Z.of_nat 2 - 1) with 15.
    replace (_ >=? 2 ^ 15) with false by divlia. f_equal. divlia.
  - rewrite checkInteger_nonneg by divlia.
    cbn [mbind res_bind length Nat.ltb Nat.leb].
    rewrite !fold_left_bytes_cons by divlia. cbn [fold_left].
    change (8 * Z.of_nat 3 - 1) with 23.
    replace (_ >=? 2 ^ 23) with false by divlia. f_equal. divlia.
  - rewrite checkInteger_nonneg by divlia.
    cbn [mbind res_bind length Nat.ltb Nat.leb].
    rewrite !fold_left_bytes_cons by divlia. cbn [fold_left].
    change (8 * Z.of_nat 4 - 1) with 31.
    replace (_ >=? 2 ^ 31) with false by divlia. f_equal. divlia.
Qed.

Lemma length_int64_Encode (i : Z) :
  0 ≤ i < 2 ^ 31 → (1 ≤ length (int64_Encode i) ≤ 4)%nat.
Proof.
  intros Hi. unfold int64_Encode.
  destruct (int64_Len_cases i Hi) as [[H ->]|[[H ->]|[[H ->]|[H ->]]]];
    cbn [appendLength_loop length]; lia.
Qed.

(** [asn1.Unmarshal] of [asn1.Marshal] for an integer from 0 to maxInt. *)
Lemma Unmarshal_int_Marshal_int (i : Z) (rest : bytes) :
  0 ≤ i < 2 ^ 31 →
  Unmarshal_int (Marshal_int i ++ rest) = inr (i, rest).
Proof.
  intros Hi. unfold Unmarshal_int, Marshal_int.
  pose proof (length_int64_Encode i Hi) as Hlen.
  rewrite parseHeader_encode by (unfold ClassUniversal, TagInteger; lia).
  cbn [mbind res_bind expect tl_class tl_tag tl_isCompound].
  rewrite parseContent_app. cbn [mbind res_bind].
  by rewrite parseInt64_int64_Encode.
Qed.

End Asn1Codec.

(** ** Encoders against parsers in the ldap package *)
Module LdapCodec.
Import Ldap LdapServer.

Lemma length_encode_body (class tag : Z) (comp : bool) (body : bytes) :
  (length body ≤ length (Asn1.encode class tag comp body))%nat.
Proof. unfold Asn1.encode. rewrite length_app. lia. Qed.

Lemma length_Marshal_bytes (s : bytes) :
  (length s ≤ length (Asn1.Marshal_bytes s))%nat.
Proof. apply length_encode_body. Qed.

Lemma Unmarshal_RawValue_encode_nil (class tag : Z) (comp : bool) (body : bytes) :
  0 ≤ class ≤ 3 → 0 ≤ tag < 31 → Z.of_nat (length body) < 2 ^ 31 →
  Asn1.Unmarshal_RawValue (Asn1.encode class tag comp body)
  = inr (Asn1.mkRawValue class tag comp body (Asn1.encode class tag comp body), []).
Proof.
  intros Hclass Htag Hlen.
  pose proof (Asn1Codec.Unmarshal_RawValue_encode class tag comp body []
                Hclass Htag Hlen) as Hu.
  by rewrite app_nil_r in Hu.
Qed.

(** [ParseBindRequest] on an encoded BindRequest whose authentication
    element is [authb]. *)
Lemma ParseBindRequest_encoded (v : Z) (name authb : bytes) (auth : Asn1.RawValue) :
  0 ≤ v < 2 ^ 31 →
  Asn1.Unmarshal_RawValue authb = inr (auth, []) →
  Z.of_nat (length (Asn1.Marshal_int v ++ Asn1.Marshal_bytes name ++ authb)) < 2 ^ 31 →
  ParseBindRequest
    (Asn1.encode 1 0 true (Asn1.Marshal_int v ++ Asn1.Marshal_bytes name ++ authb))
  = authentication ←
      match Asn1.Tag auth with
      | 0 =>
          match ParseSimple (Asn1.FullBytes auth) with
          | Ok simple => Ok (Some (Simple simple))
          | Err _ => Err (NewLDAPError ResultCodeProtocolError "Invalid simple field")
          | Panic msg => Panic msg
          end
      | 3 =>
          match ParseSaslCredentials (Asn1.FullBytes auth) with
          | Ok sasl => Ok (Some (Sasl sasl))
          | Err _ => Err (NewLDAPError ResultCodeProtocolError "Invalid sasl field")
          | Panic msg => Panic msg
          end
      | _ => Ok None
      end;
    if negb (v =? 3) then
      Err (NewLDAPError ResultCodeProtocolError "Unsupported version")
    else Ok (mkBindRequest v name authentication).
Proof.
  intros Hv Hauth Hlen.
  assert (Hname : Z.of_nat (length name) < 2 ^ 31).
  { pose proof (length_Marshal_bytes name). rewrite !length_app in Hlen. lia. }
  rewrite (LdapFacts.ParseBindRequest_unfold _ _ [] v
             (Asn1.Marshal_bytes name ++ authb)
             (Unmarshal_RawValue_encode_nil 1 0 true _ ltac:(lia) ltac:(lia) Hlen)
             eq_refl eq_refl (Asn1Codec.Unmarshal_int_Marshal_int v _ Hv)).
  rewrite Asn1Codec.Unmarshal_bytes_Marshal_bytes by done.
  cbn [orFail mbind result_bind]. rewrite Hauth. done.
Qed.

Lemma Ok_inj {A : Type} (a b : A) : Ok a = Ok b → a = b.
Proof. by intros [=]. Qed.

Lemma Simple_Bytes_encode (s : bytes) :
  Simple_Bytes s = Asn1.encode 2 0 false s.
Proof. reflexivity. Qed.

Lemma SaslCredentials_Bytes_encode (s : SaslCredentials) :
  SaslCredentials_Bytes s
  = Asn1.encode 0 16 true
      (Asn1.Marshal_bytes (Mechanism s) ++ Asn1.Marshal_bytes (Credentials s)).
Proof. reflexivity. Qed.

Lemma BindRequest_Bytes_encode (v : Z) (name : bytes) (a : AuthenticationChoice) :
  BindRequest_Bytes (mkBindRequest v name (Some a))
  = Ok (Asn1.encode 1 0 true
          (Asn1.Marshal_int v ++ Asn1.Marshal_bytes name
             ++ AuthenticationChoice_Bytes a)).
Proof. reflexivity. Qed.

(** The authentication element that [BindRequest.Bytes] writes, as
    [asn1.Unmarshal] reads it back. *)
Lemma Unmarshal_RawValue_AuthenticationChoice (a : AuthenticationChoice) :
  Z.of_nat (length (AuthenticationChoice_Bytes a)) < 2 ^ 31 →
  ∃ auth, Asn1.Unmarshal_RawValue (AuthenticationChoice_Bytes a) = inr (auth, [])
          ∧ Asn1.FullBytes auth = AuthenticationChoice_Bytes a
          ∧ Asn1.Tag auth = match a with Simple _ => 0 | Sasl _ => 16 end.
Proof.
  intros Hlen. destruct a as [s|s]; cbn [AuthenticationChoice_Bytes] in *.
  - rewrite Simple_Bytes_encode in *.
    pose proof (length_encode_body 2 0 false s).
    rewrite Unmarshal_RawValue_encode_nil by lia. by eexists.
  - rewrite SaslCredentials_Bytes_encode in *.
    pose proof (length_encode_body 0 16 true
                  (Asn1.Marshal_bytes (Mechanism s)
                     ++ Asn1.Marshal_bytes (Credentials s))).
    rewrite Unmarshal_RawValue_encode_nil by lia. by eexists.
Qed.

(** What [ParseBindRequest] makes of any request [BindRequest.Bytes] has
    written. *)
Lemma ParseBindRequest_BindRequest_Bytes (v : Z) (name : bytes)
    (a : AuthenticationChoice) (b : bytes) :
  0 ≤ v < 2 ^ 31 →
  BindRequest_Bytes (mkBindRequest v name (Some a)) = Ok b →
  Z.of_nat (length b) < 2 ^ 31 →
  ParseBindRequest b
  = if negb (v =? 3) then
      Err (NewLDAPError ResultCodeProtocolError "Unsupported version")
    else Ok (mkBindRequest v name
               match a with
               | Simple s => Some (Simple (Simple_Bytes s))
               | Sasl _ => None
               end).
Proof.
  intros Hv Hb Hlen. rewrite BindRequest_Bytes_encode in Hb.
  apply Ok_inj in Hb. subst b.
  pose proof (length_encode_body 1 0 true
                (Asn1.Marshal_int v ++ Asn1.Marshal_bytes name
                   ++ AuthenticationChoice_Bytes a)) as Hbody.
  assert (Ha : Z.of_nat (length (AuthenticationChoice_Bytes a)) < 2 ^ 31).
  { rewrite !length_app in Hbody. lia. }
  destruct (Unmarshal_RawValue_AuthenticationChoice a Ha) as (auth & Hauth & Hfull & Htag).
  rewrite (ParseBindRequest_encoded v name _ auth Hv Hauth) by lia.
  rewrite Htag, Hfull. by destruct a.
Qed.


(** X1. Encoding a version-3 BindRequest with simple authentication and
    parsing the bytes back never gives the request that was encoded: for
    every name and password, [ParseBindRequest] returns the name unchanged
    but, as the password, the whole authentication element - the password
    preceded by its identifier and length octets, which is what
    [Simple.Bytes] writes - and that is always longer than the password. *)
Theorem BindRequest_simple_reparsed (name s b : bytes) :
  BindRequest_Bytes (mkBindRequest 3 name (Some (Simple s))) = Ok b →
  Z.of_nat (length b) < 2 ^ 31 →
  ParseBindRequest b
  = Ok (mkBindRequest 3 name (Some (Simple (Simple_Bytes s))))
  ∧ Z.of_nat (length s) + 2 ≤ Z.of_nat (length (Simple_Bytes s)).
Proof.
  intros Hb Hlen. split.
  - by rewrite (ParseBindRequest_BindRequest_Bytes 3 name (Simple s) b).
  - rewrite BindRequest_Bytes_encode in Hb. apply Ok_inj in Hb. subst b.
    cbn [AuthenticationChoice_Bytes] in Hlen.
    pose proof (length_encode_body 1 0 true
                  (Asn1.Marshal_int 3 ++ Asn1.Marshal_bytes name
                     ++ Simple_Bytes s)) as Hbody.
    rewrite !length_app in Hbody.
    rewrite Simple_Bytes_encode in *.
    pose proof (length_encode_body 2 0 false s) as Hs.
    pose proof (Asn1Codec.length_encode 2 0 false s). lia.
Qed.

Lemma BindRequest_simple_reparsed_witness :
  ParseBindRequest
    [0x60; 0x0c; 0x02; 0x01; 0x03; 0x04; 0x01; 0x64;
     0x80; 0x04; 0x70; 0x61; 0x73; 0x73]
  = Ok (mkBindRequest 3 [0x64]
          (Some (Simple [0x80; 0x04; 0x70; 0x61; 0x73; 0x73])))
  ∧ Z.of_nat (length [0x70; 0x61; 0x73; 0x73]) + 2
    ≤ Z.of_nat (length (Simple_Bytes [0x70; 0x61; 0x73; 0x73])).
Proof.
  exact (BindRequest_simple_reparsed [0x64] [0x70; 0x61; 0x73; 0x73] _
           eq_refl eq_refl).
Defined.

(** X2. Encoding a version-3 BindRequest with SASL credentials and parsing
    the bytes back loses the credentials: whatever the mechanism and the
    credentials, [ParseBindRequest] accepts the bytes and returns a request
    with a nil [Authentication], because [SaslCredentials.Bytes] writes a
    universal SEQUENCE (tag 16), which the parser's switch on the tag
    passes over. *)
Theorem BindRequest_sasl_reparsed_nil (name : bytes) (sasl : SaslCredentials)
    (b : bytes) :
  BindRequest_Bytes (mkBindRequest 3 name (Some (Sasl sasl))) = Ok b →
  Z.of_nat (length b) < 2 ^ 31 →
  ParseBindRequest b = Ok (mkBindRequest 3 name None).
Proof.
  intros Hb Hlen.
  by rewrite (ParseBindRequest_BindRequest_Bytes 3 name (Sasl sasl) b).
Qed.

Lemma BindRequest_sasl_reparsed_nil_witness :
  ParseBindRequest
    [0x60; 0x0e; 0x02; 0x01; 0x03; 0x04; 0x01; 0x64;
     0x30; 0x06; 0x04; 0x01; 0x41; 0x04; 0x01; 0x42]
  = Ok (mkBindRequest 3 [0x64] None).
Proof.
  exact (BindRequest_sasl_reparsed_nil [0x64] (mkSaslCredentials [0x41] [0x42]) _
           eq_refl eq_refl).
Defined.

(** X3. A BindRequest encoded by [BindRequest.Bytes] with any version from
    0 to maxInt other than 3 is refused by [ParseBindRequest] with
    ProtocolError "Unsupported version", whatever its name and
    authentication: every other field of the encoding is accepted, and the
    version test is the one that fails. *)
Theorem BindRequest_other_version_refused (v : Z) (name : bytes)
    (a : AuthenticationChoice) (b : bytes) :
  0 ≤ v < 2 ^ 31 → v ≠ 3 →
  BindRequest_Bytes (mkBindRequest v name (Some a)) = Ok b →
  Z.of_nat (length b) < 2 ^ 31 →
  ParseBindRequest b
  = Err (NewLDAPError ResultCodeProtocolError "Unsupported version").
Proof.
  intros Hv Hne Hb Hlen.
  rewrite (ParseBindRequest_BindRequest_Bytes v name a b) by done.
  by replace (v =? 3) with false by (symmetry; by apply Z.eqb_neq).
Qed.

Lemma BindRequest_other_version_refused_witness :
  ParseBindRequest
    [0x60; 0x0a; 0x02; 0x02; 0x01; 0x00; 0x04; 0x01; 0x64; 0x80; 0x01; 0x70]
  = Err (NewLDAPError ResultCodeProtocolError "Unsupported version").
Proof.
  refine (BindRequest_other_version_refused 256 [0x64] (Simple [0x70]) _
            _ _ eq_refl eq_refl); [lia|discriminate].
Defined.

(** X4. [ParseSaslCredentials] refuses every encoding that
    [SaslCredentials.Bytes] produces, with ProtocolError "Invalid class":
    the encoder writes the universal class (0) and the parser requires the
    context-specific class (2). *)
Theorem ParseSaslCredentials_refuses_Bytes (sasl : SaslCredentials) :
  Z.of_nat (length (SaslCredentials_Bytes sasl)) < 2 ^ 31 →
  ParseSaslCredentials (SaslCredentials_Bytes sasl)
  = Err (NewLDAPError ResultCodeProtocolError "Invalid class").
Proof.
  intros Hlen. rewrite SaslCredentials_Bytes_encode in *.
  pose proof (length_encode_body 0 16 true
                (Asn1.Marshal_bytes (Mechanism sasl)
                   ++ Asn1.Marshal_bytes (Credentials sasl))).
  unfold ParseSaslCredentials.
  by rewrite Unmarshal_RawValue_encode_nil by lia.
Qed.

Lemma ParseSaslCredentials_refuses_Bytes_witness :
  ParseSaslCredentials [0x30; 0x06; 0x04; 0x01; 0x41; 0x04; 0x01; 0x42]
  = Err (NewLDAPError ResultCodeProtocolError "Invalid class").
Proof.
  exact (ParseSaslCredentials_refuses_Bytes (mkSaslCredentials [0x41] [0x42])
           eq_refl).
Defined.


(** *** The envelope *)

(** [ParseLDAPMessage] reads its input through the first element only. *)
Lemma ParseLDAPMessage_envelope (b b' : bytes) (raw : Asn1.RawValue)
    (rest rest' : bytes) :
  Asn1.Unmarshal_RawValue b = inr (raw, rest) →
  Asn1.Unmarshal_RawValue b' = inr (raw, rest') →
  ParseLDAPMessage b' = (fun p => (p.1, rest')) <$> ParseLDAPMessage b.
Proof.
  intros Hb Hb'. unfold ParseLDAPMessage. rewrite Hb, Hb'.
  cbn [orFail mbind result_bind].
  destruct (Asn1.Unmarshal_int (Asn1.Bytes raw)) as [e|[id r]]; [done|].
  cbn [orFail mbind result_bind].
  destruct (Asn1.Unmarshal_RawValue r) as [e|[op r']]; [done|].
  cbn [orFail mbind result_bind].
  destruct r' as [|x r'].
  - cbn [mbind result_bind].
    match goal with |- mbind _ ?m = _ => destruct m as [o|e|msg] end; done.
  - destruct (Asn1.Unmarshal_RawValue (x :: r')) as [e|[c r'']]; [done|].
    cbn [orFail mbind result_bind].
    match goal with |- mbind _ ?m = _ => destruct m as [o|e|msg] end; done.
Qed.

Lemma ParseLDAPMessage_not_framed (b : bytes) (e : Asn1.error) :
  Asn1.Unmarshal_RawValue b = inl e →
  ParseLDAPMessage b
  = Err (NewLDAPError ResultCodeProtocolError "Invalid LDAPMessage").
Proof. intros Hb. unfold ParseLDAPMessage. by rewrite Hb. Qed.

Lemma Unmarshal_int_length (b : bytes) (i : Z) (rest : bytes) :
  Asn1.Unmarshal_int b = inr (i, rest) → (length rest + 3 ≤ length b)%nat.
Proof.
  unfold Asn1.Unmarshal_int.
  destruct (Asn1.parseHeader b) as [e|[t r]] eqn:Hh; [discriminate|].
  cbn [mbind Asn1.res_bind].
  destruct (Asn1.expect _ t); [discriminate|]. cbn [mbind Asn1.res_bind].
  destruct (Asn1.parseContent t r) as [e|[inner rest']] eqn:Hc; [discriminate|].
  cbn [mbind Asn1.res_bind].
  destruct (Asn1.parseInt64 inner) as [e|i'] eqn:Hi; [discriminate|].
  cbn [mbind Asn1.res_bind]. intros [= <- <-].
  apply Asn1Facts.parseHeader_length in Hh.
  apply Asn1Facts.parseContent_length in Hc.
  destruct inner as [|x inner]; [discriminate|]. simpl in Hc. lia.
Qed.

(** X5. Bytes that follow the first element of the input do not change
    what [ParseLDAPMessage] makes of it: unless the call fails on the
    envelope itself with "Invalid LDAPMessage" (which more bytes can
    repair, when the element was cut), the outcome on [b ++ s] is the
    outcome on [b] - the same message, the same error or the same panic -
    and the appended bytes [s] come back at the end of the returned rest. *)
Theorem ParseLDAPMessage_trailing_bytes (b s : bytes) :
  ParseLDAPMessage b
  ≠ Err (NewLDAPError ResultCodeProtocolError "Invalid LDAPMessage") →
  ParseLDAPMessage (b ++ s) = (fun p => (p.1, p.2 ++ s)) <$> ParseLDAPMessage b.
Proof.
  intros Hne.
  destruct (Asn1.Unmarshal_RawValue b) as [e|[raw rest]] eqn:Hb.
  { by apply ParseLDAPMessage_not_framed in Hb. }
  rewrite (ParseLDAPMessage_envelope b (b ++ s) raw rest (rest ++ s) Hb
             (Asn1Framing.Unmarshal_RawValue_app_r _ _ _ _ Hb)).
  pose proof (LdapFacts.ParseLDAPMessage_framing b) as Hrest.
  destruct (ParseLDAPMessage b) as [[msg rest']|e|m]; [|done..].
  destruct (Hrest msg rest' eq_refl) as [raw' Hraw'].
  rewrite Hb in Hraw'. by injection Hraw' as _ ->.
Qed.

Lemma ParseLDAPMessage_trailing_bytes_witness :
  ParseLDAPMessage (Samples.bind_message ++ [0x30; 0x0c; 0x02])
  = Ok (mkLDAPMessage 1
          (Some (OpBindRequest (mkBindRequest 3 [] (Some (Simple [0x80; 0])))))
          None, [0x30; 0x0c; 0x02]).
Proof.
  refine (ParseLDAPMessage_trailing_bytes Samples.bind_message [0x30; 0x0c; 0x02] _).
  discriminate.
Defined.

(** X6. A successful [ParseLDAPMessage] consumes exactly one element from
    the front of its input: the input is that element followed by the
    returned rest, the element alone parses to the same message with
    nothing left, and it is at least 7 bytes long, so that a caller that
    parses the rest again makes progress. *)
Theorem ParseLDAPMessage_consumes (b : bytes) (msg : LDAPMessage) (rest : bytes) :
  ParseLDAPMessage b = Ok (msg, rest) →
  ∃ m, b = m ++ rest ∧ (7 ≤ length m)%nat ∧ ParseLDAPMessage m = Ok (msg, []).
Proof.
  intros Hp.
  destruct (LdapFacts.ParseLDAPMessage_framing b msg rest Hp) as [raw Hb].
  destruct (Asn1Framing.Unmarshal_RawValue_exact b raw rest Hb) as [Hsplit Hfull].
  exists (Asn1.FullBytes raw). split; [done|]. split.
  - unfold ParseLDAPMessage in Hp. rewrite Hb in Hp.
    cbn [orFail mbind result_bind] in Hp.
    apply LdapFacts.bind_Ok in Hp as ([id r] & Hid & Hp).
    apply LdapFacts.orFail_Ok in Hid.
    apply LdapFacts.bind_Ok in Hp as ([op r'] & Hop & _).
    apply LdapFacts.orFail_Ok in Hop.
    apply Unmarshal_int_length in Hid.
    apply Asn1Facts.Unmarshal_RawValue_length in Hop as [Hop1 Hop2].
    apply Asn1Facts.Unmarshal_RawValue_length in Hb as [Hb1 Hb2]. lia.
  - rewrite (ParseLDAPMessage_envelope b _ raw rest [] Hb Hfull), Hp. done.
Qed.

Lemma ParseLDAPMessage_consumes_witness :
  ∃ m, Samples.bind_message ++ [0x30; 0x0c; 0x02] = m ++ [0x30; 0x0c; 0x02]
       ∧ (7 ≤ length m)%nat
       ∧ ParseLDAPMessage m
         = Ok (mkLDAPMessage 1
                 (Some (OpBindRequest
                          (mkBindRequest 3 [] (Some (Simple [0x80; 0])))))
                 None, []).
Proof.
  exact (ParseLDAPMessage_consumes (Samples.bind_message ++ [0x30; 0x0c; 0x02])
           _ _ eq_refl).
Defined.


(** *** Outcomes of the parsers *)

Lemma ParseAttributeSelection_loop_safe (fuel : nat) :
  ∀ rest attr, (length rest ≤ fuel)%nat →
    ∃ r, ParseAttributeSelection_loop fuel rest attr = Some r
         ∧ protocol_error_only r.
Proof.
  induction fuel as [|fuel IH]; intros [|b rest] attr Hlen;
    try (by eexists); simpl in Hlen; [lia|].
  cbn [ParseAttributeSelection_loop].
  destruct (Asn1.Unmarshal_RawValue (b :: rest)) as [e|[raw rest']] eqn:Hu;
    [by eexists|].
  apply Asn1Facts.Unmarshal_RawValue_length in Hu as [Hu1 Hu2].
  apply IH. simpl in Hu1. lia.
Qed.

Lemma ParseAttributeSelection_safe (b : bytes) :
  protocol_error_only (ParseAttributeSelection b).
Proof.
  unfold ParseAttributeSelection.
  destruct (Asn1.Unmarshal_RawValue b) as [e|[raw rest]]; [done|].
  cbn [orFail mbind result_bind].
  destruct (ParseAttributeSelection_loop_safe
              (length (Asn1.Bytes raw)) (Asn1.Bytes raw) []) as (r & -> & Hr);
    [lia|done].
Qed.

Lemma parseFilters_loop_safe (pf : bytes → option (result Filter)) (fuel : nat) :
  ∀ rest acc, (length rest ≤ fuel)%nat →
    (∀ b, (length b ≤ length rest)%nat →
       ∃ r, pf b = Some r ∧ protocol_error_only r) →
    ∃ r, parseFilters_loop pf fuel rest acc = Some r ∧ protocol_error_only r.
Proof.
  induction fuel as [|fuel IH]; intros [|b rest] acc Hlen Hpf;
    try (by eexists); simpl in Hlen; [lia|].
  cbn [parseFilters_loop].
  destruct (Asn1.Unmarshal_RawValue (b :: rest)) as [e|[raw rest']] eqn:Hu;
    [by eexists|].
  apply Asn1Facts.Unmarshal_RawValue_length in Hu as [Hu1 Hu2].
  simpl in Hu1, Hpf.
  destruct (Hpf (Asn1.FullBytes raw)) as (r & -> & Hr); [lia|].
  destruct r as [f|e|msg]; [|by eexists|done].
  apply IH; [lia|]. intros b' Hb'. apply Hpf. lia.
Qed.

Lemma ParseAnd_safe (pf : bytes → option (result Filter)) (b : bytes) :
  (∀ b', (length b' + 2 ≤ length b)%nat →
     ∃ r, pf b' = Some r ∧ protocol_error_only r) →
  ∃ r, ParseAnd pf b = Some r ∧ protocol_error_only r.
Proof.
  intros Hpf. unfold ParseAnd.
  destruct (Asn1.Unmarshal_RawValue b) as [e|[rawAnd rest]] eqn:Hu; [by eexists|].
  apply Asn1Facts.Unmarshal_RawValue_length in Hu as [Hu1 Hu2].
  apply parseFilters_loop_safe; [lia|].
  intros b' Hb'. apply Hpf. lia.
Qed.

Lemma ParseOr_safe (pf : bytes → option (result Filter)) (b : bytes) :
  (∀ b', (length b' + 2 ≤ length b)%nat →
     ∃ r, pf b' = Some r ∧ protocol_error_only r) →
  ∃ r, ParseOr pf b = Some r ∧ protocol_error_only r.
Proof.
  intros Hpf. unfold ParseOr.
  destruct (Asn1.Unmarshal_RawValue b) as [e|[rawOr rest]] eqn:Hu; [by eexists|].
  apply Asn1Facts.Unmarshal_RawValue_length in Hu as [Hu1 Hu2].
  apply parseFilters_loop_safe; [lia|].
  intros b' Hb'. apply Hpf. lia.
Qed.

Lemma ParseEqualityMatch_safe (b : bytes) :
  protocol_error_only (ParseEqualityMatch b).
Proof.
  unfold ParseEqualityMatch.
  destruct (Asn1.Unmarshal_RawValue b) as [e|[r' ?]]; [done|].
  cbn [orFail mbind result_bind].
  destruct (Asn1.Unmarshal_bytes (Asn1.Bytes r')) as [e|[d r1]]; [done|].
  cbn [orFail mbind result_bind].
  by destruct (Asn1.Unmarshal_bytes r1) as [e|[v r2]].
Qed.

Lemma ParsePresent_safe (b : bytes) : protocol_error_only (ParsePresent b).
Proof.
  unfold ParsePresent.
  by destruct (Asn1.Unmarshal_RawValue b) as [e|[r' ?]].
Qed.

Lemma fmap_safe {A B : Type} (f : A → B) (r : result A) :
  protocol_error_only r → protocol_error_only (f <$> r).
Proof. by destruct r. Qed.

Lemma ParseFilter_depth_safe (depth : nat) :
  ∀ b, (length b < depth)%nat →
    ∃ r, ParseFilter_depth depth b = Some r ∧ protocol_error_only r.
Proof.
  induction depth as [|depth IH]; intros b Hlen; [lia|].
  cbn [ParseFilter_depth].
  destruct (Asn1.Unmarshal_RawValue b) as [e|[raw rest]] eqn:Hu; [by eexists|].
  apply Asn1Facts.Unmarshal_RawValue_length in Hu as [Hu1 Hu2].
  assert (Hrec : ∀ b', (length b' + 2 ≤ length (Asn1.FullBytes raw))%nat →
            ∃ r, ParseFilter_depth depth b' = Some r ∧ protocol_error_only r).
  { intros b' Hb'. apply IH. lia. }
  clear IH. revert Hrec.
  generalize (ParseFilter_depth depth). intros pf Hrec.
  repeat case_match; try (by eexists).
  - destruct (ParseAnd_safe pf _ Hrec) as (r & -> & Hr).
    eexists; split; [done|]. by apply fmap_safe.
  - eexists; split; [done|]. apply fmap_safe, ParsePresent_safe.
  - eexists; split; [done|]. apply fmap_safe, ParseEqualityMatch_safe.
  - destruct (ParseOr_safe pf _ Hrec) as (r & -> & Hr).
    eexists; split; [done|]. by apply fmap_safe.
Qed.

Lemma ParseFilter_safe (b : bytes) : protocol_error_only (ParseFilter b).
Proof.
  unfold ParseFilter.
  destruct (ParseFilter_depth_safe (S (length b)) b) as (r & -> & Hr);
    [lia|done].
Qed.

(** X7. [ParseFilter] comes back on every input, however the And and Or
    elements in it are nested: it does not panic, the nesting bound of the
    recursion is never reached, and every error it returns carries the
    result code ProtocolError. The same holds of
    [ParseAttributeSelection]. *)
Theorem ParseFilter_protocol_error_only (b : bytes) :
  protocol_error_only (ParseFilter b)
  ∧ protocol_error_only (ParseAttributeSelection b)
  ∧ ∃ r, ParseFilter_depth (S (length b)) b = Some r.
Proof.
  split; [apply ParseFilter_safe|]. split; [apply ParseAttributeSelection_safe|].
  destruct (ParseFilter_depth_safe (S (length b)) b) as (r & Hr & _); [lia|].
  by exists r.
Qed.


Lemma negb_eqb_false (x y : Z) : negb (x =? y) = false → x = y.
Proof. intros Hx. apply negb_false_iff in Hx. by apply Z.eqb_eq. Qed.

(** The fields of a SearchRequest after [derefAliases]: no panic is left. *)
Lemma ParseSearchRequest_tail_safe {A : Type} (r3 : bytes)
    (k : Z → Z → bool → Filter → AttributeSelection → result A) :
  (∀ sizeLimit timeLimit typesOnly f attrs,
     protocol_error_only (k sizeLimit timeLimit typesOnly f attrs)) →
  protocol_error_only
    ('(sizeLimit, rest) ←
       orFail (Asn1.Unmarshal_int r3)
         ResultCodeProtocolError "Invalid sizeLimit field";
     '(timeLimit, rest) ←
       orFail (Asn1.Unmarshal_int rest)
         ResultCodeProtocolError "Invalid timeLimit field";
     '(typesOnly, rest) ←
       orFail (Asn1.Unmarshal_bool rest)
         ResultCodeProtocolError "Invalid typesOnly field";
     '(filter, rest) ←
       orFail (Asn1.Unmarshal_RawValue rest)
         ResultCodeProtocolError "Invalid filter field";
     f ← match ParseFilter (Asn1.FullBytes filter) with
         | Ok f => Ok f
         | Err _ => Ok Filter_nil
         | Panic msg => Panic msg
         end;
     '(attributes, rest) ←
       orFail (Asn1.Unmarshal_RawValue rest)
         ResultCodeProtocolError "Invalid attributes field";
     attrs ← ParseAttributeSelection (Asn1.FullBytes attributes);
     k sizeLimit timeLimit typesOnly f attrs).
Proof.
  intros Hk.
  destruct (Asn1.Unmarshal_int r3) as [e|[sizeLimit r4]]; [done|].
  cbn [orFail mbind result_bind].
  destruct (Asn1.Unmarshal_int r4) as [e|[timeLimit r5]]; [done|].
  cbn [orFail mbind result_bind].
  destruct (Asn1.Unmarshal_bool r5) as [e|[typesOnly r6]]; [done|].
  cbn [orFail mbind result_bind].
  destruct (Asn1.Unmarshal_RawValue r6) as [e|[filter r7]]; [done|].
  cbn [orFail mbind result_bind].
  pose proof (ParseFilter_safe (Asn1.FullBytes filter)) as Hf.
  destruct (ParseFilter (Asn1.FullBytes filter)) as [f|e|msg]; [| |done].
  all: cbn [mbind result_bind];
    destruct (Asn1.Unmarshal_RawValue r7) as [e'|[attributes r8]]; [done|];
    cbn [orFail mbind result_bind];
    pose proof (ParseAttributeSelection_safe (Asn1.FullBytes attributes)) as Ha;
    destruct (ParseAttributeSelection (Asn1.FullBytes attributes))
      as [attrs|e'|msg]; [|done..]; cbn [mbind result_bind]; apply Hk.
Qed.

(** X8. The one way to make [ParseSearchRequest] panic: the call panics
    exactly when the input is a well-framed [APPLICATION 3] element whose
    base object decodes and whose scope element, or else whose
    derefAliases element, has no content octets - [Bytes[0]] is read
    without a length test - and the panic is then an index out of range.
    On every other input the call returns. *)
Theorem ParseSearchRequest_panics_iff (b : bytes) (msg : string) :
  ParseSearchRequest b = Panic msg ↔
  msg = "runtime error: index out of range"
  ∧ ∃ rawSequence r0 baseObject r1 scope r2,
      Asn1.Unmarshal_RawValue b = inr (rawSequence, r0)
      ∧ Asn1.Class rawSequence = 1 ∧ Asn1.Tag rawSequence = 3
      ∧ Asn1.Unmarshal_bytes (Asn1.Bytes rawSequence) = inr (baseObject, r1)
      ∧ Asn1.Unmarshal_RawValue r1 = inr (scope, r2)
      ∧ (Asn1.Bytes scope = []
         ∨ ∃ derefAliases r3,
             Asn1.Unmarshal_RawValue r2 = inr (derefAliases, r3)
             ∧ Asn1.Bytes derefAliases = []).
Proof.
  unfold ParseSearchRequest. split.
  - destruct (Asn1.Unmarshal_RawValue b) as [e|[rawSequence r0]] eqn:Hseq; [done|].
    cbn [orFail mbind result_bind].
    destruct (negb (Asn1.Class rawSequence =? _)) eqn:Hclass; [done|].
    destruct (negb (Asn1.Tag rawSequence =? _)) eqn:Htag; [done|].
    apply negb_eqb_false in Hclass, Htag.
    destruct (Asn1.Unmarshal_bytes _) as [e|[baseObject r1]] eqn:Hbase; [done|].
    cbn [orFail mbind result_bind].
    destruct (Asn1.Unmarshal_RawValue r1) as [e|[scope r2]] eqn:Hscope; [done|].
    cbn [orFail mbind result_bind].
    destruct (Asn1.Bytes scope) as [|s tl] eqn:Hs.
    { intros [= <-]. split; [done|].
      exists rawSequence, r0, baseObject, r1, scope, r2. by auto 10. }
    cbn [index0 mbind result_bind].
    destruct (Asn1.Unmarshal_RawValue r2) as [e|[derefAliases r3]] eqn:Hderef;
      [done|].
    cbn [orFail mbind result_bind].
    destruct (Asn1.Bytes derefAliases) as [|d tl'] eqn:Hd.
    { intros [= <-]. split; [done|].
      exists rawSequence, r0, baseObject, r1, scope, r2.
      repeat (split; [done|]). right. by exists derefAliases, r3. }
    cbn [index0 mbind result_bind]. intros Hp.
    assert (Hsafe : protocol_error_only (@Panic SearchRequest msg)); [|done].
    rewrite <- Hp.
    exact (ParseSearchRequest_tail_safe r3
             (fun sizeLimit timeLimit typesOnly f attrs =>
                Ok (mkSearchRequest baseObject s d sizeLimit timeLimit
                      typesOnly f attrs)) ltac:(done)).
  - intros (-> & rawSequence & r0 & baseObject & r1 & scope & r2
            & Hseq & Hclass & Htag & Hbase & Hscope & Hempty).
    rewrite Hseq. cbn [orFail mbind result_bind].
    rewrite Hclass, Htag.
    cbn [SearchRequest_Class SearchRequest_Tag Z.eqb Pos.eqb negb].
    rewrite Hbase. cbn [orFail mbind result_bind].
    rewrite Hscope. cbn [orFail mbind result_bind].
    destruct (Asn1.Bytes scope) as [|s tl] eqn:Hs; [done|].
    destruct Hempty as [?|(derefAliases & r3 & Hderef & Hd)]; [done|].
    cbn [index0 mbind result_bind].
    rewrite Hderef. cbn [orFail mbind result_bind]. by rewrite Hd.
Qed.

(** The outcomes of [ParseSearchRequest]. *)
Lemma ParseSearchRequest_outcome (b : bytes) :
  match ParseSearchRequest b with
  | Ok _ => True
  | Err e => ResultCode e = ResultCodeProtocolError
  | Panic msg => msg = "runtime error: index out of range"
  end.
Proof.
  unfold ParseSearchRequest.
  destruct (Asn1.Unmarshal_RawValue b) as [e|[rawSequence r0]]; [done|].
  cbn [orFail mbind result_bind].
  destruct (negb _); [done|]. destruct (negb _); [done|].
  destruct (Asn1.Unmarshal_bytes _) as [e|[baseObject r1]]; [done|].
  cbn [orFail mbind result_bind].
  destruct (Asn1.Unmarshal_RawValue r1) as [e|[scope r2]]; [done|].
  cbn [orFail mbind result_bind].
  destruct (Asn1.Bytes scope) as [|s tl]; [done|].
  cbn [index0 mbind result_bind].
  destruct (Asn1.Unmarshal_RawValue r2) as [e|[derefAliases r3]]; [done|].
  cbn [orFail mbind result_bind].
  destruct (Asn1.Bytes derefAliases) as [|d tl']; [done|].
  cbn [index0 mbind result_bind].
  pose proof (ParseSearchRequest_tail_safe r3
                (fun sizeLimit timeLimit typesOnly f attrs =>
                   Ok (mkSearchRequest baseObject s d sizeLimit timeLimit
                         typesOnly f attrs)) ltac:(done)) as Hsafe.
  revert Hsafe. unfold protocol_error_only.
  match goal with |- match ?m with _ => _ end → _ => by destruct m end.
Qed.

(** X9. What [ParseLDAPMessage] can come back with: a message whose
    operation is set (never the nil interface); an error that carries
    ProtocolError, or else is exactly OperationsError "Unsupported
    ProtocolOp"; or a panic, which is always the index out of range of the
    SearchRequest parser. No other result code and no other panic leaves
    the envelope parser. *)
Theorem ParseLDAPMessage_outcomes (b : bytes) :
  match ParseLDAPMessage b with
  | Ok (msg, _) => ∃ op, msg_ProtocolOp msg = Some op
  | Err e =>
      ResultCode e = ResultCodeProtocolError
      ∨ e = NewLDAPError ResultCodeOperationsError "Unsupported ProtocolOp"
  | Panic msg => msg = "runtime error: index out of range"
  end.
Proof.
  unfold ParseLDAPMessage.
  destruct (Asn1.Unmarshal_RawValue b) as [e|[rawEnvelope rest]]; [by left|].
  cbn [orFail mbind result_bind].
  destruct (Asn1.Unmarshal_int _) as [e|[messageID r]]; [by left|].
  cbn [orFail mbind result_bind].
  destruct (Asn1.Unmarshal_RawValue r) as [e|[rawProtocolOp r']]; [by left|].
  cbn [orFail mbind result_bind].
  assert (Hop : match
              match Asn1.Tag rawProtocolOp with
              | 0 => OpBindRequest <$> ParseBindRequest (Asn1.FullBytes rawProtocolOp)
              | 1 => OpBindResponse <$> ParseBindResponse (Asn1.FullBytes rawProtocolOp)
              | 3 => OpSearchRequest <$> ParseSearchRequest (Asn1.FullBytes rawProtocolOp)
              | _ => Err (NewLDAPError ResultCodeOperationsError "Unsupported ProtocolOp")
              end
            with
            | Ok _ => True
            | Err e =>
                ResultCode e = ResultCodeProtocolError
                ∨ e = NewLDAPError ResultCodeOperationsError "Unsupported ProtocolOp"
            | Panic msg => msg = "runtime error: index out of range"
            end).
  { pose proof (LdapFacts.ParseBindRequest_error_code (Asn1.FullBytes rawProtocolOp))
      as Hbind.
    pose proof (ParseSearchRequest_outcome (Asn1.FullBytes rawProtocolOp)) as Hsearch.
    destruct (Asn1.Tag rawProtocolOp) as [|[[p|p|]|p|]|p]; try (by right).
    - by destruct (ParseBindRequest _); [|left|].
    - by destruct (ParseSearchRequest _); [|left|].
    - done. }
  revert Hop.
  match goal with |- match ?m with _ => _ end → _ => generalize m end.
  intros op Hop.
  destruct r' as [|x r'].
  - cbn [mbind result_bind]. destruct op; [by eexists|done..].
  - destruct (Asn1.Unmarshal_RawValue (x :: r')) as [e|[c r'']]; [by left|].
    cbn [orFail mbind result_bind]. destruct op; [by eexists|done..].
Qed.


(** *** Filters and attribute lists *)

Lemma ParseFilter_unfold (b : bytes) (raw : Asn1.RawValue) (rest : bytes) :
  Asn1.Unmarshal_RawValue b = inr (raw, rest) →
  ParseFilter b
  = unreachable
      match Asn1.Tag raw with
      | 0 =>
          a ← ParseAnd (ParseFilter_depth (length b)) (Asn1.FullBytes raw);
          Some (fmap (M:=result) And a)
      | 1 =>
          o ← ParseOr (ParseFilter_depth (length b)) (Asn1.FullBytes raw);
          Some (fmap (M:=result) Or o)
      | 3 => Some (EqualityMatch <$> ParseEqualityMatch (Asn1.FullBytes raw))
      | 7 => Some (Present <$> ParsePresent (Asn1.FullBytes raw))
      | 2 | 4 | 5 | 6 | 8 | 9 => Some (Ok Filter_nil)
      | _ => Some (Err (NewLDAPError ResultCodeProtocolError "Invalid tag"))
      end.
Proof.
  intros Hb. unfold ParseFilter. cbn [ParseFilter_depth]. by rewrite Hb.
Qed.

(** X10. [ParseFilter] decodes the BER encoding of an equality match: an
    element with tag 3 whose content is the attribute description and the
    assertion value, each as an OCTET STRING, is returned as the
    EqualityMatch of exactly these two strings. The class and the
    constructed bit of the element are not looked at, and bytes after the
    element are ignored. *)
Theorem ParseFilter_equalityMatch (class : Z) (comp : bool)
    (desc value rest : bytes) :
  0 ≤ class ≤ 3 →
  Z.of_nat (length (Asn1.Marshal_bytes desc ++ Asn1.Marshal_bytes value)) < 2 ^ 31 →
  ParseFilter
    (Asn1.encode class 3 comp
       (Asn1.Marshal_bytes desc ++ Asn1.Marshal_bytes value) ++ rest)
  = Ok (EqualityMatch (mkAttributeValueAssertion desc value)).
Proof.
  intros Hclass Hlen.
  pose proof (length_Marshal_bytes desc) as Hd.
  pose proof (length_Marshal_bytes value) as Hv.
  rewrite length_app in Hlen.
  assert (Hbody : Z.of_nat (length (Asn1.Marshal_bytes desc
                                      ++ Asn1.Marshal_bytes value)) < 2 ^ 31)
    by (rewrite length_app; lia).
  rewrite (ParseFilter_unfold _ _ _
             (Asn1Codec.Unmarshal_RawValue_encode class 3 comp _ rest
                Hclass ltac:(lia) Hbody)).
  cbn [Asn1.Tag Asn1.FullBytes unreachable]. unfold ParseEqualityMatch.
  rewrite Unmarshal_RawValue_encode_nil by (done || lia).
  cbn [orFail mbind result_bind Asn1.Bytes].
  rewrite Asn1Codec.Unmarshal_bytes_Marshal_bytes by lia.
  cbn [orFail mbind result_bind].
  rewrite <- (app_nil_r (Asn1.Marshal_bytes value)).
  by rewrite Asn1Codec.Unmarshal_bytes_Marshal_bytes by lia.
Qed.

Lemma ParseFilter_equalityMatch_witness :
  ParseFilter [0xa3; 0x0a; 0x04; 0x02; 0x63; 0x6e; 0x04; 0x04; 0x6d; 0x61; 0x72; 0x6b]
  = Ok (EqualityMatch
          (mkAttributeValueAssertion [0x63; 0x6e] [0x6d; 0x61; 0x72; 0x6b])).
Proof.
  refine (ParseFilter_equalityMatch 2 true [0x63; 0x6e] [0x6d; 0x61; 0x72; 0x6b] []
            _ eq_refl). lia.
Defined.

(** X11. [ParseFilter] decodes a presence filter: an element with tag 7
    is returned as the Present filter of its content octets, whatever its
    class and constructed bit, and whatever follows it. *)
Theorem ParseFilter_present (class : Z) (comp : bool) (desc rest : bytes) :
  0 ≤ class ≤ 3 → Z.of_nat (length desc) < 2 ^ 31 →
  ParseFilter (Asn1.encode class 7 comp desc ++ rest) = Ok (Present desc).
Proof.
  intros Hclass Hlen.
  rewrite (ParseFilter_unfold _ _ _
             (Asn1Codec.Unmarshal_RawValue_encode class 7 comp _ rest
                Hclass ltac:(lia) Hlen)).
  cbn [Asn1.Tag Asn1.FullBytes unreachable]. unfold ParsePresent.
  by rewrite Unmarshal_RawValue_encode_nil by (done || lia).
Qed.

Lemma ParseFilter_present_witness :
  ParseFilter [0x87; 0x02; 0x63; 0x6e; 0xff] = Ok (Present [0x63; 0x6e]).
Proof.
  refine (ParseFilter_present 2 false [0x63; 0x6e] [0xff] _ eq_refl). lia.
Defined.

(** A deeper nesting bound does not change a result. *)
Lemma parseFilters_loop_mono (pf pf' : bytes → option (result Filter)) :
  (∀ b r, pf b = Some r → pf' b = Some r) →
  ∀ fuel rest acc r,
    parseFilters_loop pf fuel rest acc = Some r →
    parseFilters_loop pf' fuel rest acc = Some r.
Proof.
  intros Hpf. induction fuel as [|fuel IH]; intros [|x rest] acc r; try done.
  cbn [parseFilters_loop].
  destruct (Asn1.Unmarshal_RawValue (x :: rest)) as [e|[raw rest']]; [done|].
  destruct (pf (Asn1.FullBytes raw)) as [[f|e|msg]|] eqn:Hf; [| | |done].
  - rewrite (Hpf _ _ Hf). apply IH.
  - by rewrite (Hpf _ _ Hf).
  - by rewrite (Hpf _ _ Hf).
Qed.

Lemma ParseFilter_depth_step (depth : nat) (b : bytes) :
  ParseFilter_depth (S depth) b
  = match Asn1.Unmarshal_RawValue b with
    | inl _ => Some (Err (NewLDAPError ResultCodeProtocolError "Invalid sequence"))
    | inr (rawSequence, _) =>
        match Asn1.Tag rawSequence with
        | 0 =>
            a ← ParseAnd (ParseFilter_depth depth) (Asn1.FullBytes rawSequence);
            Some (fmap (M:=result) And a)
        | 1 =>
            o ← ParseOr (ParseFilter_depth depth) (Asn1.FullBytes rawSequence);
            Some (fmap (M:=result) Or o)
        | 3 =>
            Some (EqualityMatch <$> ParseEqualityMatch (Asn1.FullBytes rawSequence))
        | 7 => Some (Present <$> ParsePresent (Asn1.FullBytes rawSequence))
        | 2 | 4 | 5 | 6 | 8 | 9 => Some (Ok Filter_nil)
        | _ => Some (Err (NewLDAPError ResultCodeProtocolError "Invalid tag"))
        end
    end.
Proof. reflexivity. Qed.

Lemma ParseFilter_depth_S (depth : nat) :
  ∀ b r, ParseFilter_depth depth b = Some r →
         ParseFilter_depth (S depth) b = Some r.
Proof.
  induction depth as [|depth IH]; intros b r; [done|].
  pose proof (parseFilters_loop_mono _ _ IH) as Hloop.
  rewrite (ParseFilter_depth_step (S depth)), (ParseFilter_depth_step depth).
  revert Hloop.
  generalize (ParseFilter_depth (S depth)), (ParseFilter_depth depth).
  intros pf' pf Hloop.
  destruct (Asn1.Unmarshal_RawValue b) as [e|[raw rest]]; [done|].
  destruct (Asn1.Tag raw) as [|[[p|p|]|p|]|p]; try done.
  - unfold ParseAnd.
    destruct (Asn1.Unmarshal_RawValue (Asn1.FullBytes raw)) as [e|[rawAnd r']];
      [done|].
    destruct (parseFilters_loop pf _ _ _) as [a|] eqn:Ha; [|done].
    by rewrite (Hloop _ _ _ _ Ha).
  - unfold ParseOr.
    destruct (Asn1.Unmarshal_RawValue (Asn1.FullBytes raw)) as [e|[rawOr r']];
      [done|].
    destruct (parseFilters_loop pf _ _ _) as [o|] eqn:Ho; [|done].
    by rewrite (Hloop _ _ _ _ Ho).
Qed.

Lemma ParseFilter_depth_le (depth depth' : nat) (b : bytes) (r : result Filter) :
  (depth ≤ depth')%nat →
  ParseFilter_depth depth b = Some r → ParseFilter_depth depth' b = Some r.
Proof.
  induction 1 as [|depth' Hle IH]; [done|].
  intros Hr. by apply ParseFilter_depth_S, IH.
Qed.

Lemma ParseFilter_depth_Ok (depth : nat) (b : bytes) (f : Filter) :
  ParseFilter b = Ok f → (length b < depth)%nat →
  ParseFilter_depth depth b = Some (Ok f).
Proof.
  unfold ParseFilter. intros Hf Hlen.
  destruct (LdapFacts.ParseFilter_depth_returns (S (length b)) b)
    as (r & Hr & _); [lia|].
  rewrite Hr in Hf. cbn [unreachable] in Hf. subst r.
  apply (ParseFilter_depth_le (S (length b))); [lia|done].
Qed.

(** The loop of [ParseAnd] and [ParseOr] over a concatenation of
    elements. *)
Lemma parseFilters_loop_concat (pf : bytes → option (result Filter))
    (es : list bytes) (fs : list Filter) :
  Forall2 (fun e f => pf e = Some (Ok f)
                      ∧ ∃ raw, Asn1.Unmarshal_RawValue e = inr (raw, [])) es fs →
  ∀ fuel acc, (length (concat es) ≤ fuel)%nat →
    parseFilters_loop pf fuel (concat es) acc = Some (Ok (acc ++ fs)).
Proof.
  induction 1 as [|e f es fs [Hpf [raw He]] Hrest IH]; intros fuel acc Hfuel.
  - cbn [concat]. rewrite app_nil_r. by destruct fuel.
  - cbn [concat] in *. rewrite length_app in Hfuel.
    pose proof (Asn1Facts.Unmarshal_RawValue_length _ _ _ He) as [Hl1 Hl2].
    destruct (Asn1Framing.Unmarshal_RawValue_exact _ _ _ He) as [Hfull _].
    rewrite app_nil_r in Hfull.
    pose proof (Asn1Framing.Unmarshal_RawValue_app_r _ (concat es) _ _ He) as Hu.
    destruct fuel as [|fuel]; [lia|].
    destruct (e ++ concat es) as [|x l] eqn:Hx.
    { apply (f_equal length) in Hx. rewrite length_app in Hx. simpl in Hx. lia. }
    cbn [parseFilters_loop]. rewrite Hu. rewrite <- Hfull, Hpf.
    cbn [app]. rewrite IH by lia. by rewrite <- app_assoc.
Qed.

Lemma Forall2_ParseFilter_depth (es : list bytes) (fs : list Filter) :
  Forall2 (fun e f => ParseFilter e = Ok f
                      ∧ ∃ raw, Asn1.Unmarshal_RawValue e = inr (raw, [])) es fs →
  ∀ depth, (length (concat es) < depth)%nat →
    Forall2 (fun e f => ParseFilter_depth depth e = Some (Ok f)
                        ∧ ∃ raw, Asn1.Unmarshal_RawValue e = inr (raw, [])) es fs.
Proof.
  induction 1 as [|e f es fs [Hf He] Hrest IH]; intros depth Hdepth;
    constructor.
  - cbn [concat] in Hdepth. rewrite length_app in Hdepth.
    split; [|done]. apply ParseFilter_depth_Ok; [done|lia].
  - apply IH. cbn [concat] in Hdepth. rewrite length_app in Hdepth. lia.
Qed.

(** X12. [ParseFilter] is compositional on And and Or: when each of the
    elements [es] is one complete element that [ParseFilter] decodes to
    the corresponding filter of [fs], the element with tag 0 whose content
    is their concatenation decodes to the And of [fs], and the one with
    tag 1 to the Or of [fs], in the same order, at any depth of nesting. *)
Theorem ParseFilter_and_or (class : Z) (comp : bool) (es : list bytes)
    (fs : list Filter) (rest : bytes) :
  0 ≤ class ≤ 3 → Z.of_nat (length (concat es)) < 2 ^ 31 →
  Forall2 (fun e f => ParseFilter e = Ok f
                      ∧ ∃ raw, Asn1.Unmarshal_RawValue e = inr (raw, [])) es fs →
  ParseFilter (Asn1.encode class 0 comp (concat es) ++ rest) = Ok (And fs)
  ∧ ParseFilter (Asn1.encode class 1 comp (concat es) ++ rest) = Ok (Or fs).
Proof.
  intros Hclass Hlen Hes.
  assert (Hloop : ∀ tag, 0 ≤ tag < 31 →
            parseFilters_loop
              (ParseFilter_depth
                 (length (Asn1.encode class tag comp (concat es) ++ rest)))
              (length (concat es)) (concat es) []
            = Some (Ok fs)).
  { intros tag Htag.
    apply (parseFilters_loop_concat _ es fs); [|done].
    apply Forall2_ParseFilter_depth; [done|].
    pose proof (Asn1Codec.length_encode class tag comp (concat es) Htag Hlen).
    rewrite length_app. lia. }
  split.
  - rewrite (ParseFilter_unfold _ _ _
               (Asn1Codec.Unmarshal_RawValue_encode class 0 comp _ rest
                  Hclass ltac:(lia) Hlen)).
    cbn [Asn1.Tag Asn1.FullBytes]. unfold ParseAnd.
    rewrite Unmarshal_RawValue_encode_nil by (done || lia).
    cbn [Asn1.Bytes]. by rewrite Hloop by lia.
  - rewrite (ParseFilter_unfold _ _ _
               (Asn1Codec.Unmarshal_RawValue_encode class 1 comp _ rest
                  Hclass ltac:(lia) Hlen)).
    cbn [Asn1.Tag Asn1.FullBytes]. unfold ParseOr.
    rewrite Unmarshal_RawValue_encode_nil by (done || lia).
    cbn [Asn1.Bytes]. by rewrite Hloop by lia.
Qed.

Lemma ParseFilter_and_or_witness :
  ParseFilter
    [0xa0; 0x0c; 0x87; 0x02; 0x63; 0x6e;
     0xa3; 0x06; 0x04; 0x01; 0x61; 0x04; 0x01; 0x62]
  = Ok (And [Present [0x63; 0x6e];
             EqualityMatch (mkAttributeValueAssertion [0x61] [0x62])])
  ∧ ParseFilter
      [0xa1; 0x0c; 0x87; 0x02; 0x63; 0x6e;
       0xa3; 0x06; 0x04; 0x01; 0x61; 0x04; 0x01; 0x62]
    = Ok (Or [Present [0x63; 0x6e];
              EqualityMatch (mkAttributeValueAssertion [0x61] [0x62])]).
Proof.
  refine (ParseFilter_and_or 2 true
            [[0x87; 0x02; 0x63; 0x6e];
             [0xa3; 0x06; 0x04; 0x01; 0x61; 0x04; 0x01; 0x62]]
            [Present [0x63; 0x6e];
             EqualityMatch (mkAttributeValueAssertion [0x61] [0x62])]
            [] _ eq_refl _); [lia|].
  repeat constructor; by eexists.
Defined.


Lemma ParseAttributeSelection_loop_concat (attrs : list bytes) :
  Z.of_nat (length (concat (map Asn1.Marshal_bytes attrs))) < 2 ^ 31 →
  ∀ fuel acc,
    (length (concat (map Asn1.Marshal_bytes attrs)) ≤ fuel)%nat →
    ParseAttributeSelection_loop fuel (concat (map Asn1.Marshal_bytes attrs)) acc
    = Some (Ok (acc ++ attrs)).
Proof.
  induction attrs as [|a attrs IH]; intros Hlen fuel acc Hfuel.
  - cbn [map concat]. rewrite app_nil_r. by destruct fuel.
  - cbn [map concat] in *. rewrite length_app in Hlen, Hfuel.
    pose proof (length_Marshal_bytes a) as Ha.
    assert (Ha' : Z.of_nat (length a) < 2 ^ 31) by (clear IH; lia).
    pose proof (Asn1Codec.length_encode 0 4 false a ltac:(lia) Ha') as Hhdr.
    change (Asn1.encode 0 4 false a) with (Asn1.Marshal_bytes a) in Hhdr.
    pose proof (Asn1Codec.Unmarshal_RawValue_encode 0 4 false a
                  (concat (map Asn1.Marshal_bytes attrs))
                  ltac:(lia) ltac:(lia) Ha') as Hu.
    change (Asn1.encode 0 4 false a) with (Asn1.Marshal_bytes a) in Hu.
    destruct fuel as [|fuel]; [clear IH; lia|].
    destruct (Asn1.Marshal_bytes a ++ _) as [|x l] eqn:Hx.
    { apply (f_equal length) in Hx. rewrite length_app in Hx. simpl in Hx. lia. }
    cbn [ParseAttributeSelection_loop]. rewrite Hu. cbn [Asn1.Bytes].
    rewrite IH by (clear IH; lia). by rewrite <- app_assoc.
Qed.

(** X13. [ParseAttributeSelection] decodes an encoded attribute list: an
    element whose content is the concatenation of the attribute names,
    each written by [asn1.Marshal] as an OCTET STRING, is returned as the
    list of these names, in order and with repetitions kept. The class
    and tag of the enclosing element are not looked at, and bytes after it
    are ignored. *)
Theorem ParseAttributeSelection_encoded (class tag : Z) (comp : bool)
    (attrs : list bytes) (rest : bytes) :
  0 ≤ class ≤ 3 → 0 ≤ tag < 31 →
  Z.of_nat (length (concat (map Asn1.Marshal_bytes attrs))) < 2 ^ 31 →
  ParseAttributeSelection
    (Asn1.encode class tag comp (concat (map Asn1.Marshal_bytes attrs)) ++ rest)
  = Ok attrs.
Proof.
  intros Hclass Htag Hlen. unfold ParseAttributeSelection.
  rewrite Asn1Codec.Unmarshal_RawValue_encode by done.
  cbn [orFail mbind result_bind Asn1.Bytes].
  by rewrite ParseAttributeSelection_loop_concat.
Qed.

Lemma ParseAttributeSelection_encoded_witness :
  ParseAttributeSelection
    [0x30; 0x0b; 0x04; 0x02; 0x63; 0x6e; 0x04; 0x05; 0x65; 0x6d; 0x61; 0x69; 0x6c]
  = Ok [[0x63; 0x6e]; [0x65; 0x6d; 0x61; 0x69; 0x6c]].
Proof.
  refine (ParseAttributeSelection_encoded 0 16 true
            [[0x63; 0x6e]; [0x65; 0x6d; 0x61; 0x69; 0x6c]] [] _ _ eq_refl); lia.
Defined.

(** *** Messages written by [LDAPMessage.Bytes] *)

(** [ParseLDAPMessage] on an envelope around the message ID [id] and the
    complete element [opb]. *)
Lemma ParseLDAPMessage_encoded (id : Z) (opb : bytes) (rawProtocolOp : Asn1.RawValue) :
  0 ≤ id < 2 ^ 31 →
  Asn1.Unmarshal_RawValue opb = inr (rawProtocolOp, []) →
  Z.of_nat (length (Asn1.Marshal_int id ++ opb)) < 2 ^ 31 →
  ParseLDAPMessage (Asn1.encode 0 16 true (Asn1.Marshal_int id ++ opb))
  = op ← match Asn1.Tag rawProtocolOp with
         | 0 => OpBindRequest <$> ParseBindRequest (Asn1.FullBytes rawProtocolOp)
         | 1 => OpBindResponse <$> ParseBindResponse (Asn1.FullBytes rawProtocolOp)
         | 3 => OpSearchRequest <$> ParseSearchRequest (Asn1.FullBytes rawProtocolOp)
         | _ => Err (NewLDAPError ResultCodeOperationsError "Unsupported ProtocolOp")
         end;
    Ok (mkLDAPMessage id (Some op) None, []).
Proof.
  intros Hid Hop Hlen. unfold ParseLDAPMessage.
  rewrite Unmarshal_RawValue_encode_nil by (done || lia).
  cbn [orFail mbind result_bind Asn1.Bytes].
  rewrite Asn1Codec.Unmarshal_int_Marshal_int by done.
  cbn [orFail mbind result_bind]. rewrite Hop. done.
Qed.

Lemma LDAPMessage_Bytes_encode (id : Z) (op : option ProtocolOp)
    (ctrl : option Controls) (opb : bytes) :
  ProtocolOp_Bytes op = Ok opb →
  LDAPMessage_Bytes (mkLDAPMessage id op ctrl)
  = Ok (Asn1.encode 0 16 true (Asn1.Marshal_int id ++ opb)).
Proof. intros Hop. unfold LDAPMessage_Bytes. cbn [msg_ProtocolOp]. by rewrite Hop. Qed.

(** X14. A version-3 bind request sent through the envelope:
    [ParseLDAPMessage] reads what [LDAPMessage.Bytes] has written as one
    message with nothing left over, with the same message ID and name;
    the controls of the message are gone, a simple password comes back as
    the whole of its authentication element, and SASL credentials come
    back as a nil [Authentication]. *)
Theorem LDAPMessage_bind_reparsed (id : Z) (name : bytes)
    (a : AuthenticationChoice) (ctrl : option Controls) (b : bytes) :
  0 ≤ id < 2 ^ 31 →
  LDAPMessage_Bytes
    (mkLDAPMessage id (Some (OpBindRequest (mkBindRequest 3 name (Some a)))) ctrl)
  = Ok b →
  Z.of_nat (length b) < 2 ^ 31 →
  ParseLDAPMessage b
  = Ok (mkLDAPMessage id
          (Some (OpBindRequest
                   (mkBindRequest 3 name
                      match a with
                      | Simple s => Some (Simple (Simple_Bytes s))
                      | Sasl _ => None
                      end)))
          None, []).
Proof.
  intros Hid Hb Hlen.
  rewrite (LDAPMessage_Bytes_encode id
             (Some (OpBindRequest (mkBindRequest 3 name (Some a)))) ctrl _
             (BindRequest_Bytes_encode 3 name a)) in Hb.
  apply Ok_inj in Hb. subst b.
  pose proof (length_encode_body 0 16 true
                (Asn1.Marshal_int id
                   ++ Asn1.encode 1 0 true
                        (Asn1.Marshal_int 3 ++ Asn1.Marshal_bytes name
                           ++ AuthenticationChoice_Bytes a))) as Hbody.
  pose proof Hbody as Hop. rewrite length_app in Hop.
  pose proof (length_encode_body 1 0 true
                (Asn1.Marshal_int 3 ++ Asn1.Marshal_bytes name
                   ++ AuthenticationChoice_Bytes a)) as Hreq.
  assert (Hreqlen : Z.of_nat (length (Asn1.Marshal_int 3 ++ Asn1.Marshal_bytes name
                                        ++ AuthenticationChoice_Bytes a)) < 2 ^ 31)
    by lia.
  rewrite (ParseLDAPMessage_encoded id _ _ Hid
             (Unmarshal_RawValue_encode_nil 1 0 true _ ltac:(lia) ltac:(lia)
                Hreqlen)) by lia.
  cbn [Asn1.Tag Asn1.FullBytes].
  rewrite (ParseBindRequest_BindRequest_Bytes 3 name a _ ltac:(lia)
             (BindRequest_Bytes_encode 3 name a)) by lia.
  done.
Qed.

Lemma LDAPMessage_bind_reparsed_witness :
  ParseLDAPMessage
    [0x30; 0x10; 0x02; 0x01; 0x07;
     0x60; 0x0b; 0x02; 0x01; 0x03; 0x04; 0x01; 0x64; 0x80; 0x03; 0x61; 0x62; 0x63]
  = Ok (mkLDAPMessage 7
          (Some (OpBindRequest
                   (mkBindRequest 3 [0x64]
                      (Some (Simple [0x80; 0x03; 0x61; 0x62; 0x63])))))
          None, []).
Proof.
  refine (LDAPMessage_bind_reparsed 7 [0x64] (Simple [0x61; 0x62; 0x63])
            (Some [mkControl [0x31] true []]) _ _ eq_refl eq_refl). lia.
Defined.

(** X15. A message that carries a BindResponse cannot be read back:
    [BindResponse.Bytes] writes a universal SEQUENCE (tag 16) and not
    [APPLICATION 1], so [ParseLDAPMessage] refuses every such message that
    [LDAPMessage.Bytes] produces with OperationsError "Unsupported
    ProtocolOp". *)
Theorem LDAPMessage_bind_response_refused (id : Z) (res : BindResponse)
    (ctrl : option Controls) (b : bytes) :
  0 ≤ id < 2 ^ 31 →
  LDAPMessage_Bytes (mkLDAPMessage id (Some (OpBindResponse (Some res))) ctrl)
  = Ok b →
  Z.of_nat (length b) < 2 ^ 31 →
  ParseLDAPMessage b
  = Err (NewLDAPError ResultCodeOperationsError "Unsupported ProtocolOp").
Proof.
  intros Hid Hb Hlen.
  rewrite (LDAPMessage_Bytes_encode id (Some (OpBindResponse (Some res))) ctrl
             (BindResponse_Bytes res) eq_refl) in Hb.
  apply Ok_inj in Hb. subst b.
  change (BindResponse_Bytes res)
    with (Asn1.encode 0 16 true
            (LDAPResult_bytes (br_LDAPResult res)
               ++ Asn1.Marshal_bytes (ServerSaslCreds res))) in *.
  pose proof (length_encode_body 0 16 true
                (Asn1.Marshal_int id
                   ++ Asn1.encode 0 16 true
                        (LDAPResult_bytes (br_LDAPResult res)
                           ++ Asn1.Marshal_bytes (ServerSaslCreds res)))) as Hbody.
  pose proof Hbody as Hop. rewrite length_app in Hop.
  pose proof (length_encode_body 0 16 true
                (LDAPResult_bytes (br_LDAPResult res)
                   ++ Asn1.Marshal_bytes (ServerSaslCreds res))) as Hres.
  assert (Hreslen : Z.of_nat (length (LDAPResult_bytes (br_LDAPResult res)
                                        ++ Asn1.Marshal_bytes (ServerSaslCreds res)))
                    < 2 ^ 31) by lia.
  by rewrite (ParseLDAPMessage_encoded id _ _ Hid
                (Unmarshal_RawValue_encode_nil 0 16 true _ ltac:(lia) ltac:(lia)
                   Hreslen)) by lia.
Qed.

Lemma LDAPMessage_bind_response_refused_witness :
  ParseLDAPMessage
    [0x30; 0x0e; 0x02; 0x01; 0x07;
     0x30; 0x09; 0x02; 0x01; 0x00; 0x04; 0x00; 0x04; 0x00; 0x04; 0x00]
  = Err (NewLDAPError ResultCodeOperationsError "Unsupported ProtocolOp").
Proof.
  refine (LDAPMessage_bind_response_refused 7
            (mkBindResponse (mkLDAPResult 0 [] [] None) []) None _ _
            eq_refl eq_refl). lia.
Defined.

(** X16. A message that carries a SearchRequest cannot be read back
    either: [SearchRequest.Bytes] returns no bytes, so the envelope that
    [LDAPMessage.Bytes] writes holds the message ID alone, and
    [ParseLDAPMessage] refuses it with ProtocolError "Invalid ProtocolOp",
    whatever the request was. *)
Theorem LDAPMessage_search_request_refused (id : Z) (req : SearchRequest)
    (ctrl : option Controls) (b : bytes) :
  0 ≤ id < 2 ^ 31 →
  LDAPMessage_Bytes (mkLDAPMessage id (Some (OpSearchRequest req)) ctrl) = Ok b →
  ParseLDAPMessage b
  = Err (NewLDAPError ResultCodeProtocolError "Invalid ProtocolOp").
Proof.
  intros Hid Hb.
  rewrite (LDAPMessage_Bytes_encode id (Some (OpSearchRequest req)) ctrl []
             eq_refl) in Hb.
  apply Ok_inj in Hb. subst b. rewrite app_nil_r.
  pose proof (Asn1Codec.length_int64_Encode id Hid) as Hlen.
  pose proof (Asn1Codec.length_encode 0 2 false (Asn1.int64_Encode id)
                ltac:(lia) ltac:(lia)) as Hint.
  change (Asn1.encode 0 2 false (Asn1.int64_Encode id))
    with (Asn1.Marshal_int id) in Hint.
  unfold ParseLDAPMessage.
  rewrite Unmarshal_RawValue_encode_nil by lia.
  cbn [orFail mbind result_bind Asn1.Bytes].
  rewrite <- (app_nil_r (Asn1.Marshal_int id)).
  by rewrite Asn1Codec.Unmarshal_int_Marshal_int by done.
Qed.

Lemma LDAPMessage_search_request_refused_witness :
  ParseLDAPMessage [0x30; 0x03; 0x02; 0x01; 0x07]
  = Err (NewLDAPError ResultCodeProtocolError "Invalid ProtocolOp").
Proof.
  refine (LDAPMessage_search_request_refused 7
            (mkSearchRequest [0x64] 2 0 0 0 false (Present [0x63; 0x6e]) [])
            None _ _ eq_refl). lia.
Defined.

End LdapCodec.

(** ** The reader of request.go and the default handler of server.go *)
Module LdapServerFacts.
Import Ldap LdapServer.

(** [parseBindRequest] on the content that [BindRequest.Bytes] writes. *)
Lemma parseBindRequest_content (v : Z) (name authb : bytes)
    (auth : Asn1.RawValue) (rest : bytes) :
  0 ≤ v < 2 ^ 31 → Z.of_nat (length name) < 2 ^ 31 →
  Asn1.Unmarshal_RawValue authb = inr (auth, rest) →
  parseBindRequest (Asn1.Marshal_int v ++ Asn1.Marshal_bytes name ++ authb)
  = match Asn1.Tag auth with
    | 0 => Ok (mkBindRequest v name (Some (Simple (Asn1.Bytes auth))))
    | 3 =>
        '(mechanism, rest) ←
          orFail (Asn1.Unmarshal_bytes (Asn1.Bytes auth))
            ResultCodeProtocolError "Invalid Mechanism";
        '(credentials, rest) ←
          orFail (Asn1.Unmarshal_bytes rest)
            ResultCodeProtocolError "Invalid Credentials";
        Ok (mkBindRequest v name
              (Some (Sasl (mkSaslCredentials mechanism credentials))))
    | _ => Ok (mkBindRequest v name None)
    end.
Proof.
  intros Hv Hname Hauth. unfold parseBindRequest.
  rewrite Asn1Codec.Unmarshal_int_Marshal_int by done.
  cbn [orFail mbind result_bind].
  rewrite Asn1Codec.Unmarshal_bytes_Marshal_bytes by done.
  cbn [orFail mbind result_bind]. rewrite Hauth. done.
Qed.

(** X17. The older parser of request.go does round-trip a simple bind:
    on the content octets that [BindRequest.Bytes] writes for a version,
    a name and a simple password, [parseBindRequest] returns exactly that
    version, name and password, for every version from 0 to maxInt - it
    stores the content of the authentication element, where
    [ParseBindRequest] stores the whole element, and it has no version
    test. *)
Theorem parseBindRequest_roundtrip (v : Z) (name s rest : bytes) :
  0 ≤ v < 2 ^ 31 →
  Z.of_nat (length name) < 2 ^ 31 → Z.of_nat (length s) < 2 ^ 31 →
  parseBindRequest
    (Asn1.Marshal_int v ++ Asn1.Marshal_bytes name ++ Simple_Bytes s ++ rest)
  = Ok (mkBindRequest v name (Some (Simple s))).
Proof.
  intros Hv Hname Hs. rewrite LdapCodec.Simple_Bytes_encode.
  rewrite (parseBindRequest_content v name _ _ rest Hv Hname
             (Asn1Codec.Unmarshal_RawValue_encode 2 0 false s rest
                ltac:(lia) ltac:(lia) Hs)).
  done.
Qed.

Lemma parseBindRequest_roundtrip_witness :
  parseBindRequest [0x02; 0x01; 0x02; 0x04; 0x01; 0x64; 0x80; 0x02; 0x70; 0x77]
  = Ok (mkBindRequest 2 [0x64] (Some (Simple [0x70; 0x77]))).
Proof.
  refine (parseBindRequest_roundtrip 2 [0x64] [0x70; 0x77] [] _ eq_refl eq_refl).
  lia.
Defined.

(** [readRequest] on an envelope around the message ID [id] and one
    element, with nothing after it. *)
Lemma readRequest_encoded (id class tag : Z) (comp : bool) (content : bytes) :
  0 ≤ id < 2 ^ 31 → 0 ≤ class ≤ 3 → 0 ≤ tag < 31 →
  Z.of_nat (length (Asn1.Marshal_int id
                      ++ Asn1.encode class tag comp content)) < 2 ^ 31 →
  readRequest
    (Asn1.encode 0 16 true
       (Asn1.Marshal_int id ++ Asn1.encode class tag comp content))
  = if class =? 1 then
      (fun bindReq =>
         mkRequest (mkLDAPMessage id (Some (OpBindRequest bindReq)) None) "" None)
        <$> parseBindRequest content
    else Err (NewLDAPError ResultCodeOperationsError "Unsupported ProtocolOp").
Proof.
  intros Hid Hclass Htag Hlen. unfold readRequest.
  pose proof (LdapCodec.length_encode_body class tag comp content) as Hc.
  rewrite length_app in Hlen.
  rewrite LdapCodec.Unmarshal_RawValue_encode_nil
    by (try rewrite length_app; lia).
  cbn [orFail mbind result_bind Asn1.Bytes].
  rewrite Asn1Codec.Unmarshal_int_Marshal_int by done.
  cbn [orFail mbind result_bind].
  rewrite LdapCodec.Unmarshal_RawValue_encode_nil by lia.
  cbn [orFail mbind result_bind Asn1.Class Asn1.Bytes].
  destruct class as [|[p|p|]|p]; done.
Qed.

(** X18. The reader of request.go round-trips a simple bind through the
    envelope: for a message that fits the 2048-byte read buffer,
    [readRequest] returns, from the bytes that [LDAPMessage.Bytes] wrote,
    the same message ID, version, name and password; only the controls
    are not kept. *)
Theorem readRequest_roundtrip (id v : Z) (name s : bytes)
    (ctrl : option Controls) (b : bytes) :
  0 ≤ id < 2 ^ 31 → 0 ≤ v < 2 ^ 31 →
  LDAPMessage_Bytes
    (mkLDAPMessage id
       (Some (OpBindRequest (mkBindRequest v name (Some (Simple s))))) ctrl)
  = Ok b →
  (length b ≤ 2048)%nat →
  readRequest b
  = Ok (mkRequest
          (mkLDAPMessage id
             (Some (OpBindRequest (mkBindRequest v name (Some (Simple s))))) None)
          "" None).
Proof.
  intros Hid Hv Hb Hlen.
  rewrite (LdapCodec.LDAPMessage_Bytes_encode id
             (Some (OpBindRequest (mkBindRequest v name (Some (Simple s))))) ctrl _
             (LdapCodec.BindRequest_Bytes_encode v name (Simple s))) in Hb.
  apply LdapCodec.Ok_inj in Hb. subst b.
  cbn [AuthenticationChoice_Bytes] in *.
  pose proof (LdapCodec.length_encode_body 0 16 true
                (Asn1.Marshal_int id
                   ++ Asn1.encode 1 0 true
                        (Asn1.Marshal_int v ++ Asn1.Marshal_bytes name
                           ++ Simple_Bytes s))) as Hbody.
  pose proof Hbody as Hop. rewrite length_app in Hop.
  pose proof (LdapCodec.length_encode_body 1 0 true
                (Asn1.Marshal_int v ++ Asn1.Marshal_bytes name
                   ++ Simple_Bytes s)) as Hreq.
  rewrite !length_app in Hreq.
  pose proof (LdapCodec.length_Marshal_bytes name) as Hname.
  pose proof (LdapCodec.length_encode_body 2 0 false s) as Hs.
  change (Asn1.encode 2 0 false s) with (Simple_Bytes s) in Hs.
  rewrite readRequest_encoded by lia. cbn [Z.eqb Pos.eqb].
  rewrite <- (app_nil_r (Simple_Bytes s)).
  by rewrite parseBindRequest_roundtrip by lia.
Qed.

Lemma readRequest_roundtrip_witness :
  readRequest
    [0x30; 0x0f; 0x02; 0x01; 0x07;
     0x60; 0x0a; 0x02; 0x01; 0x02; 0x04; 0x01; 0x64; 0x80; 0x02; 0x70; 0x77]
  = Ok (mkRequest
          (mkLDAPMessage 7
             (Some (OpBindRequest
                      (mkBindRequest 2 [0x64] (Some (Simple [0x70; 0x77])))))
             None)
          "" None).
Proof.
  refine (readRequest_roundtrip 7 2 [0x64] [0x70; 0x77]
            (Some [mkControl [0x31] true []]) _ _ _ eq_refl _);
    [lia|lia|vm_compute; lia].
Defined.

(** X19. [readRequest] chooses the operation by the class of the element
    and never by its tag: every element of the application class (1),
    whatever its tag - the [APPLICATION 3] of a SearchRequest as well as
    the [APPLICATION 0] of a BindRequest - has its content handed to
    [parseBindRequest] and is returned as a bind request, or fails with
    that parser's error; an element of any other class is refused with
    OperationsError "Unsupported ProtocolOp". *)
Theorem readRequest_by_class (id class tag : Z) (comp : bool) (content : bytes) :
  0 ≤ id < 2 ^ 31 → 0 ≤ class ≤ 3 → 0 ≤ tag < 31 →
  Z.of_nat (length content) < 2 ^ 30 →
  readRequest
    (Asn1.encode 0 16 true
       (Asn1.Marshal_int id ++ Asn1.encode class tag comp content))
  = if class =? 1 then
      (fun bindReq =>
         mkRequest (mkLDAPMessage id (Some (OpBindRequest bindReq)) None) "" None)
        <$> parseBindRequest content
    else Err (NewLDAPError ResultCodeOperationsError "Unsupported ProtocolOp").
Proof.
  intros Hid Hclass Htag Hlen.
  apply readRequest_encoded; try done.
  pose proof (Asn1Codec.length_int64_Encode id Hid) as Hi.
  pose proof (Asn1Codec.length_encode 0 2 false (Asn1.int64_Encode id)
                ltac:(lia) ltac:(lia)) as Hint.
  change (Asn1.encode 0 2 false (Asn1.int64_Encode id))
    with (Asn1.Marshal_int id) in Hint.
  pose proof (Asn1Codec.length_encode class tag comp content Htag ltac:(lia)).
  rewrite length_app. lia.
Qed.

Lemma readRequest_by_class_witness :
  readRequest
    [0x30; 0x0d; 0x02; 0x01; 0x07;
     0x63; 0x08; 0x02; 0x01; 0x03; 0x04; 0x01; 0x64; 0x80; 0x00]
  = Ok (mkRequest
          (mkLDAPMessage 7
             (Some (OpBindRequest (mkBindRequest 3 [0x64] (Some (Simple [])))))
             None)
          "" None).
Proof.
  refine (readRequest_by_class 7 1 3 true
            [0x02; 0x01; 0x03; 0x04; 0x01; 0x64; 0x80; 0x00] _ _ _ eq_refl); lia.
Defined.


(** X20. The reply of the default handler. For a bind request,
    [defaultHandler.ServeLDAP] writes one chunk: an envelope that carries
    the message ID of the request, around a universal SEQUENCE (class 0,
    tag 16) that starts with the result code 0 and, as matched DN, the
    name of the bind request. The chunk is not a BindResponse as
    [ParseLDAPMessage] knows it: parsing it fails with OperationsError
    "Unsupported ProtocolOp". *)
Theorem ServeLDAP_reply (rw : ResponseWriter) (id : Z) (bindReq : BindRequest)
    (ctrl : option Controls) (addr : string) (tls : option unit) :
  0 ≤ id < 2 ^ 31 → Z.of_nat (length (Name bindReq)) < 2 ^ 30 →
  ∃ buf env op r1 r2,
    ServeLDAP rw
      (mkRequest (mkLDAPMessage id (Some (OpBindRequest bindReq)) ctrl) addr tls)
    = Ok (rw ++ [buf])
    ∧ Asn1.Unmarshal_RawValue buf = inr (env, [])
    ∧ Asn1.Unmarshal_int (Asn1.Bytes env) = inr (id, Asn1.FullBytes op)
    ∧ Asn1.Unmarshal_RawValue (Asn1.FullBytes op) = inr (op, [])
    ∧ Asn1.Class op = 0 ∧ Asn1.Tag op = 16
    ∧ Asn1.Unmarshal_int (Asn1.Bytes op) = inr (ResultCodeSuccess, r1)
    ∧ Asn1.Unmarshal_bytes r1 = inr (Name bindReq, r2)
    ∧ ParseLDAPMessage buf
      = Err (NewLDAPError ResultCodeOperationsError "Unsupported ProtocolOp").
Proof.
  intros Hid Hname.
  set (lr := mkLDAPResult ResultCodeSuccess (Name bindReq) [] None).
  set (body := LDAPResult_bytes lr ++ Asn1.Marshal_bytes []).
  set (r2 := Asn1.Marshal_bytes [] ++ [] ++ Asn1.Marshal_bytes []).
  set (r1 := Asn1.Marshal_bytes (Name bindReq) ++ r2).
  set (opb := Asn1.encode 0 16 true body).
  assert (Hsplit : body = Asn1.Marshal_int ResultCodeSuccess ++ r1).
  { unfold body, LDAPResult_bytes, r1, r2.
    cbn [lr_ResultCode MatchedDN DiagnosticMessage lr_Referral lr].
    by rewrite <- !app_assoc. }
  assert (Hbody : Z.of_nat (length body) < 2 ^ 30 + 16).
  { rewrite Hsplit. unfold r1, r2. rewrite !length_app.
    pose proof (Asn1Codec.length_encode 0 4 false (Name bindReq)
                  ltac:(lia) ltac:(lia)) as Hn.
    change (Asn1.encode 0 4 false (Name bindReq))
      with (Asn1.Marshal_bytes (Name bindReq)) in Hn.
    change (length (Asn1.Marshal_int ResultCodeSuccess)) with 3%nat.
    change (length (Asn1.Marshal_bytes [])) with 2%nat.
    change (length (@nil Z)) with 0%nat. lia. }
  pose proof (Asn1Codec.length_encode 0 16 true body ltac:(lia) ltac:(lia)) as Hopb.
  fold opb in Hopb.
  pose proof (Asn1Codec.length_int64_Encode id Hid) as Hi.
  pose proof (Asn1Codec.length_encode 0 2 false (Asn1.int64_Encode id)
                ltac:(lia) ltac:(lia)) as Hint.
  change (Asn1.encode 0 2 false (Asn1.int64_Encode id))
    with (Asn1.Marshal_int id) in Hint.
  assert (Henv : Z.of_nat (length (Asn1.Marshal_int id ++ opb)) < 2 ^ 31)
    by (rewrite length_app; lia).
  pose proof (LdapCodec.Unmarshal_RawValue_encode_nil 0 16 true body
                ltac:(lia) ltac:(lia) ltac:(lia)) as Hop.
  fold opb in Hop.
  exists (Asn1.encode 0 16 true (Asn1.Marshal_int id ++ opb)),
    (Asn1.mkRawValue 0 16 true (Asn1.Marshal_int id ++ opb)
       (Asn1.encode 0 16 true (Asn1.Marshal_int id ++ opb))),
    (Asn1.mkRawValue 0 16 true body opb), r1, r2.
  cbn [Asn1.Class Asn1.Tag Asn1.Bytes Asn1.FullBytes].
  split_and!.
  - change (ServeLDAP rw _)
      with (match LDAPMessage_Bytes
                    (mkLDAPMessage id
                       (Some (OpBindResponse (Some (mkBindResponse lr [])))) None)
            with
            | Ok buf => Ok (rw ++ [buf])
            | Err _ => Ok (rw ++ [[]])
            | Panic m => Panic m
            end).
    by rewrite (LdapCodec.LDAPMessage_Bytes_encode id
                  (Some (OpBindResponse (Some (mkBindResponse lr [])))) None opb
                  eq_refl).
  - by apply LdapCodec.Unmarshal_RawValue_encode_nil.
  - by apply Asn1Codec.Unmarshal_int_Marshal_int.
  - done.
  - done.
  - done.
  - rewrite Hsplit. by apply Asn1Codec.Unmarshal_int_Marshal_int.
  - apply Asn1Codec.Unmarshal_bytes_Marshal_bytes. lia.
  - by rewrite (LdapCodec.ParseLDAPMessage_encoded id opb _ Hid Hop Henv).
Qed.

Lemma ServeLDAP_reply_witness :
  ∃ buf env op r1 r2,
    ServeLDAP []
      (mkRequest
         (mkLDAPMessage 7 (Some (OpBindRequest (mkBindRequest 3 [0x64] None))) None)
         "" None)
    = Ok ([] ++ [buf])
    ∧ Asn1.Unmarshal_RawValue buf = inr (env, [])
    ∧ Asn1.Unmarshal_int (Asn1.Bytes env) = inr (7, Asn1.FullBytes op)
    ∧ Asn1.Unmarshal_RawValue (Asn1.FullBytes op) = inr (op, [])
    ∧ Asn1.Class op = 0 ∧ Asn1.Tag op = 16
    ∧ Asn1.Unmarshal_int (Asn1.Bytes op) = inr (ResultCodeSuccess, r1)
    ∧ Asn1.Unmarshal_bytes r1 = inr ([0x64], r2)
    ∧ ParseLDAPMessage buf
      = Err (NewLDAPError ResultCodeOperationsError "Unsupported ProtocolOp").
Proof.
  refine (ServeLDAP_reply [] 7 (mkBindRequest 3 [0x64] None) None "" None
            _ eq_refl). lia.
Defined.

End LdapServerFacts.

(** ** Distinguished names and etcd paths *)
Module EtcdBackendFacts.
Import EtcdBackend.

Lemma Split_cons (s : string) (sep : ascii) :
  ∃ x xs, Split s sep = x :: xs.
Proof.
  induction s as [|c s (x & xs & IH)]; [by eexists _, _|].
  cbn [Split]. destruct (Ascii.eqb c sep); [by eexists _, _|].
  rewrite IH. by eexists _, _.
Qed.

Lemma Split_no_sep (s : string) (sep : ascii) :
  Contains s sep = false → Split s sep = [s].
Proof.
  induction s as [|c s IH]; [done|]. cbn [Contains Split].
  destruct (Ascii.eqb c sep); [done|]. intros Hs. by rewrite IH.
Qed.

Lemma append_nil (s : string) : "" +:+ s = s.
Proof. reflexivity. Qed.

Lemma append_cons (c : ascii) (s t : string) :
  String c s +:+ t = String c (s +:+ t).
Proof. reflexivity. Qed.

Lemma Split_app (s t : string) (sep : ascii) :
  Contains s sep = false →
  Split (s +:+ String sep t) sep = s :: Split t sep.
Proof.
  induction s as [|c s IH]; rewrite ?append_nil, ?append_cons;
    cbn [Contains Split].
  - by rewrite Ascii.eqb_refl.
  - destruct (Ascii.eqb c sep); [done|]. intros Hs. by rewrite IH.
Qed.

Lemma Contains_app (s t : string) (c : ascii) :
  Contains (s +:+ t) c = Contains s c || Contains t c.
Proof.
  induction s as [|c' s IH]; [done|]. rewrite append_cons. cbn [Contains].
  by rewrite IH, orb_assoc.
Qed.

Lemma Join_cons (x y : string) (ys : list string) (sep : string) :
  Join (x :: y :: ys) sep = x +:+ sep +:+ Join (y :: ys) sep.
Proof. reflexivity. Qed.

Lemma Split_Join (xs : list string) (sep : ascii) :
  xs ≠ [] → Forall (fun x => Contains x sep = false) xs →
  Split (Join xs (String sep "")) sep = xs.
Proof.
  intros Hne Hxs. induction Hxs as [|x xs Hx Hxs IH]; [done|].
  destruct xs as [|y ys].
  - by apply Split_no_sep.
  - rewrite Join_cons, append_cons, append_nil.
    rewrite Split_app by done. by rewrite IH.
Qed.

Lemma Contains_Join (xs : list string) (sep c : ascii) :
  Ascii.eqb sep c = false →
  Forall (fun x => Contains x c = false) xs →
  Contains (Join xs (String sep "")) c = false.
Proof.
  intros Hsep Hxs. induction Hxs as [|x xs Hx Hxs IH]; [done|].
  destruct xs as [|y ys]; [done|].
  rewrite Join_cons, !Contains_app, Hx, IH. cbn [Contains]. by rewrite Hsep.
Qed.

Lemma Contains_Join_sep (x y : string) (ys : list string) (sep : ascii) :
  Contains (Join (x :: y :: ys) (String sep "")) sep = true.
Proof.
  rewrite Join_cons, !Contains_app. cbn [Contains].
  rewrite Ascii.eqb_refl. by rewrite orb_true_r.
Qed.

Lemma HasPrefix_app (s prefix : string) : HasPrefix (prefix +:+ s) prefix = true.
Proof.
  unfold HasPrefix. induction prefix as [|c p IH]; [by destruct s|].
  rewrite append_cons. cbn [String.prefix]. by destruct (ascii_dec c c).
Qed.

(** A part with one of the three prefixes has a second field. *)
Lemma HasPrefix_Split (part : string) (a b : ascii) :
  Ascii.eqb a "=" = false → Ascii.eqb b "=" = false →
  HasPrefix part (String a (String b "=")) = true →
  ∃ v vs, Split part "=" = String a (String b "") :: v :: vs.
Proof.
  intros Ha Hb. unfold HasPrefix.
  destruct part as [|a' [|b' [|c' rest]]]; cbn [String.prefix];
    try (by repeat case_match).
  destruct (ascii_dec a a') as [<-|]; [|done].
  destruct (ascii_dec b b') as [<-|]; [|done].
  destruct (ascii_dec "=" c') as [<-|]; [|done]. intros _.
  cbn [Split]. rewrite Ha, Hb. cbn [Ascii.eqb Bool.eqb].
  destruct (Split_cons rest "=") as (v & vs & ->). by eexists _, _.
Qed.


Lemma append_assoc (s t u : string) : (s +:+ t) +:+ u = s +:+ t +:+ u.
Proof.
  induction s as [|c s IH]; [done|]. by rewrite !append_cons, IH.
Qed.

Lemma index_last (l : list string) (x : string) :
  index (l ++ [x]) (length (l ++ [x]) - 1) = Value x.
Proof.
  unfold index. rewrite length_app. cbn [length].
  replace (length l + 1 - 1)%nat with (length l) by lia.
  by rewrite lookup_app_r, Nat.sub_diag by lia.
Qed.

(** *** [dnToPathAndID] *)

Lemma dnPart_Value (st : dnState) (part : string) :
  ∃ st', dnPart st part = Value st'
         ∧ (length (st_path st) ≤ length (st_path st'))%nat.
Proof.
  unfold dnPart.
  destruct (HasPrefix part "dc=") eqn:Hdc.
  { apply HasPrefix_Split in Hdc as (v & vs & ->); [|done..].
    eexists; split; [done|]. cbn. lia. }
  destruct (HasPrefix part "ou=") eqn:Hou.
  { apply HasPrefix_Split in Hou as (v & vs & ->); [|done..].
    eexists; split; [done|]. cbn. lia. }
  destruct (HasPrefix part "cn=") eqn:Hcn.
  { apply HasPrefix_Split in Hcn as (v & vs & ->); [|done..].
    eexists; split; [done|]. cbn. lia. }
  eexists; split; [done|]. cbn. lia.
Qed.

Lemma dnParts_Value (parts : list string) :
  ∀ st, ∃ st', dnParts st parts = Value st'.
Proof.
  induction parts as [|part parts IH]; intros st; [by eexists|].
  cbn [dnParts]. destruct (dnPart_Value st part) as (st' & -> & _).
  cbn [mbind outcome_bind]. apply IH.
Qed.

(** X21. [dnToPathAndID] comes back on every input: the two index
    expressions in it ([splitedPart[1]] and [path[len(path)-1]]) never go
    out of range, the only error it returns is "Invalid DN", and a path it
    returns starts with a slash, the prefix of the backend and a slash. *)
Theorem dnToPathAndID_outcome (prefix dn : string) :
  match dnToPathAndID prefix dn with
  | Value (path, id) => HasPrefix path ("/" +:+ prefix +:+ "/") = true
  | Error err => err = "Invalid DN"
  | Panic _ => False
  end.
Proof.
  unfold dnToPathAndID.
  assert (Hpath : ∀ (path : list string) (id : string),
            HasPrefix ("/" +:+ prefix +:+ "/" +:+ Join path "/")
              ("/" +:+ prefix +:+ "/") = true).
  { intros path _. rewrite <- (append_assoc prefix), <- (append_assoc "/").
    apply HasPrefix_app. }
  destruct (1 <? length (Split dn ","))%nat.
  - destruct (dnParts_Value (Split dn ",") (mkDnState [] [] false)) as [st ->].
    cbn [mbind outcome_bind st_invalid st_path].
    destruct (st_invalid st); [done|].
    destruct (index _ _) as [id| |msg] eqn:Hid; cbn [mbind outcome_bind].
    + by apply Hpath.
    + unfold index in Hid. by case_match.
    + unfold index in Hid. case_match eqn:Hl; [done|].
      apply lookup_ge_None in Hl. cbn [length] in Hl. lia.
  - destruct (Split_cons dn ",") as (part & parts & ->).
    cbn [index lookup list_lookup mbind outcome_bind].
    destruct (HasPrefix part "cn=") eqn:Hcn; [|done].
    apply HasPrefix_Split in Hcn as (v & vs & ->); [|done..].
    cbn [index lookup list_lookup mbind outcome_bind st_invalid st_path length].
    by apply Hpath.
Qed.

Lemma dnParts_app (l1 l2 : list string) :
  ∀ st, dnParts st (l1 ++ l2) = st' ← dnParts st l1; dnParts st' l2.
Proof.
  induction l1 as [|part l1 IH]; intros st; [done|].
  cbn [app dnParts]. destruct (dnPart st part); [|done..].
  cbn [mbind outcome_bind]. apply IH.
Qed.

Lemma dnPart_cn (st : dnState) (v : string) :
  Contains v "=" = false →
  dnPart st ("cn=" +:+ v)
  = Value (mkDnState (v :: st_path st) (st_domain st) (st_invalid st)).
Proof.
  intros Hv. unfold dnPart.
  change (HasPrefix ("cn=" +:+ v) "dc=") with false.
  change (HasPrefix ("cn=" +:+ v) "ou=") with false.
  replace (HasPrefix ("cn=" +:+ v) "cn=") with true
    by (symmetry; apply HasPrefix_app).
  cbn [orb]. change ("cn=" +:+ v) with ("cn" +:+ String "=" v).
  by rewrite Split_app, Split_no_sep by done.
Qed.

Lemma dnParts_ou (ous : list string) :
  Forall (fun v => Contains v "=" = false) ous →
  ∀ st, dnParts st (map (append "ou=") ous)
        = Value (mkDnState (rev ous ++ st_path st) (st_domain st) (st_invalid st)).
Proof.
  induction 1 as [|v ous Hv Hous IH]; intros st; [by destruct st|].
  cbn [map dnParts]. unfold dnPart at 1.
  change (HasPrefix ("ou=" +:+ v) "dc=") with false.
  replace (HasPrefix ("ou=" +:+ v) "ou=") with true
    by (symmetry; apply HasPrefix_app).
  cbn [orb]. change ("ou=" +:+ v) with ("ou" +:+ String "=" v).
  rewrite Split_app, Split_no_sep by done.
  cbn [index lookup list_lookup mbind outcome_bind]. rewrite IH.
  cbn [st_path st_domain st_invalid rev]. by rewrite <- app_assoc.
Qed.

Lemma dnParts_dc (dcs : list string) :
  Forall (fun v => Contains v "=" = false) dcs →
  ∀ st, dnParts st (map (append "dc=") dcs)
        = Value (mkDnState (st_path st) (st_domain st ++ dcs) (st_invalid st)).
Proof.
  induction 1 as [|v dcs Hv Hdcs IH]; intros st.
  { cbn [map dnParts]. rewrite app_nil_r. by destruct st. }
  cbn [map dnParts]. unfold dnPart at 1.
  replace (HasPrefix ("dc=" +:+ v) "dc=") with true
    by (symmetry; apply HasPrefix_app).
  change ("dc=" +:+ v) with ("dc" +:+ String "=" v).
  rewrite Split_app, Split_no_sep by done.
  cbn [index lookup list_lookup mbind outcome_bind]. rewrite IH.
  cbn [st_path st_domain st_invalid]. by rewrite <- app_assoc.
Qed.

(** The path of a DN made of a cn, organisational units and domain
    components, in this order. *)
Lemma dnToPathAndID_canonical (prefix cn : string) (ous dcs : list string) :
  dcs ≠ [] →
  Forall (fun v => Contains v "," = false) (cn :: ous ++ dcs) →
  Forall (fun v => Contains v "=" = false) (cn :: ous ++ dcs) →
  dnToPathAndID prefix
    (Join (("cn=" +:+ cn) :: map (append "ou=") ous ++ map (append "dc=") dcs) ",")
  = Value ("/" +:+ prefix +:+ "/" +:+ Join (Join dcs "." :: rev ous ++ [cn]) "/",
           cn).
Proof.
  intros Hdcs Hcomma Heq. unfold dnToPathAndID.
  rewrite Split_Join; [|done|].
  2:{ change (("cn=" +:+ cn) :: map (append "ou=") ous ++ map (append "dc=") dcs)
        with (map (append "cn=") [cn] ++ map (append "ou=") ous
                ++ map (append "dc=") dcs).
      apply Forall_cons in Hcomma as [Hcn Hcomma].
      apply Forall_app in Hcomma as [Hous Hdc].
      rewrite !Forall_app, !Forall_map. split_and!.
      - constructor; [|done]. cbn. by rewrite Contains_app, Hcn.
      - eapply Forall_impl; [exact Hous|]. intros v Hv. cbn.
        by rewrite Contains_app, Hv.
      - eapply Forall_impl; [exact Hdc|]. intros v Hv. cbn.
        by rewrite Contains_app, Hv. }
  replace (1 <? length _)%nat with true.
  2:{ symmetry. apply Nat.ltb_lt. cbn [length].
      rewrite length_app, !length_map. destruct dcs; [done|]. cbn [length]. lia. }
  apply Forall_cons in Heq as [Hcn Heq].
  apply Forall_app in Heq as [Hous Hdc].
  cbn [dnParts]. rewrite dnPart_cn by done. cbn [mbind outcome_bind].
  rewrite dnParts_app, dnParts_ou by done. cbn [mbind outcome_bind].
  rewrite dnParts_dc by done.
  cbn [mbind outcome_bind st_path st_domain st_invalid app].
  change (Join dcs "." :: rev ous ++ [cn])
    with ((Join dcs "." :: rev ous) ++ [cn]).
  by rewrite index_last.
Qed.

(** *** [pathToDNAndID] *)

Lemma pathSegments_ou (last : Z) (ys tl : list string) :
  ∀ st i, 0 < i → i + Z.of_nat (length ys) ≤ last →
    pathSegments last st i (ys ++ tl)
    = pathSegments last
        (mkPathState (map (append "ou=") (rev ys) ++ st_dn st) (st_id st))
        (i + Z.of_nat (length ys)) tl.
Proof.
  induction ys as [|y ys IH]; intros st i Hi Hlast.
  { cbn [app rev map length]. rewrite Z.add_0_r. by destruct st. }
  cbn [app pathSegments length] in *. unfold pathSegment at 1.
  replace (i =? 0) with false by lia. replace (i =? last) with false by lia.
  rewrite IH by lia. cbn [st_dn st_id rev]. rewrite map_app, <- app_assoc.
  f_equal. lia.
Qed.

Lemma pathSegments_canonical (domain cn : string) (ous : list string) :
  pathSegments (Z.of_nat (length (domain :: rev ous ++ [cn])) - 1)
    (mkPathState [] "") 0 (domain :: rev ous ++ [cn])
  = mkPathState
      (("cn=" +:+ cn) :: map (append "ou=") ous
         ++ (if Contains domain "."
             then map (append "dc=") (Split domain ".")
             else ["o=" +:+ domain]))
      cn.
Proof.
  cbn [length pathSegments]. rewrite length_app, length_rev. cbn [length].
  unfold pathSegment at 1. cbn [Z.eqb st_dn st_id app].
  replace (0 + 1) with 1 by lia.
  rewrite pathSegments_ou by (rewrite ?length_rev; lia).
  cbn [pathSegments]. unfold pathSegment.
  rewrite length_rev, rev_involutive.
  replace (1 + Z.of_nat (length ous) =? 0) with false
    by (symmetry; apply Z.eqb_neq; lia).
  replace (1 + Z.of_nat (length ous) =? _) with true
    by (symmetry; apply Z.eqb_eq; lia).
  cbn [st_dn st_id]. by destruct (Contains domain ".").
Qed.

(** The DN of a path made of a domain, organisational units and a cn. *)
Lemma pathToDNAndID_canonical (prefix domain cn : string) (ous : list string) :
  Contains prefix "/" = false →
  Forall (fun v => Contains v "/" = false) (domain :: cn :: ous) →
  pathToDNAndID
    ("/" +:+ prefix +:+ "/" +:+ Join (domain :: rev ous ++ [cn]) "/")
  = Value (Join (("cn=" +:+ cn) :: map (append "ou=") ous
                   ++ (if Contains domain "."
                       then map (append "dc=") (Split domain ".")
                       else ["o=" +:+ domain])) ",",
           cn).
Proof.
  intros Hprefix Hall.
  apply Forall_cons in Hall as [Hdomain Hall].
  apply Forall_cons in Hall as [Hcn Hous].
  rewrite append_cons, append_nil. cbn [pathToDNAndID].
  change (prefix +:+ "/" +:+ Join (domain :: rev ous ++ [cn]) "/")
    with (prefix +:+ String "/" (Join (domain :: rev ous ++ [cn]) "/")).
  rewrite Split_app by done. rewrite Split_Join; [|done|].
  2:{ constructor; [done|]. apply Forall_app. split; [|by constructor].
      by apply Forall_rev. }
  cbn [drop]. by rewrite pathSegments_canonical.
Qed.

(** X22. A DN and the path of its entry determine each other: for a DN
    made of a cn, any number of ou components and two or more dc
    components (whose values hold no comma, equals sign or slash, and for
    the dc values no dot), [dnToPathAndID] returns a path with the cn as
    ID, and [pathToDNAndID] takes this path back to the same DN and the
    same ID. So the DN under which [Search] reports the entry stored at
    the path that [Get] reads for a DN is that DN. *)
Theorem pathToDNAndID_dnToPathAndID (prefix cn : string) (ous dcs : list string) :
  Contains prefix "/" = false →
  Forall (fun v => Contains v "," || Contains v "=" || Contains v "/" = false)
    (cn :: ous ++ dcs) →
  Forall (fun v => Contains v "." = false) dcs →
  (2 ≤ length dcs)%nat →
  ∃ path,
    dnToPathAndID prefix
      (Join (("cn=" +:+ cn) :: map (append "ou=") ous ++ map (append "dc=") dcs) ",")
    = Value (path, cn)
    ∧ pathToDNAndID path
      = Value (Join (("cn=" +:+ cn) :: map (append "ou=") ous
                       ++ map (append "dc=") dcs) ",", cn).
Proof.
  intros Hprefix Hall Hdot Hlen.
  assert (Hcomma : Forall (fun v => Contains v "," = false) (cn :: ous ++ dcs)).
  { eapply Forall_impl; [exact Hall|]. intros v Hv. cbn in Hv.
    by apply orb_false_iff in Hv as [[? ?]%orb_false_iff ?]. }
  assert (Heq : Forall (fun v => Contains v "=" = false) (cn :: ous ++ dcs)).
  { eapply Forall_impl; [exact Hall|]. intros v Hv. cbn in Hv.
    by apply orb_false_iff in Hv as [[? ?]%orb_false_iff ?]. }
  assert (Hslash : Forall (fun v => Contains v "/" = false) (cn :: ous ++ dcs)).
  { eapply Forall_impl; [exact Hall|]. intros v Hv. cbn in Hv.
    by apply orb_false_iff in Hv as [[? ?]%orb_false_iff ?]. }
  eexists. split.
  { apply dnToPathAndID_canonical; [|done..].
    intros ->. simpl in Hlen. lia. }
  apply Forall_cons in Hslash as [Hcn Hslash].
  apply Forall_app in Hslash as [Hous Hdcs].
  rewrite pathToDNAndID_canonical; [|done|].
  2:{ constructor; [by apply Contains_Join|]. by constructor. }
  destruct dcs as [|d1 [|d2 ds]]; [simpl in Hlen; lia..|].
  rewrite Contains_Join_sep, Split_Join by done. done.
Qed.


Lemma pathToDNAndID_dnToPathAndID_witness :
  ∃ path,
    dnToPathAndID "etcdap" "cn=mark,ou=People,dc=example,dc=com"
    = Value (path, "mark")
    ∧ pathToDNAndID path
      = Value ("cn=mark,ou=People,dc=example,dc=com", "mark").
Proof.
  refine (pathToDNAndID_dnToPathAndID "etcdap" "mark" ["People"]
            ["example"; "com"] eq_refl _ _ _);
    [repeat constructor|repeat constructor|simpl; lia].
Defined.

(** X23. A domain of a single component does not come back: for a DN
    whose only dc component has no dot in its value, [dnToPathAndID]
    still returns a path, but [pathToDNAndID] turns this path into a DN
    that ends in [o=] and the value where the original had [dc=] - a
    different DN. So an entry found by [Search] under such a base is
    reported under a DN that [Get] does not accept (it is "Invalid DN",
    [o=] being none of the three prefixes). *)
Theorem pathToDNAndID_single_dc (prefix cn dc : string) (ous : list string) :
  Contains prefix "/" = false →
  Forall (fun v => Contains v "," || Contains v "=" || Contains v "/" = false)
    (cn :: ous ++ [dc]) →
  Contains dc "." = false →
  ∃ path,
    dnToPathAndID prefix
      (Join (("cn=" +:+ cn) :: map (append "ou=") ous ++ ["dc=" +:+ dc]) ",")
    = Value (path, cn)
    ∧ pathToDNAndID path
      = Value (Join (("cn=" +:+ cn) :: map (append "ou=") ous ++ ["o=" +:+ dc]) ",",
               cn)
    ∧ Join (("cn=" +:+ cn) :: map (append "ou=") ous ++ ["o=" +:+ dc]) ","
      ≠ Join (("cn=" +:+ cn) :: map (append "ou=") ous ++ ["dc=" +:+ dc]) ","
    ∧ dnToPathAndID prefix
        (Join (("cn=" +:+ cn) :: map (append "ou=") ous ++ ["o=" +:+ dc]) ",")
      = Error "Invalid DN".
Proof.
  intros Hprefix Hall Hdot.
  assert (Hcomma : Forall (fun v => Contains v "," = false) (cn :: ous ++ [dc])).
  { eapply Forall_impl; [exact Hall|]. intros v Hv. cbn in Hv.
    by apply orb_false_iff in Hv as [[? ?]%orb_false_iff ?]. }
  assert (Heq : Forall (fun v => Contains v "=" = false) (cn :: ous ++ [dc])).
  { eapply Forall_impl; [exact Hall|]. intros v Hv. cbn in Hv.
    by apply orb_false_iff in Hv as [[? ?]%orb_false_iff ?]. }
  assert (Hslash : Forall (fun v => Contains v "/" = false) (cn :: ous ++ [dc])).
  { eapply Forall_impl; [exact Hall|]. intros v Hv. cbn in Hv.
    by apply orb_false_iff in Hv as [[? ?]%orb_false_iff ?]. }
  assert (Hparts : ∀ p : string,
            Contains p "," = false →
            Forall (fun x => Contains x "," = false)
              (("cn=" +:+ cn) :: map (append "ou=") ous ++ [p +:+ dc])).
  { intros p Hp.
    apply Forall_cons in Hcomma as [Hcn Hcomma].
    apply Forall_app in Hcomma as [Hous Hdc].
    rewrite Forall_singleton in Hdc.
    constructor; [by rewrite Contains_app, Hcn|].
    apply Forall_app. split.
    - apply Forall_map. eapply Forall_impl; [exact Hous|]. intros v Hv. cbn.
      by rewrite Contains_app, Hv.
    - apply Forall_singleton. by rewrite Contains_app, Hp, Hdc. }
  eexists. split_and!.
  - by apply (dnToPathAndID_canonical prefix cn ous [dc]).
  - apply Forall_cons in Hslash as [Hcn Hslash].
    apply Forall_app in Hslash as [Hous Hdc]. rewrite Forall_singleton in Hdc.
    change (Join [dc] ".") with dc.
    rewrite pathToDNAndID_canonical by (by repeat constructor).
    by rewrite Hdot.
  - intros Hjoin. apply (f_equal (fun s => Split s ",")) in Hjoin.
    rewrite !Split_Join in Hjoin by (done || by apply Hparts).
    rewrite !app_comm_cons in Hjoin. apply app_inj_tail in Hjoin as [_ Hjoin].
    rewrite !append_cons in Hjoin. discriminate.
  - unfold dnToPathAndID. rewrite Split_Join by (done || by apply Hparts).
    replace (1 <? length _)%nat with true.
    2:{ symmetry. apply Nat.ltb_lt. cbn [length].
        rewrite length_app, length_map. cbn [length]. lia. }
    apply Forall_cons in Heq as [Hcn Heq].
    apply Forall_app in Heq as [Hous Hdc].
    cbn [dnParts]. rewrite dnPart_cn by done. cbn [mbind outcome_bind].
    rewrite dnParts_app, dnParts_ou by done. cbn [mbind outcome_bind dnParts].
    unfold dnPart.
    change (HasPrefix ("o=" +:+ dc) "dc=") with false.
    change (HasPrefix ("o=" +:+ dc) "ou=") with false.
    change (HasPrefix ("o=" +:+ dc) "cn=") with false.
    done.
Qed.

Lemma pathToDNAndID_single_dc_witness :
  ∃ path,
    dnToPathAndID "etcdap" "cn=mark,ou=People,dc=local" = Value (path, "mark")
    ∧ pathToDNAndID path = Value ("cn=mark,ou=People,o=local", "mark")
    ∧ "cn=mark,ou=People,o=local" ≠ "cn=mark,ou=People,dc=local"
    ∧ dnToPathAndID "etcdap" "cn=mark,ou=People,o=local" = Error "Invalid DN".
Proof.
  refine (pathToDNAndID_single_dc "etcdap" "mark" "local" ["People"]
            eq_refl _ eq_refl).
  repeat constructor.
Defined.

End EtcdBackendFacts.

(** ** More on the handlers *)
Module GatewayInvariants.
Import Gateway.

Section Handlers.
Context {B : Type} `{Backend B}.
Variable sha256_hex : string → string.
Variable be : B.

(** The entry after the loop over the requested attributes. *)
Lemma projectAttributes_fold (user : User) (attrs : list string) :
  ∀ entry,
    projectAttributes user attrs entry
    = mkSearchResultEntry (objectName entry)
        (attributes entry
           ++ omap (fun attr =>
                      if decide (attr = "cn") then Some ("cn", [Cn user])
                      else if decide (attr = "name") then Some ("name", [Name user])
                      else if decide (attr = "email") then Some ("email", [Email user])
                      else None)
                attrs).
Proof.
  unfold projectAttributes.
  induction attrs as [|attr attrs IH]; intros entry.
  { cbn [fold_left omap list_omap]. rewrite app_nil_r. by destruct entry. }
  cbn [fold_left omap list_omap]. rewrite IH.
  repeat case_decide; cbn [AddAttribute objectName attributes];
    by rewrite <- ?app_assoc.
Qed.

(** X24. What a search entry carries: the attributes of the entry built
    for a user are, by name, the requested attributes that are one of cn,
    name and email, in the order of the request and with its repetitions;
    every other requested name is dropped without a trace. Each attribute
    has the single value of the user's field of that name, so the stored
    password digest is never part of an entry; and an empty request list
    gives an entry without attributes. *)
Theorem projectAttributes_names (user : User) (attrs : list string) (dn : string) :
  let entry := projectAttributes user attrs (NewSearchResultEntry dn) in
  objectName entry = dn
  ∧ (attributes entry).*1
    = filter (fun attr => attr ∈ ["cn"; "name"; "email"]) attrs
  ∧ ∀ name values, (name, values) ∈ attributes entry →
      (name = "cn" ∧ values = [Cn user])
      ∨ (name = "name" ∧ values = [Name user])
      ∨ (name = "email" ∧ values = [Email user]).
Proof.
  cbn zeta. rewrite projectAttributes_fold.
  cbn [NewSearchResultEntry objectName attributes app]. split_and!; [done| |].
  - induction attrs as [|attr attrs IH]; [done|].
    cbn [omap list_omap]. rewrite filter_cons.
    destruct (decide (attr = "cn")) as [->|Hcn].
    { rewrite decide_True by (repeat constructor). cbn [fmap list_fmap fst].
      f_equal. apply IH. }
    destruct (decide (attr = "name")) as [->|Hname].
    { rewrite decide_True by (repeat constructor). cbn [fmap list_fmap fst].
      f_equal. apply IH. }
    destruct (decide (attr = "email")) as [->|Hemail].
    { rewrite decide_True by (repeat constructor). cbn [fmap list_fmap fst].
      f_equal. apply IH. }
    rewrite decide_False; [apply IH|].
    intros Hin. repeat (apply elem_of_cons in Hin as [?|Hin]; [done|]).
    by apply elem_of_nil in Hin.
  - intros name values Hin. apply list_elem_of_omap in Hin as (attr & _ & Hattr).
    repeat case_decide; simplify_eq; auto.
Qed.


(** X26. Every entry that the search handler writes comes from the
    backend: it is the entry of one of the users that [Search] returned
    for an EqualityMatch filter on cn with the value of the request, it is
    named by that user's DN, and its attributes are among cn, name and
    email with that user's values. The handler makes up no entry, and
    none when the filter is of any other kind. *)
Theorem handleSearch_entries (req : SearchRequest) (e : SearchResultEntry) :
  SearchResultEntryResponse e ∈ handleSearch be [] req →
  ∃ v users user,
    req_Filter req = FilterEqualityMatch "cn" v
    ∧ Search be (BaseObject req) {["cn" := v]} = inr users
    ∧ user ∈ users
    ∧ objectName e = Dn user
    ∧ ∀ name values, (name, values) ∈ attributes e →
        (name = "cn" ∧ values = [Cn user])
        ∨ (name = "name" ∧ values = [Name user])
        ∨ (name = "email" ∧ values = [Email user]).
Proof.
  intros Hin.
  destruct (req_Filter req) as [| | |desc v| | | | | |] eqn:Hfilter.
  4: destruct (decide (desc = "cn")) as [->|Hdesc].
  4: destruct (Search be (BaseObject req) {["cn" := v]}) as [err|users] eqn:Hsearch.
  all: unfold handleSearch in Hin; rewrite Hfilter in Hin;
    rewrite ?decide_True, ?decide_False in Hin by done;
    rewrite ?insert_empty, ?Hsearch in Hin.
  5:{ rewrite GatewayFacts.fold_left_Write in Hin. unfold Write in Hin.
      cbn [app] in Hin. apply elem_of_app in Hin as [Hin|Hin].
      2:{ apply list_elem_of_singleton in Hin. discriminate. }
      apply list_elem_of_In, in_map_iff in Hin as (user & [= <-] & Huser).
      apply list_elem_of_In in Huser.
      exists v, users, user. split_and!; [done..| |].
      - by rewrite projectAttributes_fold.
      - intros name values Hattr. rewrite projectAttributes_fold in Hattr.
        cbn [NewSearchResultEntry objectName attributes app] in Hattr.
        apply list_elem_of_omap in Hattr as (attr & _ & Hattr).
        repeat case_decide; simplify_eq; auto. }
  all: unfold Write in Hin; cbn [app] in Hin;
    apply list_elem_of_singleton in Hin; discriminate.
Qed.

End Handlers.

Lemma handleSearch_entries_witness :
  ∃ v users user,
    FilterEqualityMatch "cn" "mark" = FilterEqualityMatch "cn" v
    ∧ Search Samples.directory "ou=People,dc=example,dc=com" {["cn" := v]}
      = inr users
    ∧ user ∈ users
    ∧ "cn=mark,ou=People,dc=example,dc=com" = Dn user
    ∧ ∀ name values, (name, values) ∈ [("email", ["mark@example.com"])] →
        (name = "cn" ∧ values = [Cn user])
        ∨ (name = "name" ∧ values = [Name user])
        ∨ (name = "email" ∧ values = [Email user]).
Proof.
  refine (handleSearch_entries Samples.directory
            (mkSearchRequest "ou=People,dc=example,dc=com"
               (FilterEqualityMatch "cn" "mark") ["email"])
            (mkSearchResultEntry "cn=mark,ou=People,dc=example,dc=com"
               [("email", ["mark@example.com"])]) _).
  vm_compute. apply list_elem_of_here.
Defined.

End GatewayInvariants.
